(** * Vision node: decision and publication controller

    A shallow embedding of [src/vision_node.py]: the per-frame movement
    decision with its deadband, the one-snapshot-per-lock-episode gate, the
    two publish timers, the message codec and the camera acquisition
    fallback.

    Conventions of the embedding.
    - A Python [str] is the list of its code points ([pystr]).
    - [time.time()] readings that are compared are exact rationals ([Q]);
      the readings that are only serialised into a payload are carried by
      the decimal literal that [repr] prints for them ([pyfloat]).
    - The coordinates of a face box are Python floats: binary64, carried
      by primitive floats, so the centre and the deadband are computed and
      compared as the interpreter does it. Where the code takes [int(x)]
      the exact value of the double, a rational, is truncated towards
      zero.
    - Every call of [time.time()] is a separate input of the frame.
    - [decide], [publish_movement], [run_frame] and [run] are the loop on
      the frames on which no call raises; the module [Exc] is the loop
      with the exceptions of [int] and of [cv2.imencode], and the two are
      proved to agree on every frame that does not raise. *)

From Stdlib Require Import Floats.PrimFloat Floats.SpecFloat Floats.FloatOps.
From Stdlib Require Import Floats.FloatAxioms.
From Stdlib Require Import ZArith NArith QArith List Bool Lia Lqa.
From Stdlib Require Import Ascii String Strings.Byte DecimalFacts DecimalN.
From Stdlib Require Import Permutation.
Import ListNotations.

(** [0.4] and [0.6] are written as the source writes them and stand for
    the nearest doubles. *)
#[local] Set Warnings "-inexact-float".

Local Open Scope N_scope.

(** ** Python strings *)

Definition pystr := list N.

(** Code points of an ASCII literal. *)
Definition py (s : string) : pystr := map N_of_ascii (list_ascii_of_string s).

Fixpoint pystr_eqb (a b : pystr) : bool :=
  match a, b with
  | [], [] => true
  | x :: a', y :: b' => (x =? y) && pystr_eqb a' b'
  | _, _ => false
  end.

(** A code point (below 0x110000) that is not a high surrogate
    (0xD800 to 0xDBFF). Low surrogates are allowed: they are what
    undecodable bytes of a command line become. *)
Definition not_high_surrogate (c : N) : Prop :=
  c < 55296 \/ (56320 <= c /\ c < 1114112).

Definition no_high_surrogates (s : pystr) : Prop := Forall not_high_surrogate s.

(** ** Floats as [repr] prints them

    [f_int] is the integer part, [f_frac] the digits after the point; an
    empty fraction prints as [.0], the way [repr(1.0)] is [1.0]. *)

Record pyfloat := mk_pyfloat {
  f_neg : bool;
  f_int : N;
  f_frac : Decimal.uint
}.

Fixpoint uint_chars (u : Decimal.uint) : pystr :=
  match u with
  | Decimal.Nil => []
  | Decimal.D0 u => 48 :: uint_chars u
  | Decimal.D1 u => 49 :: uint_chars u
  | Decimal.D2 u => 50 :: uint_chars u
  | Decimal.D3 u => 51 :: uint_chars u
  | Decimal.D4 u => 52 :: uint_chars u
  | Decimal.D5 u => 53 :: uint_chars u
  | Decimal.D6 u => 54 :: uint_chars u
  | Decimal.D7 u => 55 :: uint_chars u
  | Decimal.D8 u => 56 :: uint_chars u
  | Decimal.D9 u => 57 :: uint_chars u
  end.

Definition frac_digits (u : Decimal.uint) : Decimal.uint :=
  match u with
  | Decimal.Nil => Decimal.D0 Decimal.Nil
  | _ => u
  end.

(** [float.__repr__] in positional notation. *)
Definition float_repr (x : pyfloat) : pystr :=
  (if f_neg x then [45] else [])
    ++ uint_chars (N.to_uint (f_int x)) ++ [46] ++ uint_chars (frac_digits (f_frac x)).

(** The number a float stands for. *)
Definition float_value (x : pyfloat) : Q :=
  let scale := (10 ^ Z.of_nat (Decimal.nb_digits (f_frac x)))%Z in
  let m := (Z.of_N (f_int x) * scale + Z.of_N (N.of_uint (f_frac x)))%Z in
  Qmake (if f_neg x then Z.opp m else m) (Z.to_pos scale).

(** ** base64 (RFC 4648, standard alphabet, with padding) *)

Definition b64_char (s : N) : N :=
  if s <? 26 then 65 + s
  else if s <? 52 then 71 + s
  else if s <? 62 then s - 4
  else if s =? 62 then 43
  else 47.

Definition b64_index (c : N) : option N :=
  if (65 <=? c) && (c <=? 90) then Some (c - 65)
  else if (97 <=? c) && (c <=? 122) then Some (c - 71)
  else if (48 <=? c) && (c <=? 57) then Some (c + 4)
  else if c =? 43 then Some 62
  else if c =? 47 then Some 63
  else None.

Definition b64_pad : N := 61.

Fixpoint b64encode (bs : list byte) : pystr :=
  match bs with
  | [] => []
  | [a] =>
      let n := Byte.to_N a * 65536 in
      [b64_char (n / 262144); b64_char ((n / 4096) mod 64); b64_pad; b64_pad]
  | [a; b] =>
      let n := Byte.to_N a * 65536 + Byte.to_N b * 256 in
      [b64_char (n / 262144); b64_char ((n / 4096) mod 64);
       b64_char ((n / 64) mod 64); b64_pad]
  | a :: b :: c :: rest =>
      let n := Byte.to_N a * 65536 + Byte.to_N b * 256 + Byte.to_N c in
      b64_char (n / 262144) :: b64_char ((n / 4096) mod 64)
        :: b64_char ((n / 64) mod 64) :: b64_char (n mod 64) :: b64encode rest
  end.

Definition byte_of_N (n : N) : byte :=
  match Byte.of_N n with
  | Some b => b
  | None => x00
  end.

(** Strict decoding of canonical base64 text: groups of four characters,
    padding only in the last group, no stray bits. *)
Fixpoint b64decode (cs : pystr) : option (list byte) :=
  match cs with
  | [] => Some []
  | [c0; c1; p2; p3] =>
      match b64_index c0, b64_index c1 with
      | Some s0, Some s1 =>
          if (p2 =? b64_pad) && (p3 =? b64_pad) then
            if s1 mod 16 =? 0 then Some [byte_of_N (s0 * 4 + s1 / 16)] else None
          else
            match b64_index p2 with
            | Some s2 =>
                let m := s0 * 262144 + s1 * 4096 + s2 * 64 in
                if p3 =? b64_pad then
                  if s2 mod 4 =? 0
                  then Some [byte_of_N (m / 65536); byte_of_N ((m / 256) mod 256)]
                  else None
                else
                  match b64_index p3 with
                  | Some s3 =>
                      let m := m + s3 in
                      Some [byte_of_N (m / 65536); byte_of_N ((m / 256) mod 256);
                            byte_of_N (m mod 256)]
                  | None => None
                  end
            | None => None
            end
      | _, _ => None
      end
  | c0 :: c1 :: c2 :: c3 :: rest =>
      match b64_index c0, b64_index c1, b64_index c2, b64_index c3, b64decode rest with
      | Some s0, Some s1, Some s2, Some s3, Some tl =>
          let m := s0 * 262144 + s1 * 4096 + s2 * 64 + s3 in
          Some (byte_of_N (m / 65536) :: byte_of_N ((m / 256) mod 256)
                  :: byte_of_N (m mod 256) :: tl)
      | _, _, _, _, _ => None
      end
  | _ => None
  end.

(** ** JSON values and dictionaries

    The payloads are flat dictionaries of scalars; a [dict] keeps its keys
    in insertion order, which is the order [json.dumps] prints them in. *)

Inductive jval :=
| JNull
| JBool (b : bool)
| JInt (z : Z)
| JFloat (x : pyfloat)
| JStr (s : pystr).

Definition pydict := list (pystr * jval).

Fixpoint dict_get (k : pystr) (d : pydict) : option jval :=
  match d with
  | [] => None
  | (k', v) :: d' => if pystr_eqb k k' then Some v else dict_get k d'
  end.

(** [d[k] = v]: overwrite in place, or append a new key. *)
Fixpoint dict_set (k : pystr) (v : jval) (d : pydict) : pydict :=
  match d with
  | [] => [(k, v)]
  | (k', v') :: d' =>
      if pystr_eqb k k' then (k', v) :: d' else (k', v') :: dict_set k v d'
  end.

(** *** [json.dumps] (default options: [ensure_ascii], separators [", "]
    and [": "]) *)

Definition hex_digit (d : N) : N := if d <? 10 then 48 + d else 87 + d.

Definition hex4 (n : N) : pystr :=
  [hex_digit ((n / 4096) mod 16); hex_digit ((n / 256) mod 16);
   hex_digit ((n / 16) mod 16); hex_digit (n mod 16)].

Definition u_escape (n : N) : pystr := 92 :: 117 :: hex4 n.

Definition escape_char (c : N) : pystr :=
  if c =? 34 then [92; 34]
  else if c =? 92 then [92; 92]
  else if c =? 10 then [92; 110]
  else if c =? 13 then [92; 114]
  else if c =? 9 then [92; 116]
  else if c =? 12 then [92; 102]
  else if c =? 8 then [92; 98]
  else if (32 <=? c) && (c <=? 126) then [c]
  else if c <? 65536 then u_escape c
  else
    let n := c - 65536 in
    u_escape (N.lor 55296 (N.land (N.shiftr n 10) 1023))
      ++ u_escape (N.lor 56320 (N.land n 1023)).

Definition json_string (s : pystr) : pystr :=
  34 :: flat_map escape_char s ++ [34].

Definition int_repr (z : Z) : pystr :=
  (if (z <? 0)%Z then [45] else []) ++ uint_chars (N.to_uint (Z.abs_N z)).

Definition json_value (v : jval) : pystr :=
  match v with
  | JNull => py "null"
  | JBool true => py "true"
  | JBool false => py "false"
  | JInt z => int_repr z
  | JFloat x => float_repr x
  | JStr s => json_string s
  end.

Definition json_member (kv : pystr * jval) : pystr :=
  json_string (fst kv) ++ py ": " ++ json_value (snd kv).

Fixpoint json_members (d : pydict) : pystr :=
  match d with
  | [] => []
  | [kv] => json_member kv
  | kv :: d' => json_member kv ++ py ", " ++ json_members d'
  end.

Definition json_dumps (d : pydict) : pystr := [123] ++ json_members d ++ [125].

(** *** [json.loads] on a flat object of scalars

    Nested arrays and objects, and numbers in exponent notation, are outside
    this model: the parser answers [None] on them. *)

Definition is_ws (c : N) : bool :=
  (c =? 32) || (c =? 9) || (c =? 10) || (c =? 13).

Fixpoint skip_ws (s : pystr) : pystr :=
  match s with
  | c :: s' => if is_ws c then skip_ws s' else s
  | [] => []
  end.

Definition hex_value (c : N) : option N :=
  if (48 <=? c) && (c <=? 57) then Some (c - 48)
  else if (97 <=? c) && (c <=? 102) then Some (c - 87)
  else if (65 <=? c) && (c <=? 70) then Some (c - 55)
  else None.

Definition decode_hex4 (a b c d : N) : option N :=
  match hex_value a, hex_value b, hex_value c, hex_value d with
  | Some x, Some y, Some z, Some w => Some (x * 4096 + y * 256 + z * 16 + w)
  | _, _, _, _ => None
  end.

Definition simple_escape (c : N) : option N :=
  if c =? 34 then Some 34
  else if c =? 92 then Some 92
  else if c =? 47 then Some 47
  else if c =? 98 then Some 8
  else if c =? 102 then Some 12
  else if c =? 110 then Some 10
  else if c =? 114 then Some 13
  else if c =? 116 then Some 9
  else None.

Definition is_high_surrogate (u : N) : bool := (55296 <=? u) && (u <=? 56319).
Definition is_low_surrogate (u : N) : bool := (56320 <=? u) && (u <=? 57343).

Definition cons_char (c : N) (r : option (pystr * pystr)) : option (pystr * pystr) :=
  match r with
  | Some (t, rest) => Some (c :: t, rest)
  | None => None
  end.

(** The body of a string after its opening quote, up to and including the
    closing quote (strict mode: raw control characters are refused). *)
Fixpoint scan_string (s : pystr) : option (pystr * pystr) :=
  match s with
  | [] => None
  | c :: s1 =>
      if c =? 34 then Some ([], s1)
      else if c =? 92 then
        match s1 with
        | [] => None
        | e :: s2 =>
            if e =? 117 then
              match s2 with
              | a :: b :: c' :: d :: s3 =>
                  match decode_hex4 a b c' d with
                  | None => None
                  | Some u =>
                      if is_high_surrogate u then
                        match s3 with
                        | b1 :: b2 :: a' :: b' :: c'' :: d' :: s4 =>
                            if (b1 =? 92) && (b2 =? 117) then
                              match decode_hex4 a' b' c'' d' with
                              | None => None
                              | Some u2 =>
                                  if is_low_surrogate u2 then
                                    cons_char
                                      (65536 + N.lor (N.shiftl (u - 55296) 10) (u2 - 56320))
                                      (scan_string s4)
                                  else cons_char u (scan_string s3)
                              end
                            else cons_char u (scan_string s3)
                        | _ => cons_char u (scan_string s3)
                        end
                      else cons_char u (scan_string s3)
                  end
              | _ => None
              end
            else
              match simple_escape e with
              | Some x => cons_char x (scan_string s2)
              | None => None
              end
        end
      else if c <? 32 then None
      else cons_char c (scan_string s1)
  end.

Definition digit_cons (c : N) : option (Decimal.uint -> Decimal.uint) :=
  if c =? 48 then Some Decimal.D0
  else if c =? 49 then Some Decimal.D1
  else if c =? 50 then Some Decimal.D2
  else if c =? 51 then Some Decimal.D3
  else if c =? 52 then Some Decimal.D4
  else if c =? 53 then Some Decimal.D5
  else if c =? 54 then Some Decimal.D6
  else if c =? 55 then Some Decimal.D7
  else if c =? 56 then Some Decimal.D8
  else if c =? 57 then Some Decimal.D9
  else None.

(** The longest prefix of digits, and what follows it. *)
Fixpoint scan_digits (s : pystr) : Decimal.uint * pystr :=
  match s with
  | [] => (Decimal.Nil, [])
  | c :: s' =>
      match digit_cons c with
      | Some mk => let (u, r) := scan_digits s' in (mk u, r)
      | None => (Decimal.Nil, s)
      end
  end.

Definition starts_with_exponent (s : pystr) : bool :=
  match s with
  | c :: _ => (c =? 101) || (c =? 69)
  | [] => false
  end.

Definition split_sign (s : pystr) : bool * pystr :=
  match s with
  | [] => (false, [])
  | c :: s' => if c =? 45 then (true, s') else (false, s)
  end.

Definition is_nil (u : Decimal.uint) : bool :=
  match u with
  | Decimal.Nil => true
  | _ => false
  end.

(** A number: an optional minus sign, an integer part that is either a
    single zero or starts with a non-zero digit, and an optional fraction
    of at least one digit; an integer part with a superfluous leading zero
    leaves digits behind and is refused here. *)
Definition scan_unsigned (neg : bool) (s1 : pystr) : option (jval * pystr) :=
  let (u, s2) := scan_digits s1 in
  if is_nil u || negb (Decimal.uint_beq (Decimal.unorm u) u) then None
  else
    match s2 with
    | c :: s3 =>
        if c =? 46 then
          let (f, s4) := scan_digits s3 in
          if is_nil f || starts_with_exponent s4 then None
          else Some (JFloat (mk_pyfloat neg (N.of_uint u) f), s4)
        else if starts_with_exponent s2 then None
        else Some (JInt (if neg then Z.opp (Z.of_N (N.of_uint u))
                         else Z.of_N (N.of_uint u)), s2)
    | [] => Some (JInt (if neg then Z.opp (Z.of_N (N.of_uint u))
                        else Z.of_N (N.of_uint u)), [])
    end.

Definition scan_number (s : pystr) : option (jval * pystr) :=
  let (neg, s1) := split_sign s in scan_unsigned neg s1.

(** [s] without the prefix [lit], when it starts with it. *)
Fixpoint strip_prefix (lit s : pystr) : option pystr :=
  match lit, s with
  | [], _ => Some s
  | a :: lit', b :: s' => if a =? b then strip_prefix lit' s' else None
  | _ :: _, [] => None
  end.

Definition literal (v : jval) (lit s : pystr) : option (jval * pystr) :=
  match strip_prefix lit s with
  | Some r => Some (v, r)
  | None => None
  end.

Definition scan_value (s : pystr) : option (jval * pystr) :=
  match s with
  | [] => None
  | c :: s' =>
      if c =? 34 then
        match scan_string s' with
        | Some (t, r) => Some (JStr t, r)
        | None => None
        end
      else if c =? 116 then literal (JBool true) (py "true") s
      else if c =? 102 then literal (JBool false) (py "false") s
      else if c =? 110 then literal JNull (py "null") s
      else scan_number s
  end.

(** The members of an object, from the opening quote of a key to the
    closing brace; a repeated key keeps its place and takes the last
    value, as [dict] does. *)
Fixpoint scan_members (fuel : nat) (s : pystr) (acc : pydict) : option (pydict * pystr) :=
  match fuel with
  | O => None
  | S fuel' =>
      match s with
      | 34 :: s1 =>
          match scan_string s1 with
          | None => None
          | Some (k, s2) =>
              match skip_ws s2 with
              | 58 :: s3 =>
                  match scan_value (skip_ws s3) with
                  | None => None
                  | Some (v, s4) =>
                      match skip_ws s4 with
                      | 125 :: s5 => Some (dict_set k v acc, s5)
                      | 44 :: s5 => scan_members fuel' (skip_ws s5) (dict_set k v acc)
                      | _ => None
                      end
                  end
              | _ => None
              end
          end
      | _ => None
      end
  end.

Definition json_loads (s : pystr) : option pydict :=
  match skip_ws s with
  | 123 :: s1 =>
      match skip_ws s1 with
      | 125 :: s2 =>
          match skip_ws s2 with
          | [] => Some []
          | _ => None
          end
      | s1' =>
          match scan_members (List.length s) s1' [] with
          | Some (d, s2) =>
              match skip_ws s2 with
              | [] => Some d
              | _ => None
              end
          | None => None
          end
      end
  | _ => None
  end.

(** ** Configuration *)

Definition TEAM_ID : pystr := py "dragonfly".
Definition TOPIC_MOVEMENT : pystr := py "vision/" ++ TEAM_ID ++ py "/movement".
Definition TOPIC_HEARTBEAT : pystr := py "vision/" ++ TEAM_ID ++ py "/heartbeat".

(** ** Camera acquisition *)

(** A capture object remembers the device it was opened on. *)
Record VideoCapture := { device : Z }.

Inductive RuntimeError := Failed_to_open_camera (tried : list Z).

Section Camera.

(** Which devices of the machine open: [cv2.VideoCapture(i).isOpened()]. *)
Variable opens : Z -> bool.

Definition isOpened (cap : VideoCapture) : bool := opens (device cap).

(** The [for idx in indices] loop; [None] when it runs to its end. *)
Fixpoint open_loop (indices : list Z) : option VideoCapture :=
  match indices with
  | [] => None
  | idx :: rest =>
      let cap := {| device := 0 |} in
      if isOpened cap then Some cap else open_loop rest
  end.

Definition _open_any_camera (indices : list Z) : VideoCapture + RuntimeError :=
  match open_loop indices with
  | Some cap => inl cap
  | None => inr (Failed_to_open_camera indices)
  end.

(** What the docstring and the caller's comment describe: each index of
    the list is probed in turn. *)
Fixpoint first_opening (indices : list Z) : option VideoCapture :=
  match indices with
  | [] => None
  | idx :: rest =>
      let cap := {| device := idx |} in
      if isOpened cap then Some cap else first_opening rest
  end.

End Camera.

Definition default_indices : list Z := [0; 1; 2; 3]%Z.

(** ** Frames, faces and statuses *)

(** Modelled from the spec: [LockState] is declared in [src/face_locking.py],
    which is not among the source files; the spec gives it the two phases
    the loop tests for. *)
Inductive LockState := SEARCHING | LOCKED.

Inductive Status := NO_FACE | MOVE_LEFT | MOVE_RIGHT | CENTERED.

Definition status_str (s : Status) : pystr :=
  match s with
  | NO_FACE => py "NO_FACE"
  | MOVE_LEFT => py "MOVE_LEFT"
  | MOVE_RIGHT => py "MOVE_RIGHT"
  | CENTERED => py "CENTERED"
  end.

Definition is_NO_FACE (s : Status) : bool :=
  match s with
  | NO_FACE => true
  | _ => false
  end.

(** The exact value of a finite double; [0] for an infinity or a NaN,
    which have none. *)
Definition F2Q (x : PrimFloat.float) : Q :=
  match Prim2SF x with
  | S754_finite s m e =>
      let q := match e with
               | Z0 => (Zpos m # 1)%Q
               | Zpos k => (Zpos (Pos.shiftl m (Npos k)) # 1)%Q
               | Zneg k => (Zpos m # Pos.shiftl 1 (Npos k))%Q
               end in
      if s then Qopp q else q
  | _ => 0%Q
  end.

Coercion F2Q : PrimFloat.float >-> Q.

(** The double nearest to an integer: what [x / W] makes of the [int]
    [W]. It is [W] itself below [2^53]. *)
Definition float_of_int (z : Z) : PrimFloat.float :=
  SF2Prim (binary_normalize prec emax z 0 false).

(** The box of the tracked face, in pixels of the frame: the attributes
    [x1], [y1], [x2], [y2] the loop reads. The class of the face object
    is declared outside the source files; its attributes are taken to be
    Python floats, the numbers [int(f.x1)] and [(f.x1 + f.x2) / 2.0] are
    written for. A box of whole
    pixels is the box of the doubles of these integers. *)
Record Face := {
  x1 : PrimFloat.float;
  y1 : PrimFloat.float;
  x2 : PrimFloat.float;
  y2 : PrimFloat.float
}.

Definition Pixel := (byte * byte * byte)%type.

(** A captured frame; [frame.shape[:2]] is [(H, W)], never zero for a frame
    the camera delivered. *)
Record Frame := { H : positive; W : positive; px : Z -> Z -> Pixel }.

(** [frame[r0:r1, c0:c1]]: a view on the frame's buffer. *)
Record View := { base : Frame; r0 : Z; r1 : Z; c0 : Z; c1 : Z }.

(** [int(x)] of a real: truncation towards zero. *)
Definition py_int (q : Q) : Z := Z.quot (Qnum q) (Zpos (Qden q)).

Definition Qlt_bool (a b : Q) : bool := negb (Qle_bool b a).

(** ** The node *)

Record VisionNode := {
  target_name : pystr;
  last_heartbeat : Q;
  last_publish_time : Q;
  mqtt_topic : pystr;
  snapshot_sent : bool;
  last_status : Status
}.

(** The fields [__init__] sets. *)
Definition init (name : pystr) : VisionNode :=
  {| target_name := name;
     last_heartbeat := 0;
     last_publish_time := 0;
     mqtt_topic := TOPIC_MOVEMENT;
     snapshot_sent := false;
     last_status := CENTERED |}.

Definition set_snapshot_sent (b : bool) (n : VisionNode) : VisionNode :=
  {| target_name := target_name n; last_heartbeat := last_heartbeat n;
     last_publish_time := last_publish_time n; mqtt_topic := mqtt_topic n;
     snapshot_sent := b; last_status := last_status n |}.

Definition set_last_status (s : Status) (n : VisionNode) : VisionNode :=
  {| target_name := target_name n; last_heartbeat := last_heartbeat n;
     last_publish_time := last_publish_time n; mqtt_topic := mqtt_topic n;
     snapshot_sent := snapshot_sent n; last_status := s |}.

Definition set_last_publish_time (t : Q) (n : VisionNode) : VisionNode :=
  {| target_name := target_name n; last_heartbeat := last_heartbeat n;
     last_publish_time := t; mqtt_topic := mqtt_topic n;
     snapshot_sent := snapshot_sent n; last_status := last_status n |}.

Definition set_last_heartbeat (t : Q) (n : VisionNode) : VisionNode :=
  {| target_name := target_name n; last_heartbeat := t;
     last_publish_time := last_publish_time n; mqtt_topic := mqtt_topic n;
     snapshot_sent := snapshot_sent n; last_status := last_status n |}.

(** What one iteration of the loop receives: the mirrored frame, the
    answer of [FaceLockSystem.process_frame], and the clock readings in
    the order the iteration takes them. *)
Record Tick := {
  frame : Frame;
  target_face : option Face;
  lock_state : LockState;
  current_time : Q;
  movement_stamp : pyfloat;
  heartbeat_check : Q;
  heartbeat_stamp : pyfloat;
  heartbeat_set : Q
}.

(** A call of [client.publish]: the topic and the dictionary whose
    [json.dumps] is the payload. *)
Record Published := { topic : pystr; payload : pydict }.

Definition wire (p : Published) : pystr := json_dumps (payload p).

(** What one iteration did: the values of its locals [status] and
    [face_crop], and its calls of [client.publish], the movement first. *)
Record FrameLog := {
  fl_status : Status;
  fl_crop : option View;
  fl_movement : option Published;
  fl_heartbeat : option Published
}.

Definition published (l : FrameLog) : list Published :=
  match fl_movement l with Some p => [p] | None => [] end
    ++ match fl_heartbeat l with Some p => [p] | None => [] end.

Definition count_some {A} (f : FrameLog -> option A) (logs : list FrameLog) : nat :=
  List.length (filter (fun l => match f l with Some _ => true | None => false end) logs).

Definition one_point_zero : pyfloat := mk_pyfloat false 1 Decimal.Nil.

Definition opt_str (s : option pystr) : jval :=
  match s with
  | Some t => JStr t
  | None => JNull
  end.

(** *** The decision of one frame *)

(** [cx = (f.x1 + f.x2) / 2.0] and [cx_norm = cx / W], in binary64: the
    sum and the second quotient round. *)
Definition cx_norm (f : Face) (w : positive) : PrimFloat.float :=
  ((x1 f + x2 f) / 2 / float_of_int (Zpos w))%float.

(** The two tests of the deadband, on doubles; [0.4] and [0.6] are the
    doubles nearest to the decimals. A NaN passes neither test. *)
Definition deadband (c : PrimFloat.float) : Status :=
  if (c <? 0.4)%float then MOVE_LEFT
  else if (0.6 <? c)%float then MOVE_RIGHT
  else CENTERED.

Definition Status_eqb (a b : Status) : bool :=
  match a, b with
  | NO_FACE, NO_FACE | MOVE_LEFT, MOVE_LEFT
  | MOVE_RIGHT, MOVE_RIGHT | CENTERED, CENTERED => true
  | _, _ => false
  end.

(** Modelled from the spec: the deadband read on the exact quotient
    [((x1 + x2) / 2) / frameWidth] and the exact decimals. This is not what
    the loop computes; it is compared with [deadband] below. *)
Definition cx_norm_exact (f : Face) (w : positive) : Q :=
  ((x1 f + x2 f) / 2) / inject_Z (Zpos w).

Definition deadband_exact (c : Q) : Status :=
  if Qlt_bool c (2 # 5) then MOVE_LEFT
  else if Qlt_bool (3 # 5) c then MOVE_RIGHT
  else CENTERED.

Definition pad : Z := 20.

(** The crop of lines 153 to 160, for a box whose coordinates are finite
    ([int] raises on the others, see [Exc.face_crop]). *)
Definition face_crop_of (fr : Frame) (f : Face) : View :=
  let x1 := Z.max 0 (py_int (x1 f) - pad) in
  let y1 := Z.max 0 (py_int (y1 f) - pad) in
  let x2 := Z.min (Zpos (W fr)) (py_int (x2 f) + pad) in
  let y2 := Z.min (Zpos (H fr)) (py_int (y2 f) + pad) in
  {| base := fr; r0 := y1; r1 := y2; c0 := x1; c1 := x2 |}.

(** The body of the loop from [status = "NO_FACE"] to the end of the
    [if lock_state ...] statement: the status, the crop, the node, when
    [int] returns ([Exc.decide] has the case that it raises). *)
Definition decide (self : VisionNode) (tk : Tick) : Status * option View * VisionNode :=
  match lock_state tk with
  | SEARCHING =>
      (NO_FACE, None,
       if snapshot_sent self then set_snapshot_sent false self else self)
  | LOCKED =>
      match target_face tk with
      | Some f =>
          let '(face_crop, self) :=
            if negb (snapshot_sent self)
            then (Some (face_crop_of (frame tk) f), set_snapshot_sent true self)
            else (None, self) in
          let status := deadband (cx_norm f (W (frame tk))) in
          (status, face_crop, set_last_status status self)
      | None =>
          (if is_NO_FACE (last_status self) then CENTERED else last_status self,
           None, self)
      end
  end.

Definition movement_due (self : VisionNode) (now : Q) : bool :=
  Qle_bool (1 # 10) (now - last_publish_time self).

Definition heartbeat_due (self : VisionNode) (now : Q) : bool :=
  Qlt_bool 5 (now - last_heartbeat self).

Definition publish_heartbeat (now : pyfloat) : Published :=
  {| topic := TOPIC_HEARTBEAT;
     payload := [(py "node", JStr (py "pc_vision"));
                 (py "status", JStr (py "ONLINE"));
                 (py "timestamp", JFloat now)] |}.

Section Node.

(** [cv2.imencode('.jpg', image, [cv2.IMWRITE_JPEG_QUALITY, 70])]: the
    bytes of the compressed image, for an image that has pixels. On an
    empty image the call raises; that case is [Exc.imencode_jpg]. *)
Variable imencode : View -> list byte.

(** [publish_movement] when the encoder returns. *)
Definition publish_movement (self : VisionNode) (status : pystr)
    (confidence : pyfloat) (target : option pystr) (locked : bool)
    (face_image : option View) (now : pyfloat) : Published :=
  let payload :=
    [(py "status", JStr status);
     (py "confidence", JFloat confidence);
     (py "target", opt_str target);
     (py "locked", JBool locked);
     (py "timestamp", JFloat now)] in
  let payload :=
    match face_image with
    | Some img => dict_set (py "face_image") (JStr (b64encode (imencode img))) payload
    | None => payload
    end in
  {| topic := mqtt_topic self; payload := payload |}.

Definition on_connect (self : VisionNode) (now : pyfloat)
  : list Published * VisionNode :=
  ([publish_heartbeat now], self).

(** One iteration of the [while] loop of [run] in which no call raises;
    [Exc.run_frame] is the iteration with its exceptions, and
    [Exc_run_frame_cases] says on which frames it raises and that it does
    what [run_frame] does on all others. *)
Definition run_frame (self : VisionNode) (tk : Tick) : FrameLog * VisionNode :=
  let '(status, face_crop, self) := decide self tk in
  let '(moved, self) :=
    if movement_due self (current_time tk) then
      let is_locked := negb (is_NO_FACE status) in
      (Some (publish_movement self (status_str status) one_point_zero
               (Some (target_name self)) is_locked face_crop (movement_stamp tk)),
       set_last_publish_time (current_time tk) self)
    else (None, self) in
  let '(beat, self) :=
    if heartbeat_due self (heartbeat_check tk) then
      (Some (publish_heartbeat (heartbeat_stamp tk)),
       set_last_heartbeat (heartbeat_set tk) self)
    else (None, self) in
  ({| fl_status := status; fl_crop := face_crop;
      fl_movement := moved; fl_heartbeat := beat |}, self).

Fixpoint run (self : VisionNode) (ticks : list Tick) : list FrameLog * VisionNode :=
  match ticks with
  | [] => ([], self)
  | tk :: rest =>
      let '(log, self) := run_frame self tk in
      let '(logs, self) := run self rest in
      (log :: logs, self)
  end.

End Node.

(** *** What the decoder is proved on *)

(** What may follow a value inside an object: a comma or the closing
    brace. *)
Definition ends_value (s : pystr) : Prop :=
  exists r, s = 44 :: r \/ s = 125 :: r.

(** A float as [json.loads] reads it back: the fraction [.0] of an
    integral value is kept as the digit it was printed with. *)
Definition as_read (v : jval) : jval :=
  match v with
  | JFloat x => JFloat (mk_pyfloat (f_neg x) (f_int x) (frac_digits (f_frac x)))
  | _ => v
  end.

Definition text_ok (v : jval) : Prop :=
  match v with
  | JStr s => no_high_surrogates s
  | _ => True
  end.

Definition dict_ok (d : pydict) : Prop :=
  Forall (fun kv => no_high_surrogates (fst kv) /\ text_ok (snd kv)) d.

(** The dictionary [json.loads] builds from the members of [d], in their
    order. *)
Definition read_back (d : pydict) : pydict :=
  fold_left (fun acc kv => dict_set (fst kv) (as_read (snd kv)) acc) d [].

(** *** Episodes *)

Definition is_locked (tk : Tick) : bool :=
  match lock_state tk with
  | LOCKED => true
  | SEARCHING => false
  end.

Definition visible (tk : Tick) : bool :=
  match target_face tk with
  | Some _ => true
  | None => false
  end.

(** The part of a log that belongs to the frames [episode] of
    [before ++ episode ++ after]. *)
Definition slice {A} (before episode : list Tick) (logs : list A) : list A :=
  firstn (List.length episode) (skipn (List.length before) logs).

(** *** Sample inputs *)

Definition blank_frame : Frame :=
  {| H := 480; W := 640; px := fun _ _ => (x00, x00, x00) |}.

(** A face box centred on column [cx]. *)
Definition face_at (cx : PrimFloat.float) : Face :=
  {| x1 := cx - 50; y1 := 100; x2 := cx + 50; y2 := 200 |}.

Definition stamp_of (seconds : N) : pyfloat := mk_pyfloat false seconds Decimal.Nil.

(** A frame all of whose clock readings are [t]. *)
Definition tick_at (ls : LockState) (tf : option Face) (t : Q) (seconds : N) : Tick :=
  {| frame := blank_frame; target_face := tf; lock_state := ls;
     current_time := t; movement_stamp := stamp_of seconds;
     heartbeat_check := t; heartbeat_stamp := stamp_of seconds;
     heartbeat_set := t |}.

(** An encoder that answers the two JPEG markers and nothing between. *)
Definition markers_only (v : View) : list byte := [xff; xd8; xff; xd9].

(** Twenty frames, 10 ms apart, the first at [t0]: a window of 200 ms. *)
Definition window_ticks (t0 : Q) : list Tick :=
  map (fun k => tick_at LOCKED None (t0 + inject_Z (Z.of_nat k) * (1 # 100)) 0)
      (seq 0 20).

(** The node after its first frame, a SEARCHING frame at 1000 s: it has
    published and [last_publish_time] is 1000. *)
Definition node_after_first_frame : VisionNode :=
  snd (run_frame markers_only (init (py "andrew")) (tick_at SEARCHING None 1000 1000)).

(** ** The frame loop and its exits *)

(** What [cap.read()] and, after a frame was processed, [cv2.waitKey(1)]
    answer in one turn of the loop. *)
Inductive CamRead :=
| ReadFailed
| ReadOk (tk : Tick) (key : Z).

Definition ord_q : Z := 113.

(** [cv2.waitKey(1) & 0xFF == ord('q')]; in Python [&] binds tighter than
    [==]. *)
Definition quit_pressed (key : Z) : bool := (Z.land key 255 =? ord_q)%Z.

Section Loop.

Variable imencode : View -> list byte.

(** The [while self.running] loop of [run]; [self.running] is set once, to
    [True], so the loop ends on a failed read or on the quit key. *)
Fixpoint run_loop (self : VisionNode) (reads : list CamRead)
  : list FrameLog * VisionNode :=
  match reads with
  | [] => ([], self)
  | ReadFailed :: _ => ([], self)
  | ReadOk tk key :: rest =>
      let '(log, self) := run_frame imencode self tk in
      if quit_pressed key then ([log], self)
      else
        let '(logs, self) := run_loop self rest in
        (log :: logs, self)
  end.

End Loop.

(** The frames the loop gets to process: those before the first failed
    read, up to and including the first frame on which the quit key is
    down. *)
Fixpoint processed (reads : list CamRead) : list Tick :=
  match reads with
  | [] => []
  | ReadFailed :: _ => []
  | ReadOk tk key :: rest =>
      if quit_pressed key then [tk] else tk :: processed rest
  end.

(** Successful reads, each with the key code that followed it. *)
Definition reads_of (frames : list (Tick * Z)) : list CamRead :=
  map (fun tkk => ReadOk (fst tkk) (snd tkk)) frames.

(** Frames that come at least 0.1 s after the publish before them, the
    first one after [last]. *)
Fixpoint slow_from (last : Q) (ticks : list Tick) : Prop :=
  match ticks with
  | [] => True
  | tk :: rest =>
      (1 # 10 <= current_time tk - last)%Q /\ slow_from (current_time tk) rest
  end.

(** ** The loop with the exceptions of its calls *)

(** The index a bound of a Python slice stands for on an axis of length
    [n]: a negative bound counts from the end, and the result is clipped
    to the axis. *)
Definition slice_index (n i : Z) : Z :=
  if (i <? 0)%Z then Z.max 0 (i + n) else Z.min i n.

(** The number of indices [start:stop] selects on an axis of length [n]. *)
Definition slice_length (n start stop : Z) : Z :=
  Z.max 0 (slice_index n stop - slice_index n start).

Definition view_rows (v : View) : Z :=
  slice_length (Zpos (H (base v))) (r0 v) (r1 v).

Definition view_cols (v : View) : Z :=
  slice_length (Zpos (W (base v))) (c0 v) (c1 v).

(** An image without pixels: what OpenCV calls [empty()]. *)
Definition view_empty (v : View) : bool :=
  ((view_rows v =? 0) || (view_cols v =? 0))%Z.

(** A box all of whose coordinates [int] accepts. *)
Definition finite_box (f : Face) : bool :=
  PrimFloat.is_finite (x1 f) && PrimFloat.is_finite (y1 f)
  && PrimFloat.is_finite (x2 f) && PrimFloat.is_finite (y2 f).

(** A box that can be cropped and whose crop can be encoded: finite, with
    a crop that has pixels. *)
Definition encodable (fr : Frame) (f : Face) : bool :=
  finite_box f && negb (view_empty (face_crop_of fr f)).

(** A frame whose face box, when the frame is LOCKED and has one, is
    encodable. *)
Definition croppable (tk : Tick) : bool :=
  match lock_state tk, target_face tk with
  | LOCKED, Some f => encodable (frame tk) f
  | _, _ => true
  end.

(** The face a frame takes its snapshot of: the frame is LOCKED, shows the
    target, and no snapshot was made yet in the episode. *)
Definition cropped_face (self : VisionNode) (tk : Tick) : option Face :=
  match lock_state tk with
  | LOCKED => if snapshot_sent self then None else target_face tk
  | SEARCHING => None
  end.

Module Exc.

(** The exceptions the calls of the loop raise: [int] of a NaN, [int] of
    an infinity, [cv2.imencode] of an empty image. *)
Inductive PyError := ValueError | OverflowError | cv2_error.

Inductive Outcome (A : Type) :=
| Returns (a : A)
| Raises (e : PyError).

Arguments Returns {A} a.
Arguments Raises {A} e.

Definition bind {A B : Type} (o : Outcome A) (k : A -> Outcome B) : Outcome B :=
  match o with
  | Returns a => k a
  | Raises e => Raises e
  end.

Notation "x <- o ;; k" := (bind o (fun x => k))
  (at level 61, o at next level, right associativity).

(** [int(x)] of a float. *)
Definition int (x : PrimFloat.float) : Outcome Z :=
  if PrimFloat.is_nan x then Raises ValueError
  else if PrimFloat.is_infinity x then Raises OverflowError
  else Returns (py_int x).

(** Lines 153 to 160: the four casts, left to right, then the padded and
    clamped slice. *)
Definition face_crop (fr : Frame) (f : Face) : Outcome View :=
  x1 <- int (x1 f) ;;
  y1 <- int (y1 f) ;;
  x2 <- int (x2 f) ;;
  y2 <- int (y2 f) ;;
  let x1 := Z.max 0 (x1 - pad) in
  let y1 := Z.max 0 (y1 - pad) in
  let x2 := Z.min (Zpos (W fr)) (x2 + pad) in
  let y2 := Z.min (Zpos (H fr)) (y2 + pad) in
  Returns {| base := fr; r0 := y1; r1 := y2; c0 := x1; c1 := x2 |}.

(** The body of the loop from [status = "NO_FACE"] to the end of the
    [if lock_state ...] statement. *)
Definition decide (self : VisionNode) (tk : Tick)
  : Outcome (Status * option View * VisionNode) :=
  match lock_state tk with
  | SEARCHING =>
      Returns (NO_FACE, None,
               if snapshot_sent self then set_snapshot_sent false self else self)
  | LOCKED =>
      match target_face tk with
      | Some f =>
          cs <- (if negb (snapshot_sent self)
                 then crop <- face_crop (frame tk) f ;;
                      Returns (Some crop, set_snapshot_sent true self)
                 else Returns (None, self)) ;;
          let status := deadband (cx_norm f (W (frame tk))) in
          Returns (status, fst cs, set_last_status status (snd cs))
      | None =>
          Returns (if is_NO_FACE (last_status self) then CENTERED else last_status self,
                   None, self)
      end
  end.

Section Node.

Variable imencode : View -> list byte.

(** [cv2.imencode('.jpg', image, ...)]: an assertion of OpenCV fails on an
    image without pixels. *)
Definition imencode_jpg (img : View) : Outcome (list byte) :=
  if view_empty img then Raises cv2_error else Returns (imencode img).

Definition publish_movement (self : VisionNode) (status : pystr)
    (confidence : pyfloat) (target : option pystr) (locked : bool)
    (face_image : option View) (now : pyfloat) : Outcome Published :=
  let payload :=
    [(py "status", JStr status);
     (py "confidence", JFloat confidence);
     (py "target", opt_str target);
     (py "locked", JBool locked);
     (py "timestamp", JFloat now)] in
  payload <- match face_image with
             | Some img =>
                 buffer <- imencode_jpg img ;;
                 Returns (dict_set (py "face_image") (JStr (b64encode buffer)) payload)
             | None => Returns payload
             end ;;
  Returns {| topic := mqtt_topic self; payload := payload |}.

(** One iteration of the [while] loop of [run]. An exception leaves the
    iteration, and [run], at once: what the iteration had assigned to the
    node is left behind and nothing of this frame is published, since
    both calls that raise come before the first [client.publish]. *)
Definition run_frame (self : VisionNode) (tk : Tick) : Outcome (FrameLog * VisionNode) :=
  d <- decide self tk ;;
  let '(status, face_crop, self) := d in
  ms <- (if movement_due self (current_time tk) then
           let is_locked := negb (is_NO_FACE status) in
           p <- publish_movement self (status_str status) one_point_zero
                  (Some (target_name self)) is_locked face_crop (movement_stamp tk) ;;
           Returns (Some p, set_last_publish_time (current_time tk) self)
         else Returns (None, self)) ;;
  let '(moved, self) := ms in
  let '(beat, self) :=
    if heartbeat_due self (heartbeat_check tk) then
      (Some (publish_heartbeat (heartbeat_stamp tk)),
       set_last_heartbeat (heartbeat_set tk) self)
    else (None, self) in
  Returns ({| fl_status := status; fl_crop := face_crop;
              fl_movement := moved; fl_heartbeat := beat |}, self).

(** The loop over the frames the camera delivers: the frames it completed,
    and how it ended. Nothing in [run] catches an exception. *)
Fixpoint run (self : VisionNode) (ticks : list Tick)
  : list FrameLog * Outcome VisionNode :=
  match ticks with
  | [] => ([], Returns self)
  | tk :: rest =>
      match run_frame self tk with
      | Raises e => ([], Raises e)
      | Returns (log, self) =>
          let '(logs, ending) := run self rest in
          (log :: logs, ending)
      end
  end.

End Node.

End Exc.

(** ** [src/landmarks.py] *)

Module Landmarks.

Definition IDX_LEFT_EYE : nat := 33.
Definition IDX_RIGHT_EYE : nat := 263.
Definition IDX_NOSE_TIP : nat := 1.
Definition IDX_MOUTH_LEFT : nat := 61.
Definition IDX_MOUTH_RIGHT : nat := 291.

(** A row of the key point array: [(x, y)]. Coordinates are exact
    rationals, as everywhere in this file. *)
Definition Point := (Q * Q)%type.

Definition _approx_5pt_from_haar_box (x y w h : Z) : list Point :=
  let x := inject_Z x in
  let y := inject_Z y in
  let w := inject_Z w in
  let h := inject_Z h in
  [(x + (32 # 100) * w, y + (40 # 100) * h);
   (x + (68 # 100) * w, y + (40 # 100) * h);
   (x + (50 # 100) * w, y + (58 # 100) * h);
   (x + (38 # 100) * w, y + (74 # 100) * h);
   (x + (62 # 100) * w, y + (74 # 100) * h)]%Q.

(** A FaceMesh landmark: [p.x] and [p.y], normalised to the frame. *)
Record Landmark := { lm_x : Q; lm_y : Q }.

Definition idxs : list nat :=
  [IDX_LEFT_EYE; IDX_RIGHT_EYE; IDX_NOSE_TIP; IDX_MOUTH_LEFT; IDX_MOUTH_RIGHT].

(** The [for i in idxs] loop: [None] stands for the [IndexError] of
    [lm[i]]. *)
Fixpoint mesh_points (lm : list Landmark) (W H : positive) (indices : list nat)
  : option (list Point) :=
  match indices with
  | [] => Some []
  | i :: rest =>
      match nth_error lm i with
      | None => None
      | Some p =>
          match mesh_points lm W H rest with
          | None => None
          | Some pts =>
              Some ((lm_x p * inject_Z (Zpos W), lm_y p * inject_Z (Zpos H))%Q :: pts)
          end
      end
  end.

Fixpoint set_row (i : nat) (p : Point) (kps : list Point) : list Point :=
  match kps, i with
  | [], _ => []
  | _ :: rest, O => p :: rest
  | q :: rest, S i' => q :: set_row i' p rest
  end.

(** [if kps[i, 0] > kps[j, 0]: kps[[i, j]] = kps[[j, i]]]; [None] stands
    for the [IndexError] of a missing row. *)
Definition order_rows (i j : nat) (kps : list Point) : option (list Point) :=
  match nth_error kps i, nth_error kps j with
  | Some a, Some b =>
      if Qlt_bool (fst b) (fst a) then Some (set_row j a (set_row i b kps))
      else Some kps
  | _, _ => None
  end.

(** The two tests under [# enforce left/right ordering]. *)
Definition enforce_left_right (kps : list Point) : option (list Point) :=
  match order_rows 0 1 kps with
  | Some kps' => order_rows 3 4 kps'
  | None => None
  end.

Inductive Keypoints :=
| Raised_IndexError
| Kps (kps : option (list Point)).

(** The key points of one frame: [fm] is [None] when FaceMesh is not
    available and otherwise holds [res.multi_face_landmarks] (empty when
    no face was found); [faces] are the Haar boxes [(x, y, w, h)]. *)
Definition frame_keypoints (fm : option (list (list Landmark)))
    (faces : list (Z * Z * Z * Z)) (W H : positive) : Keypoints :=
  let found :=
    match fm with
    | Some multi_face_landmarks =>
        match multi_face_landmarks with
        | lm :: _ =>
            match mesh_points lm W H idxs with
            | Some pts => Kps (Some pts)
            | None => Raised_IndexError
            end
        | [] => Kps None
        end
    | None =>
        match faces with
        | (x, y, w, h) :: _ => Kps (Some (_approx_5pt_from_haar_box x y w h))
        | [] => Kps None
        end
    end in
  match found with
  | Kps (Some kps) =>
      match enforce_left_right kps with
      | Some kps' => Kps (Some kps')
      | None => Raised_IndexError
      end
  | other => other
  end.

(** The circle centres: [kps.astype(int)]. *)
Definition circle_centres (kps : list Point) : list (Z * Z) :=
  map (fun p => (py_int (fst p), py_int (snd p))) kps.

End Landmarks.

(** * Properties *)

Local Open Scope Q_scope.

Lemma Qlt_bool_iff (a b : Q) : Qlt_bool a b = true <-> a < b.
Proof.
  unfold Qlt_bool. rewrite negb_true_iff.
  split; intro Hab.
  - apply Qnot_le_lt. intro Hle. apply Qle_bool_iff in Hle. congruence.
  - destruct (Qle_bool b a) eqn:E; [| reflexivity].
    apply Qle_bool_iff in E. exfalso. exact (Qlt_not_le _ _ Hab E).
Qed.

Lemma Qlt_bool_false_iff (a b : Q) : Qlt_bool a b = false <-> b <= a.
Proof.
  unfold Qlt_bool. rewrite negb_false_iff. apply Qle_bool_iff.
Qed.

(** ** The deadband *)

Lemma deadband_left (c : PrimFloat.float) :
  (c <? 0.4)%float = true -> deadband c = MOVE_LEFT.
Proof. intro Hc. unfold deadband. now rewrite Hc. Qed.

(** In binary64 a value above [0.6] is not below [0.4]: the two tests of
    the deadband cannot both hold, whatever [c] is (a NaN passes
    neither). *)
Lemma above_0_6_not_below_0_4 (c : PrimFloat.float) :
  (0.6 <? c)%float = true -> (c <? 0.4)%float = false.
Proof.
  rewrite !ltb_spec.
  assert (E6 : Prim2SF 0.6%float = S754_finite false 5404319552844595 (-53))
    by (vm_compute; reflexivity).
  assert (E4 : Prim2SF 0.4%float = S754_finite false 7205759403792794 (-54))
    by (vm_compute; reflexivity).
  rewrite E6, E4.
  destruct (Prim2SF c) as [s | s | | s m e]; unfold SFltb, SFcompare.
  - destruct s; discriminate.
  - destruct s; [discriminate | reflexivity].
  - discriminate.
  - destruct s; [discriminate |].
    destruct (Z.compare_spec (-53) e); destruct (Z.compare_spec e (-54));
      try lia; try discriminate; try reflexivity.
Qed.

Lemma deadband_right (c : PrimFloat.float) :
  (0.6 <? c)%float = true -> deadband c = MOVE_RIGHT.
Proof.
  intro Hc. unfold deadband.
  now rewrite (above_0_6_not_below_0_4 c Hc), Hc.
Qed.

Lemma deadband_centered (c : PrimFloat.float) :
  (c <? 0.4)%float = false -> (0.6 <? c)%float = false -> deadband c = CENTERED.
Proof. intros Hlo Hhi. unfold deadband. now rewrite Hlo, Hhi. Qed.

Lemma SFeqb_finite x s m e :
  SFeqb x (S754_finite s m e) = true -> x = S754_finite s m e.
Proof.
  unfold SFeqb, SFcompare.
  destruct x as [s0 | s0 | | s0 m0 e0]; try discriminate.
  - destruct s; discriminate.
  - destruct s0; discriminate.
  - change (Pos.compare_cont Eq m0 m) with (Pos.compare m0 m).
    destruct s0, s; try discriminate;
      destruct (Z.compare_spec e0 e) as [-> | He | He]; try discriminate;
      destruct (Pos.compare_spec m0 m) as [-> | Hm | Hm]; try discriminate;
      reflexivity.
Qed.

(** A double that compares equal to [0.4], or to [0.6], passes neither
    test. *)
Lemma at_0_4_passes_neither (c : PrimFloat.float) :
  (c =? 0.4)%float = true ->
  (c <? 0.4)%float = false /\ (0.6 <? c)%float = false.
Proof.
  rewrite FloatAxioms.eqb_spec, !FloatAxioms.ltb_spec.
  assert (E4 : Prim2SF 0.4%float = S754_finite false 7205759403792794 (-54))
    by (vm_compute; reflexivity).
  rewrite E4. intro Hc. apply SFeqb_finite in Hc. rewrite Hc.
  split; vm_compute; reflexivity.
Qed.

Lemma at_0_6_passes_neither (c : PrimFloat.float) :
  (c =? 0.6)%float = true ->
  (c <? 0.4)%float = false /\ (0.6 <? c)%float = false.
Proof.
  rewrite FloatAxioms.eqb_spec, !FloatAxioms.ltb_spec.
  assert (E6 : Prim2SF 0.6%float = S754_finite false 5404319552844595 (-53))
    by (vm_compute; reflexivity).
  rewrite E6. intro Hc. apply SFeqb_finite in Hc. rewrite Hc.
  split; vm_compute; reflexivity.
Qed.

Lemma deadband_never_NO_FACE (c : PrimFloat.float) : deadband c <> NO_FACE.
Proof.
  unfold deadband.
  destruct (c <? 0.4)%float; [discriminate |].
  destruct (0.6 <? c)%float; discriminate.
Qed.

(** The status is decided on the computed double, not on the exact
    quotient. On the 640 pixel wide frame the two readings agree for every
    box of whole pixels inside the frame (the sum [x1 + x2] runs from 0 to
    1280), the boundaries 256 and 384 included; they part for a box whose
    left edge is the double just below 206: the exact centre is left of
    [0.4], the rounded one is [0.4] and the loop answers CENTERED. *)
Remark deadband_on_the_double :
  forallb (fun k =>
             let f := {| x1 := 0; y1 := 0; x2 := float_of_int (Z.of_nat k); y2 := 0 |} in
             Status_eqb (deadband (cx_norm f 640)) (deadband_exact (cx_norm_exact f 640)))
          (seq 0 1281) = true
  /\ deadband (cx_norm (face_at 256) 640) = CENTERED
  /\ deadband (cx_norm (face_at 384) 640) = CENTERED
  /\ deadband (cx_norm (face_at 255.5) 640) = MOVE_LEFT
  /\ deadband (cx_norm (face_at 384.5) 640) = MOVE_RIGHT
  /\ deadband (cx_norm {| x1 := next_down 206; y1 := 0; x2 := 306; y2 := 0 |} 640)
     = CENTERED
  /\ deadband_exact
       (cx_norm_exact {| x1 := next_down 206; y1 := 0; x2 := 306; y2 := 0 |} 640)
     = MOVE_LEFT.
Proof.
  split; [vm_compute; reflexivity |].
  repeat (split; [vm_compute; reflexivity |]). vm_compute; reflexivity.
Qed.

(** ** What [decide] returns, branch by branch *)

Lemma decide_searching self tk :
  lock_state tk = SEARCHING ->
  decide self tk = (NO_FACE, None, set_snapshot_sent false self).
Proof.
  intro Hs. unfold decide. rewrite Hs.
  destruct self as [tn lh lp mt ss ls]; destruct ss; reflexivity.
Qed.

Lemma decide_visible self tk f :
  lock_state tk = LOCKED -> target_face tk = Some f ->
  decide self tk =
    (deadband (cx_norm f (W (frame tk))),
     if snapshot_sent self then None else Some (face_crop_of (frame tk) f),
     set_last_status (deadband (cx_norm f (W (frame tk)))) (set_snapshot_sent true self)).
Proof.
  intros Hl Hf. unfold decide. rewrite Hl, Hf.
  destruct self as [tn lh lp mt ss ls]; destruct ss; reflexivity.
Qed.

Lemma decide_absent self tk :
  lock_state tk = LOCKED -> target_face tk = None ->
  decide self tk =
    (if is_NO_FACE (last_status self) then CENTERED else last_status self, None, self).
Proof.
  intros Hl Hf. unfold decide. now rewrite Hl, Hf.
Qed.

Section NodeFacts.

Variable imencode : View -> list byte.

(** The timers do not touch the status, the crop or the two episode
    fields. *)
Lemma run_frame_decide self tk :
  fl_status (fst (run_frame imencode self tk)) = fst (fst (decide self tk))
  /\ fl_crop (fst (run_frame imencode self tk)) = snd (fst (decide self tk))
  /\ snapshot_sent (snd (run_frame imencode self tk)) = snapshot_sent (snd (decide self tk))
  /\ last_status (snd (run_frame imencode self tk)) = last_status (snd (decide self tk)).
Proof.
  unfold run_frame.
  destruct (decide self tk) as [[st cr] s1]. cbn [fst snd].
  destruct (movement_due s1 (current_time tk));
    match goal with
    | |- context [heartbeat_due ?s ?t] => destruct (heartbeat_due s t)
    end; cbn; auto.
Qed.

(** C1. In a LOCKED frame with a visible target the status follows from
    the normalised horizontal centre alone, the double the loop computes
    as [(x1 + x2) / 2.0 / W]: MOVE_LEFT when it is below [0.4], MOVE_RIGHT
    when it is above [0.6], CENTERED in every other case, so also when it
    equals [0.4] or [0.6]; the comparisons are those of binary64 and [0.4],
    [0.6] the doubles of these literals. The frame stores that status in
    [last_status]. *)
Theorem locked_visible_status_is_deadband self tk f :
  lock_state tk = LOCKED ->
  target_face tk = Some f ->
  let cxNorm := ((x1 f + x2 f) / 2 / float_of_int (Zpos (W (frame tk))))%float in
  let status := fl_status (fst (run_frame imencode self tk)) in
  ((cxNorm <? 0.4)%float = true -> status = MOVE_LEFT)
  /\ ((0.6 <? cxNorm)%float = true -> status = MOVE_RIGHT)
  /\ ((cxNorm <? 0.4)%float = false -> (0.6 <? cxNorm)%float = false ->
      status = CENTERED)
  /\ ((cxNorm =? 0.4)%float = true -> status = CENTERED)
  /\ ((cxNorm =? 0.6)%float = true -> status = CENTERED)
  /\ last_status (snd (run_frame imencode self tk)) = status.
Proof.
  intros Hl Hf cxNorm status.
  assert (Hst : status = deadband cxNorm).
  { unfold status. destruct (run_frame_decide self tk) as [-> _].
    now rewrite (decide_visible self tk f Hl Hf). }
  assert (Hlast : last_status (snd (run_frame imencode self tk)) = status).
  { unfold status. destruct (run_frame_decide self tk) as (-> & _ & _ & ->).
    now rewrite (decide_visible self tk f Hl Hf). }
  rewrite Hlast, Hst. repeat split.
  - apply deadband_left.
  - apply deadband_right.
  - apply deadband_centered.
  - intro He. destruct (at_0_4_passes_neither cxNorm He). now apply deadband_centered.
  - intro He. destruct (at_0_6_passes_neither cxNorm He). now apply deadband_centered.
Qed.

Lemma decide_keeps_config self tk :
  last_publish_time (snd (decide self tk)) = last_publish_time self
  /\ last_heartbeat (snd (decide self tk)) = last_heartbeat self
  /\ target_name (snd (decide self tk)) = target_name self
  /\ mqtt_topic (snd (decide self tk)) = mqtt_topic self.
Proof.
  unfold decide.
  destruct self as [tn lh lp mt ss ls], (lock_state tk), (target_face tk), ss;
    cbn; auto.
Qed.

Lemma movement_due_decide self tk t :
  movement_due (snd (decide self tk)) t = movement_due self t.
Proof.
  unfold movement_due.
  destruct (decide_keeps_config self tk) as [-> _]. reflexivity.
Qed.

Lemma heartbeat_due_decide self tk t :
  heartbeat_due (snd (decide self tk)) t = heartbeat_due self t.
Proof.
  unfold heartbeat_due.
  destruct (decide_keeps_config self tk) as (_ & -> & _). reflexivity.
Qed.

(** The movement gate of one frame. *)
Lemma run_frame_movement self tk :
  fl_movement (fst (run_frame imencode self tk)) =
    if movement_due self (current_time tk) then
      Some (publish_movement imencode (snd (decide self tk))
              (status_str (fst (fst (decide self tk)))) one_point_zero
              (Some (target_name self))
              (negb (is_NO_FACE (fst (fst (decide self tk)))))
              (snd (fst (decide self tk))) (movement_stamp tk))
    else None.
Proof.
  rewrite <- (movement_due_decide self tk).
  destruct (decide_keeps_config self tk) as (_ & _ & Htn & _).
  rewrite <- Htn. clear Htn.
  unfold run_frame.
  destruct (decide self tk) as [[st cr] s1]. cbn [fst snd].
  destruct (movement_due s1 (current_time tk));
    match goal with
    | |- context [heartbeat_due ?s ?t] => destruct (heartbeat_due s t)
    end; reflexivity.
Qed.

Lemma run_frame_last_publish_time self tk :
  last_publish_time (snd (run_frame imencode self tk)) =
    if movement_due self (current_time tk) then current_time tk
    else last_publish_time self.
Proof.
  rewrite <- (movement_due_decide self tk).
  destruct (decide_keeps_config self tk) as (Hlp & _).
  rewrite <- Hlp. clear Hlp.
  unfold run_frame.
  destruct (decide self tk) as [[st cr] s1]. cbn [fst snd].
  destruct (movement_due s1 (current_time tk));
    match goal with
    | |- context [heartbeat_due ?s ?t] => destruct (heartbeat_due s t)
    end; reflexivity.
Qed.

(** The heartbeat gate of one frame. *)
Lemma run_frame_heartbeat self tk :
  fl_heartbeat (fst (run_frame imencode self tk)) =
    (if heartbeat_due self (heartbeat_check tk)
     then Some (publish_heartbeat (heartbeat_stamp tk)) else None)
  /\ last_heartbeat (snd (run_frame imencode self tk)) =
    (if heartbeat_due self (heartbeat_check tk) then heartbeat_set tk
     else last_heartbeat self).
Proof.
  rewrite <- (heartbeat_due_decide self tk).
  destruct (decide_keeps_config self tk) as (_ & Hlh & _).
  rewrite <- Hlh. clear Hlh.
  unfold run_frame.
  destruct (decide self tk) as [[st cr] s1]. cbn [fst snd].
  unfold heartbeat_due.
  destruct (movement_due s1 (current_time tk)); cbn [last_heartbeat set_last_publish_time];
    match goal with
    | |- context [Qlt_bool ?a ?b] => destruct (Qlt_bool a b)
    end; split; reflexivity.
Qed.

Lemma run_cons self tk rest :
  fst (run imencode self (tk :: rest)) =
    fst (run_frame imencode self tk)
      :: fst (run imencode (snd (run_frame imencode self tk)) rest)
  /\ snd (run imencode self (tk :: rest)) =
    snd (run imencode (snd (run_frame imencode self tk)) rest).
Proof.
  cbn [run].
  destruct (run_frame imencode self tk) as [log s1]. cbn [fst snd].
  destruct (run imencode s1 rest) as [logs s2]. split; reflexivity.
Qed.

Lemma run_app self a b :
  fst (run imencode self (a ++ b)) =
    fst (run imencode self a) ++ fst (run imencode (snd (run imencode self a)) b)
  /\ snd (run imencode self (a ++ b)) =
    snd (run imencode (snd (run imencode self a)) b).
Proof.
  revert self. induction a as [| tk a IH]; intro self.
  - split; reflexivity.
  - rewrite <- app_comm_cons.
    destruct (run_cons self tk (a ++ b)) as [-> ->].
    destruct (run_cons self tk a) as [-> ->].
    destruct (IH (snd (run_frame imencode self tk))) as [-> ->].
    split; reflexivity.
Qed.

Lemma run_length self ticks :
  List.length (fst (run imencode self ticks)) = List.length ticks.
Proof.
  revert self. induction ticks as [| tk rest IH]; intro self; [reflexivity |].
  destruct (run_cons self tk rest) as [-> _]. cbn [List.length]. now rewrite IH.
Qed.

(** ** Holding the last status *)

Lemma visible_frame_records_status self tk f :
  lock_state tk = LOCKED -> target_face tk = Some f ->
  last_status (snd (run_frame imencode self tk))
    = fl_status (fst (run_frame imencode self tk)).
Proof.
  intros Hl Hf.
  destruct (run_frame_decide self tk) as (-> & _ & _ & ->).
  now rewrite (decide_visible self tk f Hl Hf).
Qed.

Lemma absent_frame_holds self tk :
  lock_state tk = LOCKED -> target_face tk = None ->
  fl_status (fst (run_frame imencode self tk))
    = (if is_NO_FACE (last_status self) then CENTERED else last_status self)
  /\ last_status (snd (run_frame imencode self tk)) = last_status self.
Proof.
  intros Hl Hf.
  destruct (run_frame_decide self tk) as (-> & _ & _ & ->).
  now rewrite (decide_absent self tk Hl Hf).
Qed.

(** C2. In a LOCKED frame without a target region the status is the stored
    [last_status], except that it is CENTERED when the stored one is
    NO_FACE, so it is never NO_FACE; and [last_status] stays as it was. So
    after visible frames that produced MOVE_LEFT and then CENTERED, two
    LOCKED frames without a region both report CENTERED. *)
Theorem locked_absent_holds_last_status :
  (forall self tk,
      lock_state tk = LOCKED -> target_face tk = None ->
      (last_status self = NO_FACE ->
       fl_status (fst (run_frame imencode self tk)) = CENTERED)
      /\ (last_status self <> NO_FACE ->
          fl_status (fst (run_frame imencode self tk)) = last_status self)
      /\ fl_status (fst (run_frame imencode self tk)) <> NO_FACE
      /\ last_status (snd (run_frame imencode self tk)) = last_status self)
  /\ (forall self t1 t2 t3 t4 f1 f2,
      lock_state t1 = LOCKED -> lock_state t2 = LOCKED ->
      lock_state t3 = LOCKED -> lock_state t4 = LOCKED ->
      target_face t1 = Some f1 -> target_face t2 = Some f2 ->
      target_face t3 = None -> target_face t4 = None ->
      map fl_status (fst (run imencode self [t1; t2])) = [MOVE_LEFT; CENTERED] ->
      map fl_status (fst (run imencode self [t1; t2; t3; t4]))
        = [MOVE_LEFT; CENTERED; CENTERED; CENTERED]).
Proof.
  split.
  { intros self tk Hl Hf.
    destruct (absent_frame_holds self tk Hl Hf) as [Hst Hkeep].
    rewrite Hst, Hkeep.
    destruct (last_status self); cbn [is_NO_FACE];
      repeat split; try reflexivity; try discriminate;
      intro Hno; try discriminate Hno; now elim Hno. }
  intros self t1 t2 t3 t4 f1 f2 L1 L2 L3 L4 V1 V2 A3 A4 Hvis.
  change [t1; t2; t3; t4] with ([t1; t2] ++ [t3; t4]).
  destruct (run_app self [t1; t2] [t3; t4]) as [-> _].
  rewrite map_app, Hvis.
  assert (Hlast : last_status (snd (run imencode self [t1; t2])) = CENTERED).
  { destruct (run_cons self t1 [t2]) as [E1 ->].
    rewrite E1 in Hvis.
    set (s1 := snd (run_frame imencode self t1)) in *.
    destruct (run_cons s1 t2 []) as [E2 ->].
    rewrite E2 in Hvis. cbn [run fst snd map] in *.
    rewrite (visible_frame_records_status s1 t2 f2 L2 V2).
    now inversion Hvis. }
  set (s2 := snd (run imencode self [t1; t2])) in *.
  destruct (run_cons s2 t3 [t4]) as [-> _].
  destruct (absent_frame_holds s2 t3 L3 A3) as [S3 K3].
  set (s3 := snd (run_frame imencode s2 t3)) in *.
  destruct (run_cons s3 t4 []) as [-> _].
  destruct (absent_frame_holds s3 t4 L4 A4) as [S4 _].
  cbn [run fst map app].
  rewrite S3, S4, K3, Hlast. reflexivity.
Qed.

(** ** NO_FACE and the lock phase *)

Lemma status_NO_FACE_iff_searching self tk :
  fl_status (fst (run_frame imencode self tk)) = NO_FACE
  <-> lock_state tk = SEARCHING.
Proof.
  destruct (run_frame_decide self tk) as (-> & _).
  destruct (lock_state tk) eqn:Hl.
  - rewrite (decide_searching self tk Hl). cbn. tauto.
  - destruct (target_face tk) as [f |] eqn:Hf.
    + rewrite (decide_visible self tk f Hl Hf). cbn [fst].
      split; [| discriminate].
      intro Hd. now apply deadband_never_NO_FACE in Hd.
    + rewrite (decide_absent self tk Hl Hf). cbn [fst].
      split; [| discriminate].
      destruct (last_status self); cbn; discriminate.
Qed.

(** C7. From any state of the node, a frame's status is NO_FACE exactly
    when its lock phase is SEARCHING, frame by frame along any sequence of
    frames; a LOCKED frame, with or without a region, never yields
    NO_FACE. *)
Theorem NO_FACE_iff_SEARCHING :
  forall self ticks,
    Forall2 (fun tk log => (fl_status log = NO_FACE <-> lock_state tk = SEARCHING)
                           /\ (lock_state tk = LOCKED -> fl_status log <> NO_FACE))
            ticks (fst (run imencode self ticks)).
Proof.
  intros self ticks. revert self.
  induction ticks as [| tk rest IH]; intro self.
  - constructor.
  - destruct (run_cons self tk rest) as [-> _].
    constructor; [| apply IH].
    pose proof (status_NO_FACE_iff_searching self tk) as Hiff.
    split; [exact Hiff |].
    intros Hl Hs. apply Hiff in Hs. congruence.
Qed.

(** ** The locked flag of a movement message *)

Lemma status_str_NO_FACE st : status_str st = py "NO_FACE" <-> st = NO_FACE.
Proof.
  destruct st; split; intro E; try reflexivity; try discriminate E.
Qed.

Lemma movement_payload_fields self status target locked crop now :
  dict_get (py "status")
    (payload (publish_movement imencode self status one_point_zero target locked crop now))
    = Some (JStr status)
  /\ dict_get (py "locked")
    (payload (publish_movement imencode self status one_point_zero target locked crop now))
    = Some (JBool locked)
  /\ dict_get (py "target")
    (payload (publish_movement imencode self status one_point_zero target locked crop now))
    = Some (opt_str target)
  /\ dict_get (py "face_image")
    (payload (publish_movement imencode self status one_point_zero target locked crop now))
    = option_map (fun img => JStr (b64encode (imencode img))) crop.
Proof.
  destruct crop; repeat split; reflexivity.
Qed.

(** C8. Whatever movement message a frame publishes, its [status] field is
    the frame's status and its [locked] field is true exactly when that
    status is not NO_FACE; each of the four statuses is published with the
    flag this gives. *)
Theorem locked_field_iff_not_NO_FACE :
  (forall self tk p,
      fl_movement (fst (run_frame imencode self tk)) = Some p ->
      exists st b,
        st = fl_status (fst (run_frame imencode self tk))
        /\ dict_get (py "status") (payload p) = Some (JStr (status_str st))
        /\ dict_get (py "locked") (payload p) = Some (JBool b)
        /\ (b = true <-> status_str st <> py "NO_FACE"))
  /\ (forall st, exists self tk p,
        fl_movement (fst (run_frame imencode self tk)) = Some p
        /\ dict_get (py "status") (payload p) = Some (JStr (status_str st))
        /\ dict_get (py "locked") (payload p) = Some (JBool (negb (is_NO_FACE st)))).
Proof.
  split.
  - intros self tk p Hp.
    rewrite run_frame_movement in Hp.
    destruct (movement_due self (current_time tk)); [| discriminate].
    injection Hp as <-.
    destruct (run_frame_decide self tk) as (-> & _).
    set (st := fst (fst (decide self tk))).
    exists st, (negb (is_NO_FACE st)).
    destruct (movement_payload_fields (snd (decide self tk)) (status_str st)
                (Some (target_name self)) (negb (is_NO_FACE st))
                (snd (fst (decide self tk))) (movement_stamp tk)) as (-> & -> & _).
    repeat split; try reflexivity.
    + intros Hb Hs. apply status_str_NO_FACE in Hs. rewrite Hs in Hb. discriminate.
    + intro Hs. destruct st; try reflexivity. now elim Hs.
  - intro st.
    set (fr := {| H := 480; W := 640; px := fun _ _ => (x00, x00, x00) |}).
    set (mk := fun ls tf =>
      {| frame := fr; target_face := tf; lock_state := ls; current_time := 1;
         movement_stamp := one_point_zero; heartbeat_check := 1;
         heartbeat_stamp := one_point_zero; heartbeat_set := 1 |}).
    set (face := fun x => Some {| x1 := x; y1 := 0; x2 := x; y2 := 0 |}).
    destruct st.
    + exists (init []), (mk SEARCHING None). eexists. repeat split.
    + exists (init []), (mk LOCKED (face 0%float)). eexists. repeat split.
    + exists (init []), (mk LOCKED (face 640%float)). eexists. repeat split.
    + exists (init []), (mk LOCKED (face 320%float)). eexists. repeat split.
Qed.

(** ** The snapshot gate *)

Lemma count_some_cons {A} (f : FrameLog -> option A) l logs :
  count_some f (l :: logs)
    = (match f l with Some _ => 1 | None => 0 end + count_some f logs)%nat.
Proof.
  unfold count_some. cbn [filter]. destruct (f l); reflexivity.
Qed.

Lemma searching_frame_no_crop self tk :
  lock_state tk = SEARCHING ->
  fl_crop (fst (run_frame imencode self tk)) = None
  /\ snapshot_sent (snd (run_frame imencode self tk)) = false.
Proof.
  intro Hs.
  destruct (run_frame_decide self tk) as (_ & -> & -> & _).
  rewrite (decide_searching self tk Hs). split; reflexivity.
Qed.

Lemma locked_frame_crop self tk :
  lock_state tk = LOCKED ->
  fl_crop (fst (run_frame imencode self tk))
    = (if snapshot_sent self then None
       else option_map (face_crop_of (frame tk)) (target_face tk))
  /\ snapshot_sent (snd (run_frame imencode self tk))
    = snapshot_sent self || visible tk.
Proof.
  intro Hl.
  destruct (run_frame_decide self tk) as (_ & -> & -> & _).
  unfold visible.
  destruct (target_face tk) as [f |] eqn:Hf.
  - rewrite (decide_visible self tk f Hl Hf). cbn.
    now rewrite orb_true_r.
  - rewrite (decide_absent self tk Hl Hf). cbn.
    rewrite orb_false_r. now destruct (snapshot_sent self).
Qed.

(** The crops of a run of LOCKED frames: none once the flag is set, and
    otherwise one as soon as a frame shows the target. *)
Lemma crops_of_locked_run self episode :
  forallb is_locked episode = true ->
  count_some fl_crop (fst (run imencode self episode))
    = (if snapshot_sent self then 0 else if existsb visible episode then 1 else 0)%nat.
Proof.
  revert self. induction episode as [| tk rest IH]; intros self Hall.
  - cbn. now destruct (snapshot_sent self).
  - cbn [forallb] in Hall. apply andb_true_iff in Hall as [Htk Hrest].
    assert (Hl : lock_state tk = LOCKED).
    { unfold is_locked in Htk. now destruct (lock_state tk). }
    destruct (run_cons self tk rest) as [-> _].
    rewrite count_some_cons, (IH _ Hrest).
    destruct (locked_frame_crop self tk Hl) as [-> ->].
    cbn [existsb].
    destruct (snapshot_sent self); [reflexivity |].
    assert (Hv : visible tk = match target_face tk with
                              | Some _ => true
                              | None => false
                              end) by reflexivity.
    destruct (target_face tk); rewrite Hv; cbn; [reflexivity |].
    now destruct (existsb visible rest).
Qed.

Lemma slice_of_run self before episode after :
  slice before episode (fst (run imencode self (before ++ episode ++ after)))
    = fst (run imencode (snd (run imencode self before)) episode).
Proof.
  unfold slice.
  destruct (run_app self before (episode ++ after)) as [-> _].
  rewrite skipn_app, run_length, Nat.sub_diag.
  rewrite skipn_all2 by (rewrite run_length; apply Nat.le_refl).
  cbn [skipn app].
  destruct (run_app (snd (run imencode self before)) episode after) as [-> _].
  rewrite firstn_app, run_length, Nat.sub_diag.
  rewrite firstn_all2 by (rewrite run_length; apply Nat.le_refl).
  cbn [firstn]. apply List.app_nil_r.
Qed.

Lemma snapshot_flag_after_searching self before tk :
  lock_state tk = SEARCHING ->
  snapshot_sent (snd (run imencode self (before ++ [tk]))) = false.
Proof.
  intro Hs.
  destruct (run_app self before [tk]) as [_ ->].
  destruct (run_cons (snd (run imencode self before)) tk []) as [_ ->].
  cbn [run snd].
  now destruct (searching_frame_no_crop (snd (run imencode self before)) tk Hs).
Qed.

Lemma flag_after_locked_run self episode :
  forallb is_locked episode = true ->
  snapshot_sent (snd (run imencode self episode))
    = snapshot_sent self || existsb visible episode.
Proof.
  revert self. induction episode as [| tk rest IH]; intros self Hall.
  - cbn. now rewrite orb_false_r.
  - cbn [forallb] in Hall. apply andb_true_iff in Hall as [Htk Hrest].
    assert (Hl : lock_state tk = LOCKED).
    { unfold is_locked in Htk. now destruct (lock_state tk). }
    destruct (run_cons self tk rest) as [_ ->].
    rewrite (IH _ Hrest).
    destruct (locked_frame_crop self tk Hl) as [_ ->].
    cbn [existsb]. now rewrite orb_assoc.
Qed.

(** C3. A SEARCHING frame produces no crop and leaves [snapshot_sent]
    false; in a LOCKED frame a crop is produced exactly when the target is
    visible and the flag is still false, and the flag is true afterwards
    exactly when it was true or the crop has just been produced; hence, in
    any sequence of frames, a run of LOCKED frames yields at most one crop,
    and exactly one when it follows a SEARCHING frame and shows the target
    at least once; and, from the initial node, after the LOCKED frames that
    follow the last SEARCHING frame (or the start) the flag is true exactly
    when those frames have yielded their one crop. *)
Theorem one_snapshot_per_lock_episode :
  (forall self tk,
      lock_state tk = SEARCHING ->
      fl_crop (fst (run_frame imencode self tk)) = None
      /\ snapshot_sent (snd (run_frame imencode self tk)) = false)
  /\ (forall self tk,
      lock_state tk = LOCKED ->
      (fl_crop (fst (run_frame imencode self tk)) <> None
         <-> target_face tk <> None /\ snapshot_sent self = false)
      /\ (snapshot_sent (snd (run_frame imencode self tk)) = true
         <-> snapshot_sent self = true
             \/ fl_crop (fst (run_frame imencode self tk)) <> None))
  /\ (forall self before episode after,
      forallb is_locked episode = true ->
      (count_some fl_crop
         (slice before episode
            (fst (run imencode self (before ++ episode ++ after)))) <= 1)%nat)
  /\ (forall self before tk episode after,
      lock_state tk = SEARCHING ->
      forallb is_locked episode = true ->
      existsb visible episode = true ->
      count_some fl_crop
        (slice (before ++ [tk]) episode
           (fst (run imencode self ((before ++ [tk]) ++ episode ++ after)))) = 1%nat)
  /\ (forall name before episode,
      before = [] \/ (exists earlier tk,
                        before = earlier ++ [tk] /\ lock_state tk = SEARCHING) ->
      forallb is_locked episode = true ->
      (snapshot_sent (snd (run imencode (init name) (before ++ episode))) = true
       <-> count_some fl_crop
             (slice before episode
                (fst (run imencode (init name) (before ++ episode)))) = 1%nat)).
Proof.
  split; [exact searching_frame_no_crop |].
  split; [| split; [| split]].
  - intros self tk Hl.
    destruct (locked_frame_crop self tk Hl) as [-> ->].
    unfold visible.
    destruct (snapshot_sent self), (target_face tk); cbn; split;
      intuition (try discriminate; try congruence).
  - intros self before episode after Hall.
    rewrite slice_of_run, (crops_of_locked_run _ _ Hall).
    destruct (snapshot_sent _); [lia |].
    destruct (existsb visible episode); lia.
  - intros self before tk episode after Hs Hall Hvis.
    rewrite slice_of_run, (crops_of_locked_run _ _ Hall).
    now rewrite (snapshot_flag_after_searching self before tk Hs), Hvis.
  - intros name before episode Hstart Hall.
    rewrite <- (List.app_nil_r episode) at 3.
    rewrite slice_of_run, (crops_of_locked_run _ _ Hall).
    destruct (run_app (init name) before episode) as [_ ->].
    rewrite (flag_after_locked_run _ _ Hall).
    assert (Hfresh : snapshot_sent (snd (run imencode (init name) before)) = false).
    { destruct Hstart as [-> | (earlier & tk & -> & Hs)]; [reflexivity |].
      now apply snapshot_flag_after_searching. }
    rewrite Hfresh. cbn [orb].
    destruct (existsb visible episode); split; intro E; try reflexivity;
      discriminate E.
Qed.

(** ** The movement timer *)

Lemma movement_due_iff self now :
  movement_due self now = true <-> 1 # 10 <= now - last_publish_time self.
Proof. unfold movement_due. apply Qle_bool_iff. Qed.

Lemma movement_due_false_iff self now :
  movement_due self now = false <-> now - last_publish_time self < 1 # 10.
Proof.
  unfold movement_due. split; intro Hx.
  - apply Qnot_le_lt. intro Hle. apply Qle_bool_iff in Hle. congruence.
  - destruct (Qle_bool _ _) eqn:E; [| reflexivity].
    apply Qle_bool_iff in E. exfalso. exact (Qlt_not_le _ _ Hx E).
Qed.

(** No publish while every frame comes sooner than 0.1 s after the last. *)
Lemma no_movement_before_due self ticks :
  Forall (fun tk => current_time tk < last_publish_time self + (1 # 10)) ticks ->
  count_some fl_movement (fst (run imencode self ticks)) = 0%nat.
Proof.
  revert self. induction ticks as [| tk rest IH]; intros self Hall; [reflexivity |].
  inversion Hall as [| ? ? Htk Hrest]; subst.
  destruct (run_cons self tk rest) as [-> _].
  rewrite count_some_cons, run_frame_movement.
  assert (Hd : movement_due self (current_time tk) = false)
    by (apply movement_due_false_iff; lra).
  rewrite Hd. cbn [Nat.add]. apply IH.
  rewrite run_frame_last_publish_time, Hd. exact Hrest.
Qed.

(** At most one publish in less than 0.2 s after a publish. *)
Lemma one_movement_after_publish self lo ticks :
  lo <= last_publish_time self ->
  Forall (fun tk => current_time tk < lo + (2 # 10)) ticks ->
  (count_some fl_movement (fst (run imencode self ticks)) <= 1)%nat.
Proof.
  revert self. induction ticks as [| tk rest IH]; intros self Hlo Hall; [cbn; lia |].
  inversion Hall as [| ? ? Htk Hrest]; subst.
  destruct (run_cons self tk rest) as [-> _].
  rewrite count_some_cons, run_frame_movement.
  destruct (movement_due self (current_time tk)) eqn:Hd.
  - apply movement_due_iff in Hd.
    rewrite no_movement_before_due; [lia |].
    rewrite run_frame_last_publish_time.
    apply movement_due_iff in Hd. rewrite Hd.
    apply movement_due_iff in Hd.
    eapply Forall_impl; [| exact Hrest]. cbn. intros a Ha. lra.
  - cbn [Nat.add]. apply IH; [| exact Hrest].
    now rewrite run_frame_last_publish_time, Hd.
Qed.

(** At most two publishes among frames that all fall in a window shorter
    than 0.2 s, whatever the state before. *)
Lemma two_movements_per_window self lo ticks :
  Forall (fun tk => lo <= current_time tk /\ current_time tk < lo + (2 # 10)) ticks ->
  (count_some fl_movement (fst (run imencode self ticks)) <= 2)%nat.
Proof.
  revert self. induction ticks as [| tk rest IH]; intros self Hall; [cbn; lia |].
  inversion Hall as [| ? ? [Hlo Hhi] Hrest]; subst.
  destruct (run_cons self tk rest) as [-> _].
  rewrite count_some_cons, run_frame_movement.
  destruct (movement_due self (current_time tk)) eqn:Hd.
  - assert (Hone : (count_some fl_movement
                      (fst (run imencode (snd (run_frame imencode self tk)) rest)) <= 1)%nat).
    { apply (one_movement_after_publish _ lo).
      - now rewrite run_frame_last_publish_time, Hd.
      - eapply Forall_impl; [| exact Hrest]. cbn. tauto. }
    lia.
  - cbn [Nat.add]. apply IH. exact Hrest.
Qed.

Lemma Forall2_seq_bound {A} (R : nat -> A -> Prop) (P : A -> Prop) a n l :
  Forall2 R (seq a n) l ->
  (forall k x, (a <= k < a + n)%nat -> R k x -> P x) ->
  Forall P l.
Proof.
  revert a l. induction n as [| n IH]; intros a l Hf Himp; cbn [seq] in Hf.
  - inversion Hf. constructor.
  - inversion Hf as [| k x ks xs Hkx Hrest]; subst. constructor.
    + apply (Himp a); [lia | exact Hkx].
    + apply (IH (S a)); [exact Hrest |].
      intros k y Hk. apply Himp. lia.
Qed.

(** C4. A frame publishes a movement message exactly when its clock
    reading is at least 0.1 s past [last_publish_time], and then stores
    that reading; from any state, the twenty frames of a 200 ms window that
    arrive 10 ms apart publish at most two movement messages. *)
Theorem movement_gate_ten_hertz :
  (forall self tk,
      (fl_movement (fst (run_frame imencode self tk)) <> None
         <-> 1 # 10 <= current_time tk - last_publish_time self)
      /\ (fl_movement (fst (run_frame imencode self tk)) <> None ->
          last_publish_time (snd (run_frame imencode self tk)) = current_time tk)
      /\ (fl_movement (fst (run_frame imencode self tk)) = None ->
          last_publish_time (snd (run_frame imencode self tk)) = last_publish_time self))
  /\ (forall self t0 ticks,
      Forall2 (fun k tk => current_time tk == t0 + inject_Z (Z.of_nat k) * (1 # 100))
              (seq 0 20) ticks ->
      (count_some fl_movement (fst (run imencode self ticks)) <= 2)%nat).
Proof.
  split.
  - intros self tk.
    rewrite run_frame_movement, run_frame_last_publish_time.
    destruct (movement_due self (current_time tk)) eqn:Hd.
    + apply movement_due_iff in Hd.
      split; [split; [intros _; exact Hd | discriminate] |].
      split; [reflexivity | discriminate].
    + apply movement_due_false_iff in Hd.
      split; [split |].
      * intro Hn. now elim Hn.
      * intro Hle. exfalso. exact (Qlt_not_le _ _ Hd Hle).
      * split; [| reflexivity]. intro Hn. now elim Hn.
  - intros self t0 ticks Hticks.
    apply (two_movements_per_window self t0).
    apply (Forall2_seq_bound _ _ _ _ _ Hticks).
    intros k tk Hk Ht. cbn beta in Ht.
    assert (H0 : 0 <= inject_Z (Z.of_nat k))
      by (change 0 with (inject_Z 0); rewrite <- Zle_Qle; lia).
    assert (H19 : inject_Z (Z.of_nat k) <= 19)
      by (change 19 with (inject_Z 19); rewrite <- Zle_Qle; lia).
    rewrite Ht. split; lra.
Qed.

(** ** The snapshot and the movement timer *)

Lemma movement_image_is_frame_crop self tk p :
  fl_movement (fst (run_frame imencode self tk)) = Some p ->
  dict_get (py "face_image") (payload p)
    = option_map (fun img => JStr (b64encode (imencode img)))
        (fl_crop (fst (run_frame imencode self tk))).
Proof.
  intro Hp. rewrite run_frame_movement in Hp.
  destruct (movement_due self (current_time tk)); [| discriminate].
  injection Hp as <-.
  destruct (run_frame_decide self tk) as (_ & -> & _).
  apply movement_payload_fields.
Qed.

Lemma no_image_once_sent self rest :
  snapshot_sent self = true ->
  forallb is_locked rest = true ->
  Forall (fun l => forall p, fl_movement l = Some p ->
                             dict_get (py "face_image") (payload p) = None)
         (fst (run imencode self rest)).
Proof.
  revert self. induction rest as [| tk rest IH]; intros self Hsent Hall.
  - constructor.
  - cbn [forallb] in Hall. apply andb_true_iff in Hall as [Htk Hrest].
    assert (Hl : lock_state tk = LOCKED).
    { unfold is_locked in Htk. now destruct (lock_state tk). }
    destruct (run_cons self tk rest) as [-> _].
    destruct (locked_frame_crop self tk Hl) as [Hcrop Hflag].
    rewrite Hsent in Hcrop, Hflag.
    constructor.
    + intros p Hp.
      rewrite (movement_image_is_frame_crop self tk p Hp), Hcrop. reflexivity.
    + apply IH; [exact Hflag | exact Hrest].
Qed.

(** C10. A movement message carries an image only on a frame that both
    captured the crop and passed the movement timer; when the frame that
    captures the crop comes sooner than 0.1 s after the last publish, the
    crop is made, [snapshot_sent] is set, nothing is published, and no
    later frame of the lock episode publishes an image. *)
Theorem snapshot_lost_when_frame_not_admitted :
  (forall self tk p v,
      fl_movement (fst (run_frame imencode self tk)) = Some p ->
      dict_get (py "face_image") (payload p) = Some v ->
      exists crop,
        fl_crop (fst (run_frame imencode self tk)) = Some crop
        /\ v = JStr (b64encode (imencode crop))
        /\ 1 # 10 <= current_time tk - last_publish_time self)
  /\ (forall self tk f,
      lock_state tk = LOCKED ->
      target_face tk = Some f ->
      snapshot_sent self = false ->
      current_time tk - last_publish_time self < 1 # 10 ->
      fl_crop (fst (run_frame imencode self tk)) = Some (face_crop_of (frame tk) f)
      /\ fl_movement (fst (run_frame imencode self tk)) = None
      /\ snapshot_sent (snd (run_frame imencode self tk)) = true
      /\ forall rest,
          forallb is_locked rest = true ->
          Forall (fun l => forall p, fl_movement l = Some p ->
                                     dict_get (py "face_image") (payload p) = None)
                 (fst (run imencode (snd (run_frame imencode self tk)) rest))).
Proof.
  split.
  - intros self tk p v Hp Hv.
    rewrite (movement_image_is_frame_crop self tk p Hp) in Hv.
    destruct (fl_crop (fst (run_frame imencode self tk))) as [crop |];
      [| discriminate].
    exists crop. cbn in Hv. injection Hv as <-.
    repeat split.
    rewrite run_frame_movement in Hp.
    destruct (movement_due self (current_time tk)) eqn:Hd; [| discriminate].
    now apply movement_due_iff.
  - intros self tk f Hl Hf Hsent Hearly.
    destruct (locked_frame_crop self tk Hl) as [Hcrop Hflag].
    rewrite Hsent, Hf in Hcrop. rewrite Hsent in Hflag.
    unfold visible in Hflag. rewrite Hf in Hflag. cbn in Hcrop, Hflag.
    apply movement_due_false_iff in Hearly.
    repeat split; try assumption.
    + now rewrite run_frame_movement, Hearly.
    + intros rest Hrest. now apply no_image_once_sent.
Qed.

(** ** The heartbeat timer *)

Lemma heartbeat_due_iff self now :
  heartbeat_due self now = true <-> 5 < now - last_heartbeat self.
Proof. unfold heartbeat_due. apply Qlt_bool_iff. Qed.

Lemma heartbeat_due_false_iff self now :
  heartbeat_due self now = false <-> now - last_heartbeat self <= 5.
Proof. unfold heartbeat_due. apply Qlt_bool_false_iff. Qed.

Lemma no_heartbeat_before_due self ticks :
  Forall (fun tk => heartbeat_check tk - last_heartbeat self <= 5) ticks ->
  count_some fl_heartbeat (fst (run imencode self ticks)) = 0%nat
  /\ last_heartbeat (snd (run imencode self ticks)) = last_heartbeat self.
Proof.
  revert self. induction ticks as [| tk rest IH]; intros self Hall.
  - split; reflexivity.
  - inversion Hall as [| ? ? Htk Hrest]; subst.
    destruct (run_cons self tk rest) as [-> ->].
    destruct (run_frame_heartbeat self tk) as [Hb Hl].
    apply heartbeat_due_false_iff in Htk. rewrite Htk in Hb, Hl.
    rewrite count_some_cons, Hb. cbn [Nat.add].
    rewrite <- Hl. apply IH. rewrite Hl. exact Hrest.
Qed.

(** C5, as the code has it. Each connect callback publishes one heartbeat
    and changes nothing in the node; a frame publishes a heartbeat exactly
    when its clock reads more than 5 s past [last_heartbeat], and then
    stores a fresh reading; so while the frames read at most
    [last_heartbeat + 5] none is published, and the first frame that reads
    more publishes exactly one. *)
Theorem heartbeat_gate_five_seconds :
  (forall self now, on_connect self now = ([publish_heartbeat now], self))
  /\ (forall self tk,
      (fl_heartbeat (fst (run_frame imencode self tk)) <> None
         <-> 5 < heartbeat_check tk - last_heartbeat self)
      /\ (fl_heartbeat (fst (run_frame imencode self tk)) <> None ->
          last_heartbeat (snd (run_frame imencode self tk)) = heartbeat_set tk)
      /\ (fl_heartbeat (fst (run_frame imencode self tk)) = None ->
          last_heartbeat (snd (run_frame imencode self tk)) = last_heartbeat self))
  /\ (forall self quiet tk,
      Forall (fun t => heartbeat_check t - last_heartbeat self <= 5) quiet ->
      5 < heartbeat_check tk - last_heartbeat self ->
      count_some fl_heartbeat (fst (run imencode self quiet)) = 0%nat
      /\ count_some fl_heartbeat (fst (run imencode self (quiet ++ [tk]))) = 1%nat).
Proof.
  split; [reflexivity |]. split.
  - intros self tk.
    destruct (run_frame_heartbeat self tk) as [-> ->].
    destruct (heartbeat_due self (heartbeat_check tk)) eqn:Hd.
    + apply heartbeat_due_iff in Hd.
      split; [split; [intros _; exact Hd | discriminate] |].
      split; [reflexivity | discriminate].
    + apply heartbeat_due_false_iff in Hd.
      split; [split |].
      * intro Hn. now elim Hn.
      * intro Hlt. exfalso. exact (Qlt_not_le _ _ Hlt Hd).
      * split; [| reflexivity]. intro Hn. now elim Hn.
  - intros self quiet tk Hquiet Hdue.
    destruct (no_heartbeat_before_due self quiet Hquiet) as [Hzero Hkeep].
    split; [exact Hzero |].
    destruct (run_app self quiet [tk]) as [-> _].
    unfold count_some in *. rewrite filter_app, length_app, Hzero.
    set (s1 := snd (run imencode self quiet)) in *.
    destruct (run_cons s1 tk []) as [-> _]. cbn [run fst filter].
    destruct (run_frame_heartbeat s1 tk) as [-> _].
    rewrite <- Hkeep in Hdue. apply heartbeat_due_iff in Hdue.
    now rewrite Hdue.
Qed.

End NodeFacts.

(** ** Camera acquisition *)

Lemma open_loop_probes_device_zero opens indices :
  open_loop opens indices =
    match indices with
    | [] => None
    | _ :: _ => if opens 0%Z then Some {| device := 0 |} else None
    end.
Proof.
  induction indices as [| idx rest IH]; [reflexivity |].
  cbn [open_loop]. rewrite IH. unfold isOpened. cbn [device].
  destruct (opens 0%Z), rest; reflexivity.
Qed.

(** C6, on the code. Whatever the list, the loop opens device 0 at every
    turn: the result is the capture of device 0 when that one opens, and
    the error with the whole list otherwise. On a machine where only
    device 1 opens, the default list fails, although probing each index in
    turn finds device 1. *)
Theorem open_any_camera_probes_only_device_zero :
  (forall opens indices,
      _open_any_camera opens indices =
        match indices with
        | [] => inr (Failed_to_open_camera [])
        | _ :: _ =>
            if opens 0%Z then inl {| device := 0 |}
            else inr (Failed_to_open_camera indices)
        end)
  /\ _open_any_camera (Z.eqb 1) default_indices
       = inr (Failed_to_open_camera [0; 1; 2; 3]%Z)
  /\ first_opening (Z.eqb 1) default_indices = Some {| device := 1 |}.
Proof.
  split; [| split; reflexivity].
  intros opens indices. unfold _open_any_camera.
  rewrite open_loop_probes_device_zero.
  destruct indices; [reflexivity |]. now destruct (opens 0%Z).
Qed.

(** ** A heartbeat right after the connect-time heartbeat *)

(** C5, as stated, fails: it is not so that, once a freshly started node
    has published its connect-time heartbeat, a frame whose clock reads at
    most 5 s later publishes no heartbeat. A node that connected at 1000 s
    publishes a second heartbeat on a frame at 1001 s, because
    [last_heartbeat] is still 0. *)
Lemma heartbeat_again_one_second_after_connect :
  ~ (forall (imencode : View -> list byte) name now tk,
        float_value now <= heartbeat_check tk ->
        heartbeat_check tk - float_value now <= 5 ->
        fl_heartbeat
          (fst (run_frame imencode (snd (on_connect (init name) now)) tk)) = None).
Proof.
  intro Hclaim.
  specialize (Hclaim markers_only (py "andrew") (stamp_of 1000)
                (tick_at SEARCHING None 1001 1001)).
  assert (Hafter : float_value (stamp_of 1000)
                   <= heartbeat_check (tick_at SEARCHING None 1001 1001))
    by (vm_compute; discriminate).
  assert (Hsoon : heartbeat_check (tick_at SEARCHING None 1001 1001)
                  - float_value (stamp_of 1000) <= 5)
    by (vm_compute; discriminate).
  specialize (Hclaim Hafter Hsoon). vm_compute in Hclaim. discriminate Hclaim.
Qed.

(** ** base64 *)

Local Open Scope N_scope.

Ltac euclid := zify; Z.to_euclidean_division_equations; lia.

Ltac split_tests :=
  repeat match goal with
    | |- context [N.ltb ?a ?b] => destruct (N.ltb_spec a b)
    | |- context [N.leb ?a ?b] => destruct (N.leb_spec a b)
    | |- context [N.eqb ?a ?b] => destruct (N.eqb_spec a b)
    end.

Lemma b64_index_char s : s < 64 -> b64_index (b64_char s) = Some s.
Proof.
  intro Hs. unfold b64_char, b64_index.
  split_tests; cbn [andb]; try lia; f_equal; lia.
Qed.

Lemma b64_char_ascii s : 43 <= b64_char s /\ b64_char s <= 122 /\ b64_char s <> b64_pad.
Proof.
  unfold b64_char, b64_pad. split_tests; lia.
Qed.

Lemma b64_char_not_pad s : (b64_char s =? b64_pad) = false.
Proof.
  apply N.eqb_neq. apply b64_char_ascii.
Qed.

Lemma byte_of_to_N b : byte_of_N (Byte.to_N b) = b.
Proof.
  unfold byte_of_N. now rewrite Byte.of_to_N.
Qed.

Lemma byte_lt_256 b : Byte.to_N b < 256.
Proof.
  pose proof (Byte.to_N_bounded b). lia.
Qed.

(** The four sextets of a 24-bit group put together give the group back. *)
Lemma sextets_join n :
  n < 16777216 ->
  n / 262144 < 64
  /\ n / 262144 * 262144 + (n / 4096) mod 64 * 4096 + (n / 64) mod 64 * 64 + n mod 64 = n.
Proof.
  intro Hn. split; euclid.
Qed.

Lemma octets_split a b c :
  a < 256 -> b < 256 -> c < 256 ->
  (a * 65536 + b * 256 + c) / 65536 = a
  /\ ((a * 65536 + b * 256 + c) / 256) mod 256 = b
  /\ (a * 65536 + b * 256 + c) mod 256 = c.
Proof.
  intros Ha Hb Hc. repeat split; euclid.
Qed.

Lemma b64decode_last c0 c1 p2 p3 :
  b64decode [c0; c1; p2; p3] =
    match b64_index c0, b64_index c1 with
    | Some s0, Some s1 =>
        if (p2 =? b64_pad) && (p3 =? b64_pad) then
          if s1 mod 16 =? 0 then Some [byte_of_N (s0 * 4 + s1 / 16)] else None
        else
          match b64_index p2 with
          | Some s2 =>
              if p3 =? b64_pad then
                if s2 mod 4 =? 0
                then Some [byte_of_N ((s0 * 262144 + s1 * 4096 + s2 * 64) / 65536);
                           byte_of_N (((s0 * 262144 + s1 * 4096 + s2 * 64) / 256) mod 256)]
                else None
              else
                match b64_index p3 with
                | Some s3 =>
                    Some [byte_of_N ((s0 * 262144 + s1 * 4096 + s2 * 64 + s3) / 65536);
                          byte_of_N (((s0 * 262144 + s1 * 4096 + s2 * 64 + s3) / 256) mod 256);
                          byte_of_N ((s0 * 262144 + s1 * 4096 + s2 * 64 + s3) mod 256)]
                | None => None
                end
          | None => None
          end
    | _, _ => None
    end.
Proof. reflexivity. Qed.

Lemma b64decode_more c0 c1 c2 c3 x l :
  b64decode (c0 :: c1 :: c2 :: c3 :: x :: l) =
    match b64_index c0, b64_index c1, b64_index c2, b64_index c3, b64decode (x :: l) with
    | Some s0, Some s1, Some s2, Some s3, Some tl =>
        Some (byte_of_N ((s0 * 262144 + s1 * 4096 + s2 * 64 + s3) / 65536)
                :: byte_of_N (((s0 * 262144 + s1 * 4096 + s2 * 64 + s3) / 256) mod 256)
                :: byte_of_N ((s0 * 262144 + s1 * 4096 + s2 * 64 + s3) mod 256) :: tl)
    | _, _, _, _, _ => None
    end.
Proof. reflexivity. Qed.

Lemma b64encode_three a b c rest :
  b64encode (a :: b :: c :: rest) =
    let n := Byte.to_N a * 65536 + Byte.to_N b * 256 + Byte.to_N c in
    b64_char (n / 262144) :: b64_char ((n / 4096) mod 64)
      :: b64_char ((n / 64) mod 64) :: b64_char (n mod 64) :: b64encode rest.
Proof. reflexivity. Qed.

Lemma b64encode_nil_inv bs : b64encode bs = [] -> bs = [].
Proof.
  destruct bs as [| a [| b [| c rest]]]; [reflexivity | discriminate ..].
Qed.

(** A full group decodes to its three bytes. *)
Lemma decode_full_group a b c :
  let n := Byte.to_N a * 65536 + Byte.to_N b * 256 + Byte.to_N c in
  b64_index (b64_char (n / 262144)) = Some (n / 262144)
  /\ b64_index (b64_char ((n / 4096) mod 64)) = Some ((n / 4096) mod 64)
  /\ b64_index (b64_char ((n / 64) mod 64)) = Some ((n / 64) mod 64)
  /\ b64_index (b64_char (n mod 64)) = Some (n mod 64)
  /\ byte_of_N ((n / 262144 * 262144 + (n / 4096) mod 64 * 4096
                 + (n / 64) mod 64 * 64 + n mod 64) / 65536) = a
  /\ byte_of_N (((n / 262144 * 262144 + (n / 4096) mod 64 * 4096
                  + (n / 64) mod 64 * 64 + n mod 64) / 256) mod 256) = b
  /\ byte_of_N ((n / 262144 * 262144 + (n / 4096) mod 64 * 4096
                 + (n / 64) mod 64 * 64 + n mod 64) mod 256) = c.
Proof.
  intro n.
  pose proof (byte_lt_256 a) as Ha. pose proof (byte_lt_256 b) as Hb.
  pose proof (byte_lt_256 c) as Hc.
  assert (Hn : n < 16777216) by (unfold n; lia).
  destruct (sextets_join n Hn) as [H0 Hjoin].
  rewrite Hjoin.
  destruct (octets_split _ _ _ Ha Hb Hc) as (E1 & E2 & E3).
  fold n in E1, E2, E3. rewrite E1, E2, E3, !byte_of_to_N.
  repeat split; apply b64_index_char; try exact H0; apply N.mod_lt; discriminate.
Qed.

Lemma decode_one_byte a : b64decode (b64encode [a]) = Some [a].
Proof.
  cbn [b64encode]. rewrite b64decode_last.
  pose proof (byte_lt_256 a) as Ha.
  set (n := Byte.to_N a * 65536).
  assert (H0 : n / 262144 < 64) by (unfold n; euclid).
  rewrite (b64_index_char _ H0).
  rewrite (b64_index_char ((n / 4096) mod 64)) by (apply N.mod_lt; discriminate).
  cbn [N.eqb b64_pad andb Pos.eqb].
  assert (Hz : ((n / 4096) mod 64) mod 16 = 0) by (unfold n; euclid).
  rewrite Hz. cbn [N.eqb].
  assert (Hv : n / 262144 * 4 + (n / 4096) mod 64 / 16 = Byte.to_N a)
    by (unfold n; euclid).
  now rewrite Hv, byte_of_to_N.
Qed.

Lemma decode_two_bytes a b : b64decode (b64encode [a; b]) = Some [a; b].
Proof.
  cbn [b64encode]. rewrite b64decode_last.
  pose proof (byte_lt_256 a) as Ha. pose proof (byte_lt_256 b) as Hb.
  set (n := Byte.to_N a * 65536 + Byte.to_N b * 256).
  assert (H0 : n / 262144 < 64) by (unfold n; euclid).
  rewrite (b64_index_char _ H0).
  rewrite (b64_index_char ((n / 4096) mod 64)) by (apply N.mod_lt; discriminate).
  rewrite (b64_index_char ((n / 64) mod 64)) by (apply N.mod_lt; discriminate).
  rewrite b64_char_not_pad. cbn [andb].
  cbn [N.eqb b64_pad Pos.eqb].
  assert (Hz : ((n / 64) mod 64) mod 4 = 0) by (unfold n; euclid).
  rewrite Hz. cbn [N.eqb].
  assert (Hj : n / 262144 * 262144 + (n / 4096) mod 64 * 4096 + (n / 64) mod 64 * 64 = n)
    by (unfold n; euclid).
  rewrite Hj.
  assert (E1 : n / 65536 = Byte.to_N a) by (unfold n; euclid).
  assert (E2 : (n / 256) mod 256 = Byte.to_N b) by (unfold n; euclid).
  now rewrite E1, E2, !byte_of_to_N.
Qed.

Lemma b64decode_encode_bounded k :
  forall bs, (List.length bs < k)%nat -> b64decode (b64encode bs) = Some bs.
Proof.
  induction k as [| k IH]; intros bs Hlen; [inversion Hlen |].
  destruct bs as [| a [| b [| c rest]]].
  - reflexivity.
  - apply decode_one_byte.
  - apply decode_two_bytes.
  - rewrite b64encode_three. cbv zeta.
    destruct (decode_full_group a b c) as (I0 & I1 & I2 & I3 & B0 & B1 & B2).
    cbv zeta in I0, I1, I2, I3, B0, B1, B2.
    assert (Hrest : b64decode (b64encode rest) = Some rest)
      by (apply IH; cbn [List.length] in Hlen; lia).
    destruct (b64encode rest) as [| x l] eqn:Erest.
    + apply b64encode_nil_inv in Erest. subst rest.
      rewrite b64decode_last, I0, I1, I2, I3, !b64_char_not_pad.
      cbn [andb]. now rewrite B0, B1, B2.
    + rewrite b64decode_more, I0, I1, I2, I3, Hrest.
      now rewrite B0, B1, B2.
Qed.

(** Decoding the base64 text of some bytes gives the bytes back. *)
Lemma b64decode_encode bs : b64decode (b64encode bs) = Some bs.
Proof.
  apply (b64decode_encode_bounded (S (List.length bs))). apply Nat.lt_succ_diag_r.
Qed.

Lemma b64encode_ascii bs : Forall (fun c => 43 <= c /\ c <= 122) (b64encode bs).
Proof.
  assert (Hchar : forall s, 43 <= b64_char s /\ b64_char s <= 122).
  { intro s. destruct (b64_char_ascii s) as (? & ? & _). now split. }
  assert (Hpad : 43 <= b64_pad /\ b64_pad <= 122) by (unfold b64_pad; lia).
  assert (Hk : forall k bs', (List.length bs' < k)%nat ->
                             Forall (fun c => 43 <= c /\ c <= 122) (b64encode bs')).
  { induction k as [| k IH]; intros bs' Hlen; [inversion Hlen |].
    destruct bs' as [| a [| b [| c rest]]].
    - constructor.
    - cbn [b64encode].
      repeat (constructor; [first [apply Hchar | exact Hpad] |]). constructor.
    - cbn [b64encode].
      repeat (constructor; [first [apply Hchar | exact Hpad] |]). constructor.
    - rewrite b64encode_three. cbv zeta.
      repeat (constructor; [apply Hchar |]).
      apply IH. cbn [List.length] in Hlen. lia. }
  apply (Hk (S (List.length bs))). apply Nat.lt_succ_diag_r.
Qed.

(** ** JSON strings *)

Lemma hex_value_digit d : d < 16 -> hex_value (hex_digit d) = Some d.
Proof.
  intro Hd. unfold hex_digit, hex_value.
  split_tests; cbn [andb]; try lia; f_equal; lia.
Qed.

Lemma decode_hex4_hex4 n :
  n < 65536 ->
  decode_hex4 (hex_digit ((n / 4096) mod 16)) (hex_digit ((n / 256) mod 16))
    (hex_digit ((n / 16) mod 16)) (hex_digit (n mod 16)) = Some n.
Proof.
  intro Hn. unfold decode_hex4.
  rewrite !hex_value_digit by (apply N.mod_lt; discriminate).
  f_equal. euclid.
Qed.

(** Bits that do not overlap add up. *)
Lemma lor_shiftl_low a k x :
  x < 2 ^ k -> N.lor (N.shiftl a k) x = N.shiftl a k + x.
Proof.
  intro Hx.
  assert (Hdisjoint : N.land (N.shiftl a k) x = 0);
    [| now rewrite <- (N.lxor_lor _ _ Hdisjoint), N.add_nocarry_lxor].
  apply N.bits_inj_iff. intro i.
  rewrite N.land_spec, N.bits_0.
  destruct (N.lt_ge_cases i k) as [Hlow | Hhigh].
  - now rewrite N.shiftl_spec_low.
  - replace (N.testbit x i) with false; [apply andb_false_r |].
    symmetry. destruct (N.eq_dec x 0) as [-> | Hnz]; [apply N.bits_0 |].
    apply N.bits_above_log2.
    apply N.log2_lt_pow2 in Hx; lia.
Qed.

Lemma high_surrogate_of n :
  n < 1048576 ->
  N.lor 55296 (N.land (N.shiftr n 10) 1023) = 55296 + n / 1024.
Proof.
  intro Hn.
  change 1023 with (N.ones 10).
  rewrite N.land_ones, N.shiftr_div_pow2.
  change (2 ^ 10) with 1024.
  assert (Hq : n / 1024 < 1024) by euclid.
  rewrite (N.mod_small _ _ Hq).
  change 55296 with (N.shiftl 54 10).
  apply lor_shiftl_low. exact Hq.
Qed.

Lemma low_surrogate_of n :
  N.lor 56320 (N.land n 1023) = 56320 + n mod 1024.
Proof.
  change 1023 with (N.ones 10).
  rewrite N.land_ones. change (2 ^ 10) with 1024.
  change 56320 with (N.shiftl 55 10).
  apply lor_shiftl_low. apply N.mod_lt. discriminate.
Qed.

Lemma surrogates_join n :
  n < 1048576 ->
  65536 + N.lor (N.shiftl (55296 + n / 1024 - 55296) 10) (56320 + n mod 1024 - 56320)
    = 65536 + n.
Proof.
  intro Hn.
  rewrite (N.add_comm 55296), (N.add_comm 56320), !N.add_sub.
  rewrite lor_shiftl_low by (apply N.mod_lt; discriminate).
  rewrite N.shiftl_mul_pow2. change (2 ^ 10) with 1024.
  f_equal. euclid.
Qed.

Lemma scan_string_plain c rest :
  c <> 34 -> c <> 92 -> 32 <= c ->
  scan_string (c :: rest) = cons_char c (scan_string rest).
Proof.
  intros H34 H92 H32.
  apply N.eqb_neq in H34. apply N.eqb_neq in H92.
  assert (Hlt : (c <? 32) = false) by (apply N.ltb_ge; exact H32).
  cbn [scan_string]. now rewrite H34, H92, Hlt.
Qed.

Lemma scan_string_u a b c d rest :
  scan_string (92 :: 117 :: a :: b :: c :: d :: rest) =
    match decode_hex4 a b c d with
    | None => None
    | Some u =>
        if is_high_surrogate u then
          match rest with
          | b1 :: b2 :: a' :: b' :: c' :: d' :: rest' =>
              if (b1 =? 92) && (b2 =? 117) then
                match decode_hex4 a' b' c' d' with
                | None => None
                | Some u2 =>
                    if is_low_surrogate u2 then
                      cons_char (65536 + N.lor (N.shiftl (u - 55296) 10) (u2 - 56320))
                        (scan_string rest')
                    else cons_char u (scan_string rest)
                end
              else cons_char u (scan_string rest)
          | _ => cons_char u (scan_string rest)
          end
        else cons_char u (scan_string rest)
    end.
Proof. reflexivity. Qed.

(** Scanning what [escape_char] printed gives the character back. *)
Lemma scan_escape_char c rest :
  not_high_surrogate c ->
  scan_string (escape_char c ++ rest) = cons_char c (scan_string rest).
Proof.
  intro Hc. unfold escape_char.
  destruct (N.eqb_spec c 34) as [-> | N34]; [reflexivity |].
  destruct (N.eqb_spec c 92) as [-> | N92]; [reflexivity |].
  destruct (N.eqb_spec c 10) as [-> | N10]; [reflexivity |].
  destruct (N.eqb_spec c 13) as [-> | N13]; [reflexivity |].
  destruct (N.eqb_spec c 9) as [-> | N9]; [reflexivity |].
  destruct (N.eqb_spec c 12) as [-> | N12]; [reflexivity |].
  destruct (N.eqb_spec c 8) as [-> | N8]; [reflexivity |].
  destruct (N.leb_spec 32 c) as [H32 | H32];
    [destruct (N.leb_spec c 126) as [H126 | H126] |]; cbn [andb].
  - cbn [app]. now apply scan_string_plain.
  - destruct (N.ltb_spec c 65536) as [Hbmp | Hastral].
    + unfold u_escape, hex4. cbn [app].
      rewrite scan_string_u, (decode_hex4_hex4 c Hbmp).
      replace (is_high_surrogate c) with false; [reflexivity |].
      unfold is_high_surrogate, not_high_surrogate in *. symmetry.
      apply andb_false_iff. rewrite N.leb_gt, N.leb_gt. lia.
    + assert (Hn : c - 65536 < 1048576) by (unfold not_high_surrogate in Hc; lia).
      rewrite (high_surrogate_of _ Hn), low_surrogate_of.
      unfold u_escape, hex4. cbn [app].
      rewrite scan_string_u.
      rewrite decode_hex4_hex4 by euclid.
      replace (is_high_surrogate (55296 + (c - 65536) / 1024)) with true.
      2:{ symmetry. unfold is_high_surrogate.
          apply andb_true_iff. rewrite !N.leb_le. split; euclid. }
      cbn [N.eqb Pos.eqb andb].
      rewrite decode_hex4_hex4 by euclid.
      replace (is_low_surrogate (56320 + (c - 65536) mod 1024)) with true.
      2:{ symmetry. unfold is_low_surrogate.
          apply andb_true_iff. rewrite !N.leb_le. split; euclid. }
      rewrite (surrogates_join _ Hn).
      replace (65536 + (c - 65536)) with c by lia. reflexivity.
  - unfold u_escape, hex4.
    assert (Hbmp : c < 65536) by lia.
    apply N.ltb_lt in Hbmp as Hb. rewrite Hb. cbn [app].
    rewrite scan_string_u, (decode_hex4_hex4 c Hbmp).
    replace (is_high_surrogate c) with false; [reflexivity |].
    unfold is_high_surrogate. symmetry.
    apply andb_false_iff. rewrite N.leb_gt, N.leb_gt. lia.
Qed.

Lemma scan_string_body s rest :
  no_high_surrogates s ->
  scan_string (flat_map escape_char s ++ 34 :: rest) = Some (s, rest).
Proof.
  induction 1 as [| c s Hc Hs IH]; [reflexivity |].
  cbn [flat_map]. rewrite <- app_assoc.
  rewrite (scan_escape_char c _ Hc), IH. reflexivity.
Qed.

(** Why high surrogates are left out: a high surrogate followed by a low
    one, two characters of a [str], is read back as one. *)
Remark surrogate_pair_is_merged :
  scan_string (flat_map escape_char [55357; 56832] ++ [34]) = Some ([128512], []).
Proof. reflexivity. Qed.

Lemma py_ascii_no_high_surrogates (s : string) : no_high_surrogates (py s).
Proof.
  unfold no_high_surrogates, py. apply Forall_forall. intros c Hin.
  apply in_map_iff in Hin as (a & <- & _). left.
  apply (N.lt_trans _ 256); [apply N_ascii_bounded | reflexivity].
Qed.

Lemma b64encode_no_high_surrogates bs : no_high_surrogates (b64encode bs).
Proof.
  eapply Forall_impl; [| apply b64encode_ascii].
  intros c [_ Hc]. left. lia.
Qed.

(** ** JSON numbers *)


Lemma ends_value_no_digit s :
  ends_value s ->
  scan_digits s = (Decimal.Nil, s)
  /\ starts_with_exponent s = false
  /\ skip_ws s = s
  /\ match s with c :: _ => (c =? 46) = false | [] => True end.
Proof.
  intros [r [-> | ->]]; repeat split; reflexivity.
Qed.

Lemma scan_digits_chars u rest :
  scan_digits rest = (Decimal.Nil, rest) ->
  scan_digits (uint_chars u ++ rest) = (u, rest).
Proof.
  intro Hrest.
  induction u; cbn [uint_chars app]; [exact Hrest | ..];
    cbn [scan_digits digit_cons N.eqb Pos.eqb]; now rewrite IHu.
Qed.

Lemma to_uint_normal n :
  is_nil (N.to_uint n) || negb (Decimal.uint_beq (Decimal.unorm (N.to_uint n)) (N.to_uint n))
    = false.
Proof.
  assert (Hnorm : Decimal.unorm (N.to_uint n) = N.to_uint n).
  { rewrite <- (DecimalN.Unsigned.to_of (N.to_uint n)).
    now rewrite DecimalN.Unsigned.of_to. }
  rewrite Hnorm, (Decimal.internal_uint_dec_lb _ _ eq_refl). cbn [negb].
  rewrite orb_false_r.
  destruct (N.to_uint n); try reflexivity.
  exfalso. exact (unorm_nonnil _ Hnorm).
Qed.

Lemma split_sign_digits u rest :
  is_nil u = false ->
  split_sign (uint_chars u ++ rest) = (false, uint_chars u ++ rest).
Proof.
  destruct u; [discriminate | reflexivity ..].
Qed.

Lemma frac_digits_not_nil u : is_nil (frac_digits u) = false.
Proof. destruct u; reflexivity. Qed.


Lemma scan_unsigned_float neg n f rest :
  ends_value rest ->
  scan_unsigned neg
    (uint_chars (N.to_uint n) ++ [46] ++ uint_chars (frac_digits f) ++ rest)
  = Some (JFloat (mk_pyfloat neg n (frac_digits f)), rest).
Proof.
  intro Hend. destruct (ends_value_no_digit rest Hend) as (Hd & He & _).
  unfold scan_unsigned.
  rewrite scan_digits_chars by reflexivity.
  rewrite to_uint_normal. cbn [app N.eqb Pos.eqb].
  rewrite (scan_digits_chars _ _ Hd), frac_digits_not_nil, He.
  cbn [orb]. now rewrite DecimalN.Unsigned.of_to.
Qed.

Lemma scan_number_float x rest :
  ends_value rest ->
  scan_number (float_repr x ++ rest) = Some (as_read (JFloat x), rest).
Proof.
  intro Hend. unfold scan_number, float_repr. destruct x as [neg n f].
  cbn [f_neg f_int f_frac as_read]. rewrite <- !app_assoc.
  destruct neg.
  - cbn [app split_sign N.eqb Pos.eqb]. now apply scan_unsigned_float.
  - cbn [app]. rewrite split_sign_digits.
    + now apply scan_unsigned_float.
    + pose proof (to_uint_normal n) as Hn.
      now apply orb_false_iff in Hn.
Qed.

Lemma scan_unsigned_int neg n rest :
  ends_value rest ->
  scan_unsigned neg (uint_chars (N.to_uint n) ++ rest)
  = Some (JInt (if neg then Z.opp (Z.of_N n) else Z.of_N n), rest).
Proof.
  intro Hend. destruct (ends_value_no_digit rest Hend) as (Hd & _).
  unfold scan_unsigned.
  rewrite (scan_digits_chars _ _ Hd), to_uint_normal.
  rewrite DecimalN.Unsigned.of_to.
  destruct Hend as [r [-> | ->]]; reflexivity.
Qed.

Lemma scan_number_int z rest :
  ends_value rest ->
  scan_number (int_repr z ++ rest) = Some (JInt z, rest).
Proof.
  intro Hend. unfold scan_number, int_repr. rewrite <- app_assoc.
  destruct (Z.ltb_spec z 0) as [Hneg | Hpos].
  - cbn [app split_sign N.eqb Pos.eqb].
    rewrite (scan_unsigned_int _ _ _ Hend).
    now replace (- Z.of_N (Z.abs_N z))%Z with z by lia.
  - cbn [app]. rewrite split_sign_digits.
    + rewrite (scan_unsigned_int _ _ _ Hend).
      now replace (Z.of_N (Z.abs_N z)) with z by lia.
    + pose proof (to_uint_normal (Z.abs_N z)) as Hn.
      now apply orb_false_iff in Hn.
Qed.

(** ** JSON values and objects *)


Lemma json_string_scan s rest :
  no_high_surrogates s ->
  json_string s ++ rest = 34 :: flat_map escape_char s ++ 34 :: rest
  /\ scan_string (flat_map escape_char s ++ 34 :: rest) = Some (s, rest).
Proof.
  intro Hs. split; [| now apply scan_string_body].
  unfold json_string. cbn [app]. now rewrite <- app_assoc.
Qed.

Lemma uint_chars_head u rest :
  is_nil u = false ->
  exists c r, uint_chars u ++ rest = c :: r
              /\ 48 <= c /\ c <= 57.
Proof.
  destruct u; [discriminate | ..]; intros _; cbn [uint_chars app];
    eexists; eexists; (split; [reflexivity | lia]).
Qed.

(** A number starts with a minus sign or a digit. *)
Lemma number_head (digits : Decimal.uint) (neg : bool) rest :
  is_nil digits = false ->
  exists c r, (if neg then [45] else []) ++ uint_chars digits ++ rest = c :: r
              /\ (c = 45 \/ (48 <= c /\ c <= 57)).
Proof.
  intro Hd. destruct neg.
  - exists 45, (uint_chars digits ++ rest). split; [reflexivity | now left].
  - destruct (uint_chars_head digits rest Hd) as (c & r & E & Hc).
    exists c, r. split; [exact E | now right].
Qed.

Lemma scan_value_number s :
  (exists c r, s = c :: r /\ (c = 45 \/ (48 <= c /\ c <= 57))) ->
  scan_value s = scan_number s /\ skip_ws s = s.
Proof.
  intros (c & r & -> & Hc).
  assert (Hne : (c =? 34) = false /\ (c =? 116) = false /\ (c =? 102) = false
                /\ (c =? 110) = false /\ is_ws c = false).
  { unfold is_ws. rewrite !orb_false_iff, !N.eqb_neq. lia. }
  destruct Hne as (E1 & E2 & E3 & E4 & E5).
  cbn [scan_value skip_ws]. now rewrite E1, E2, E3, E4, E5.
Qed.

(** Reading a printed value gives the value back and stops right after
    it. *)
Lemma scan_value_dump v rest :
  text_ok v -> ends_value rest ->
  scan_value (json_value v ++ rest) = Some (as_read v, rest)
  /\ skip_ws (json_value v ++ rest) = json_value v ++ rest.
Proof.
  intros Hv Hend. destruct v as [| [|] | z | x | s]; cbn [json_value as_read].
  - split; reflexivity.
  - split; reflexivity.
  - split; reflexivity.
  - assert (Hhead : exists c r, int_repr z ++ rest = c :: r
                                /\ (c = 45 \/ (48 <= c /\ c <= 57))).
    { unfold int_repr. rewrite <- app_assoc. apply number_head.
      pose proof (to_uint_normal (Z.abs_N z)) as Hn.
      now apply orb_false_iff in Hn. }
    destruct (scan_value_number _ Hhead) as [-> ->].
    split; [now apply scan_number_int | reflexivity].
  - assert (Hhead : exists c r, float_repr x ++ rest = c :: r
                                /\ (c = 45 \/ (48 <= c /\ c <= 57))).
    { unfold float_repr. rewrite <- !app_assoc. apply number_head.
      pose proof (to_uint_normal (f_int x)) as Hn.
      now apply orb_false_iff in Hn. }
    destruct (scan_value_number _ Hhead) as [-> ->].
    split; [now apply scan_number_float | reflexivity].
  - cbn [text_ok] in Hv.
    destruct (json_string_scan s rest Hv) as [-> Hscan].
    cbn [scan_value skip_ws is_ws N.eqb Pos.eqb orb]. now rewrite Hscan.
Qed.

Lemma json_members_cons kv kv' d :
  json_members (kv :: kv' :: d) = json_member kv ++ 44 :: 32 :: json_members (kv' :: d).
Proof. reflexivity. Qed.

Lemma json_members_head kv d rest :
  exists r, json_members (kv :: d) ++ rest = 34 :: r.
Proof.
  destruct d as [| kv' d]; cbn [json_members]; unfold json_member, json_string;
    cbn [app]; eexists; reflexivity.
Qed.

(** One member, and what the scanner does after it. *)
Lemma scan_member fuel k v acc tail :
  no_high_surrogates k -> text_ok v -> ends_value tail ->
  scan_members (S fuel) (json_member (k, v) ++ tail) acc =
    match tail with
    | c :: s5 =>
        if c =? 125 then Some (dict_set k (as_read v) acc, s5)
        else scan_members fuel (skip_ws s5) (dict_set k (as_read v) acc)
    | [] => None
    end.
Proof.
  intros Hk Hv Hend.
  unfold json_member. cbn [fst snd]. rewrite <- !app_assoc.
  destruct (json_string_scan k (py ": " ++ json_value v ++ tail) Hk) as [-> Hscan].
  cbn [scan_members]. rewrite Hscan.
  change (py ": " ++ json_value v ++ tail) with (58 :: 32 :: json_value v ++ tail).
  cbn [skip_ws is_ws N.eqb Pos.eqb orb].
  destruct (scan_value_dump v tail Hv Hend) as [Hval ->]. rewrite Hval.
  destruct Hend as [r [-> | ->]]; reflexivity.
Qed.

Lemma scan_members_dump d :
  forall fuel acc rest,
    d <> [] -> (List.length d <= fuel)%nat -> dict_ok d ->
    scan_members fuel (json_members d ++ 125 :: rest) acc
      = Some (fold_left (fun a kv => dict_set (fst kv) (as_read (snd kv)) a) d acc, rest).
Proof.
  induction d as [| [k v] d IH]; intros fuel acc rest Hne Hfuel Hok; [now elim Hne |].
  inversion Hok as [| ? ? [Hk Hv] Hok']; subst. cbn [fst snd] in Hk, Hv.
  destruct fuel as [| fuel]; [cbn [List.length] in Hfuel; lia |].
  destruct d as [| kv' d].
  - cbn [json_members fold_left fst snd].
    rewrite (scan_member fuel k v acc (125 :: rest) Hk Hv)
      by (exists rest; now right).
    reflexivity.
  - rewrite json_members_cons, <- app_assoc. cbn [app].
    rewrite (scan_member fuel k v acc _ Hk Hv)
      by (eexists; left; reflexivity).
    cbn [N.eqb Pos.eqb skip_ws is_ws orb fold_left fst snd].
    destruct (json_members_head kv' d (125 :: rest)) as [r Hr].
    assert (Hskip : skip_ws (json_members (kv' :: d) ++ 125 :: rest)
                    = json_members (kv' :: d) ++ 125 :: rest)
      by (rewrite Hr; reflexivity).
    rewrite Hskip.
    apply IH; [discriminate | cbn [List.length] in *; lia | exact Hok'].
Qed.

Lemma json_members_length d : (List.length d <= List.length (json_members d))%nat.
Proof.
  induction d as [| kv [| kv' d] IH]; [apply Nat.le_refl | ..].
  - unfold json_members, json_member, json_string. cbn [app List.length]. lia.
  - rewrite json_members_cons, length_app.
    unfold json_member at 1, json_string. cbn [app List.length] in *. lia.
Qed.

(** Reading back what [json.dumps] printed gives the dictionary, floats as
    they are read. *)
Lemma json_loads_dumps d :
  dict_ok d -> json_loads (json_dumps d) = Some (read_back d).
Proof.
  intro Hok. destruct d as [| kv d]; [reflexivity |].
  unfold json_loads, json_dumps.
  change ([123] ++ json_members (kv :: d) ++ [125])
    with (123 :: json_members (kv :: d) ++ [125]).
  cbn [skip_ws is_ws N.eqb Pos.eqb orb].
  destruct (json_members_head kv d [125]) as [r Hr].
  assert (Hskip : skip_ws (json_members (kv :: d) ++ [125])
                  = json_members (kv :: d) ++ [125]) by (rewrite Hr; reflexivity).
  rewrite Hskip.
  assert (Hscan : scan_members (List.length (123 :: json_members (kv :: d) ++ [125]))
                    (json_members (kv :: d) ++ [125]) []
                  = Some (read_back (kv :: d), [])).
  { apply scan_members_dump; [discriminate | | exact Hok].
    cbn [List.length]. rewrite length_app.
    pose proof (json_members_length (kv :: d)) as Hl.
    cbn [List.length] in *. lia. }
  rewrite Hr in Hscan |- *. cbv iota beta.
  rewrite Hscan. reflexivity.
Qed.

(** ** The movement message on the wire *)

Lemma movement_payload_ok imencode self status confidence target locked img now :
  no_high_surrogates status -> no_high_surrogates target ->
  dict_ok (payload (publish_movement imencode self status confidence
                      (Some target) locked (Some img) now)).
Proof.
  intros Hs Ht. unfold dict_ok.
  cbn [publish_movement payload dict_set pystr_eqb py list_ascii_of_string map
       N_of_ascii N_of_digits N.eqb Pos.eqb andb N.add N.mul Pos.add Pos.mul].
  repeat (constructor;
          [split; [cbn [fst]; repeat (constructor; [left; reflexivity |]); constructor
                  | cbn [snd text_ok opt_str]] |]);
    try exact I; try assumption; [apply b64encode_no_high_surrogates | constructor].
Qed.

(** C9. The payload of a movement message with an image, parsed as JSON,
    has the status string, the target name and the locked flag it was
    built from, and the base64 decoding of its [face_image] field is the
    byte sequence the image encoder produced. The status and the target
    hold no high-surrogate code point. *)
Theorem movement_message_round_trip
    (imencode : View -> list byte) self status confidence target locked img now :
  no_high_surrogates status ->
  no_high_surrogates target ->
  exists d,
    json_loads (wire (publish_movement imencode self status confidence
                        (Some target) locked (Some img) now)) = Some d
    /\ dict_get (py "status") d = Some (JStr status)
    /\ dict_get (py "target") d = Some (JStr target)
    /\ dict_get (py "locked") d = Some (JBool locked)
    /\ exists text,
         dict_get (py "face_image") d = Some (JStr text)
         /\ b64decode text = Some (imencode img).
Proof.
  intros Hs Ht.
  eexists. split.
  - unfold wire. apply json_loads_dumps. now apply movement_payload_ok.
  - repeat split; try reflexivity.
    exists (b64encode (imencode img)). split; [reflexivity |].
    apply b64decode_encode.
Qed.

(** * The theorems at concrete inputs *)

Local Open Scope Q_scope.

Lemma locked_visible_status_is_deadband_witness :
  lock_state (tick_at LOCKED (Some (face_at 100)) 1000 1000) = LOCKED
  /\ target_face (tick_at LOCKED (Some (face_at 100)) 1000 1000) = Some (face_at 100)
  /\ ((x1 (face_at 100) + x2 (face_at 100)) / 2
        / float_of_int (Zpos (W blank_frame)) <? 0.4)%float = true
  /\ fl_status (fst (run_frame markers_only (init (py "andrew"))
                       (tick_at LOCKED (Some (face_at 100)) 1000 1000))) = MOVE_LEFT.
Proof.
  split; [reflexivity |]. split; [reflexivity |]. split; [reflexivity |].
  exact (proj1 (locked_visible_status_is_deadband markers_only (init (py "andrew"))
                  (tick_at LOCKED (Some (face_at 100)) 1000 1000) (face_at 100)
                  eq_refl eq_refl)
           eq_refl).
Defined.

Lemma locked_absent_holds_last_status_witness :
  (lock_state (tick_at LOCKED None 1000 1000) = LOCKED
   /\ target_face (tick_at LOCKED None 1000 1000) = None
   /\ last_status (set_last_status NO_FACE (init (py "andrew"))) = NO_FACE
   /\ fl_status (fst (run_frame markers_only (set_last_status NO_FACE (init (py "andrew")))
                        (tick_at LOCKED None 1000 1000))) = CENTERED)
  /\ (last_status (set_last_status MOVE_RIGHT (init (py "andrew"))) <> NO_FACE
      /\ fl_status (fst (run_frame markers_only
                           (set_last_status MOVE_RIGHT (init (py "andrew")))
                           (tick_at LOCKED None 1000 1000))) = MOVE_RIGHT)
  /\ map fl_status
       (fst (run markers_only (init (py "andrew"))
               [tick_at LOCKED (Some (face_at 100)) 1000 1000;
                tick_at LOCKED (Some (face_at 320)) 1001 1001;
                tick_at LOCKED None 1002 1002;
                tick_at LOCKED None 1003 1003]))
     = [MOVE_LEFT; CENTERED; CENTERED; CENTERED].
Proof.
  split; [| split].
  - split; [reflexivity |]. split; [reflexivity |]. split; [reflexivity |].
    exact (proj1 (proj1 (locked_absent_holds_last_status markers_only)
                    (set_last_status NO_FACE (init (py "andrew")))
                    (tick_at LOCKED None 1000 1000) eq_refl eq_refl)
             eq_refl).
  - assert (Hne : last_status (set_last_status MOVE_RIGHT (init (py "andrew")))
                  <> NO_FACE) by discriminate.
    split; [exact Hne |].
    exact (proj1 (proj2 (proj1 (locked_absent_holds_last_status markers_only)
                           (set_last_status MOVE_RIGHT (init (py "andrew")))
                           (tick_at LOCKED None 1000 1000) eq_refl eq_refl))
             Hne).
  - exact (proj2 (locked_absent_holds_last_status markers_only)
             (init (py "andrew"))
             (tick_at LOCKED (Some (face_at 100)) 1000 1000)
             (tick_at LOCKED (Some (face_at 320)) 1001 1001)
             (tick_at LOCKED None 1002 1002)
             (tick_at LOCKED None 1003 1003)
             (face_at 100) (face_at 320)
             eq_refl eq_refl eq_refl eq_refl eq_refl eq_refl eq_refl eq_refl eq_refl).
Defined.

Lemma one_snapshot_per_lock_episode_witness :
  lock_state (tick_at SEARCHING None 1000 1000) = SEARCHING
  /\ forallb is_locked [tick_at LOCKED None 1001 1001;
                        tick_at LOCKED (Some (face_at 100)) 1002 1002;
                        tick_at LOCKED (Some (face_at 320)) 1003 1003] = true
  /\ existsb visible [tick_at LOCKED None 1001 1001;
                      tick_at LOCKED (Some (face_at 100)) 1002 1002;
                      tick_at LOCKED (Some (face_at 320)) 1003 1003] = true
  /\ count_some fl_crop
       (slice ([tick_at LOCKED (Some (face_at 320)) 999 999]
                 ++ [tick_at SEARCHING None 1000 1000])
          [tick_at LOCKED None 1001 1001;
           tick_at LOCKED (Some (face_at 100)) 1002 1002;
           tick_at LOCKED (Some (face_at 320)) 1003 1003]
          (fst (run markers_only (init (py "andrew"))
                  (([tick_at LOCKED (Some (face_at 320)) 999 999]
                      ++ [tick_at SEARCHING None 1000 1000])
                     ++ [tick_at LOCKED None 1001 1001;
                         tick_at LOCKED (Some (face_at 100)) 1002 1002;
                         tick_at LOCKED (Some (face_at 320)) 1003 1003]
                     ++ [tick_at SEARCHING None 1004 1004])))) = 1%nat.
Proof.
  split; [reflexivity |]. split; [reflexivity |]. split; [reflexivity |].
  exact (proj1 (proj2 (proj2 (proj2 (one_snapshot_per_lock_episode markers_only))))
           (init (py "andrew"))
           [tick_at LOCKED (Some (face_at 320)) 999 999]
           (tick_at SEARCHING None 1000 1000)
           [tick_at LOCKED None 1001 1001;
            tick_at LOCKED (Some (face_at 100)) 1002 1002;
            tick_at LOCKED (Some (face_at 320)) 1003 1003]
           [tick_at SEARCHING None 1004 1004]
           eq_refl eq_refl eq_refl).
Defined.

Lemma window_ticks_every_ten_ms t0 :
  Forall2 (fun k tk => current_time tk == t0 + inject_Z (Z.of_nat k) * (1 # 100))
          (seq 0 20) (window_ticks t0).
Proof.
  unfold window_ticks. generalize (seq 0 20). intro ks.
  induction ks as [| k ks IH]; cbn [map]; constructor; [reflexivity | exact IH].
Qed.

Lemma movement_gate_ten_hertz_witness :
  Forall2 (fun k tk => current_time tk == 1000 + inject_Z (Z.of_nat k) * (1 # 100))
          (seq 0 20) (window_ticks 1000)
  /\ (count_some fl_movement
        (fst (run markers_only (init (py "andrew")) (window_ticks 1000))) <= 2)%nat.
Proof.
  split; [apply window_ticks_every_ten_ms |].
  exact (proj2 (movement_gate_ten_hertz markers_only) (init (py "andrew")) 1000
           (window_ticks 1000) (window_ticks_every_ten_ms 1000)).
Defined.

(** On the closed window, with a twenty-first frame exactly 200 ms after
    the first, a third publish is admitted: the bound of two is for the
    twenty frames of the half-open window. *)
Remark closed_window_admits_three :
  count_some fl_movement
    (fst (run markers_only (init (py "andrew"))
            (window_ticks 1000 ++ [tick_at LOCKED None (10002 # 10) 0]))) = 3%nat.
Proof. vm_compute. reflexivity. Qed.

Lemma heartbeat_gate_five_seconds_witness :
  Forall (fun t => heartbeat_check t - last_heartbeat node_after_first_frame <= 5)
         [tick_at SEARCHING None 1002 1002; tick_at SEARCHING None 1005 1005]
  /\ 5 < heartbeat_check (tick_at SEARCHING None 1006 1006)
          - last_heartbeat node_after_first_frame
  /\ count_some fl_heartbeat
       (fst (run markers_only node_after_first_frame
               [tick_at SEARCHING None 1002 1002; tick_at SEARCHING None 1005 1005]))
     = 0%nat
  /\ count_some fl_heartbeat
       (fst (run markers_only node_after_first_frame
               ([tick_at SEARCHING None 1002 1002; tick_at SEARCHING None 1005 1005]
                  ++ [tick_at SEARCHING None 1006 1006])))
     = 1%nat.
Proof.
  assert (Hquiet : Forall (fun t => heartbeat_check t - last_heartbeat node_after_first_frame <= 5)
                     [tick_at SEARCHING None 1002 1002; tick_at SEARCHING None 1005 1005]).
  { repeat constructor; vm_compute; discriminate. }
  assert (Hdue : 5 < heartbeat_check (tick_at SEARCHING None 1006 1006)
                     - last_heartbeat node_after_first_frame) by reflexivity.
  split; [exact Hquiet |]. split; [exact Hdue |].
  exact (proj2 (proj2 (heartbeat_gate_five_seconds markers_only))
           node_after_first_frame
           [tick_at SEARCHING None 1002 1002; tick_at SEARCHING None 1005 1005]
           (tick_at SEARCHING None 1006 1006) Hquiet Hdue).
Defined.

Lemma locked_field_iff_not_NO_FACE_witness :
  fl_movement (fst (run_frame markers_only (init (py "andrew"))
                      (tick_at LOCKED (Some (face_at 100)) 1000 1000)))
    = Some (publish_movement markers_only
              (init (py "andrew")) (py "MOVE_LEFT") one_point_zero
              (Some (py "andrew")) true
              (Some (face_crop_of blank_frame (face_at 100))) (stamp_of 1000))
  /\ exists st b,
      st = fl_status (fst (run_frame markers_only (init (py "andrew"))
                             (tick_at LOCKED (Some (face_at 100)) 1000 1000)))
      /\ dict_get (py "status")
           (payload (publish_movement markers_only
                       (init (py "andrew")) (py "MOVE_LEFT") one_point_zero
                       (Some (py "andrew")) true
                       (Some (face_crop_of blank_frame (face_at 100))) (stamp_of 1000)))
         = Some (JStr (status_str st))
      /\ dict_get (py "locked")
           (payload (publish_movement markers_only
                       (init (py "andrew")) (py "MOVE_LEFT") one_point_zero
                       (Some (py "andrew")) true
                       (Some (face_crop_of blank_frame (face_at 100))) (stamp_of 1000)))
         = Some (JBool b)
      /\ (b = true <-> status_str st <> py "NO_FACE").
Proof.
  split; [reflexivity |].
  exact (proj1 (locked_field_iff_not_NO_FACE markers_only)
           (init (py "andrew")) (tick_at LOCKED (Some (face_at 100)) 1000 1000)
           _ eq_refl).
Defined.

Lemma movement_message_round_trip_witness :
  no_high_surrogates (py "MOVE_LEFT")
  /\ no_high_surrogates (py "andrew")
  /\ exists d,
      json_loads (wire (publish_movement markers_only (init (py "andrew"))
                          (py "MOVE_LEFT") one_point_zero (Some (py "andrew")) true
                          (Some (face_crop_of blank_frame (face_at 100)))
                          (stamp_of 1000))) = Some d
      /\ dict_get (py "status") d = Some (JStr (py "MOVE_LEFT"))
      /\ dict_get (py "target") d = Some (JStr (py "andrew"))
      /\ dict_get (py "locked") d = Some (JBool true)
      /\ exists text,
           dict_get (py "face_image") d = Some (JStr text)
           /\ b64decode text
              = Some (markers_only (face_crop_of blank_frame (face_at 100))).
Proof.
  split; [apply py_ascii_no_high_surrogates |]. split; [apply py_ascii_no_high_surrogates |].
  exact (movement_message_round_trip markers_only (init (py "andrew"))
           (py "MOVE_LEFT") one_point_zero (py "andrew") true
           (face_crop_of blank_frame (face_at 100)) (stamp_of 1000)
           (py_ascii_no_high_surrogates "MOVE_LEFT") (py_ascii_no_high_surrogates "andrew")).
Defined.

Lemma snapshot_lost_when_frame_not_admitted_witness :
  lock_state (tick_at LOCKED (Some (face_at 100)) (100005 # 100) 1000) = LOCKED
  /\ target_face (tick_at LOCKED (Some (face_at 100)) (100005 # 100) 1000)
     = Some (face_at 100)
  /\ snapshot_sent node_after_first_frame = false
  /\ current_time (tick_at LOCKED (Some (face_at 100)) (100005 # 100) 1000)
       - last_publish_time node_after_first_frame < 1 # 10
  /\ fl_crop (fst (run_frame markers_only node_after_first_frame
                     (tick_at LOCKED (Some (face_at 100)) (100005 # 100) 1000)))
     = Some (face_crop_of blank_frame (face_at 100))
  /\ fl_movement (fst (run_frame markers_only node_after_first_frame
                         (tick_at LOCKED (Some (face_at 100)) (100005 # 100) 1000)))
     = None
  /\ snapshot_sent (snd (run_frame markers_only node_after_first_frame
                           (tick_at LOCKED (Some (face_at 100)) (100005 # 100) 1000)))
     = true
  /\ forall rest,
      forallb is_locked rest = true ->
      Forall (fun l => forall p, fl_movement l = Some p ->
                                 dict_get (py "face_image") (payload p) = None)
             (fst (run markers_only
                     (snd (run_frame markers_only node_after_first_frame
                             (tick_at LOCKED (Some (face_at 100)) (100005 # 100) 1000)))
                     rest)).
Proof.
  split; [reflexivity |]. split; [reflexivity |]. split; [reflexivity |].
  split; [reflexivity |].
  exact (proj2 (snapshot_lost_when_frame_not_admitted markers_only)
           node_after_first_frame
           (tick_at LOCKED (Some (face_at 100)) (100005 # 100) 1000) (face_at 100)
           eq_refl eq_refl eq_refl eq_refl).
Defined.

(** * Further properties of the code *)

Local Open Scope Q_scope.

(** ** The crop of the face *)

Lemma py_int_nonneg (q : Q) :
  0 <= q ->
  (0 <= py_int q)%Z /\ inject_Z (py_int q) <= q /\ q < inject_Z (py_int q) + 1.
Proof.
  destruct q as [n d]. unfold py_int, Qle, Qlt, Qplus, inject_Z. cbn.
  intro Hn. rewrite Z.mul_1_r in *.
  assert (Hn0 : (0 <= n)%Z) by lia.
  pose proof (Z.quot_rem' n (Zpos d)) as Hqr.
  pose proof (Z.rem_bound_pos n (Zpos d) Hn0 (Pos2Z.is_pos d)) as Hr.
  pose proof (Z.quot_pos n (Zpos d) Hn0 (Pos2Z.is_pos d)) as Hq.
  repeat split; nia.
Qed.

(** One axis of the crop, for a box side [a .. b] inside an axis of
    length [n]. *)
Lemma crop_side (a b : Q) (n : positive) :
  0 <= a -> a <= b -> b <= inject_Z (Zpos n) ->
  (Z.max 0 (py_int a - 20) < Z.min (Zpos n) (py_int b + 20))%Z
  /\ inject_Z (Z.max 0 (py_int a - 20)) <= a
  /\ b <= inject_Z (Z.min (Zpos n) (py_int b + 20))
  /\ a - inject_Z (Z.max 0 (py_int a - 20)) < 21
  /\ inject_Z (Z.min (Zpos n) (py_int b + 20)) - b <= 20.
Proof.
  intros Ha Hab Hb.
  destruct (py_int_nonneg a Ha) as (Za & La & Ua).
  destruct (py_int_nonneg b (Qle_trans _ _ _ Ha Hab)) as (Zb & Lb & Ub).
  assert (Hmono : (py_int a <= py_int b)%Z).
  { apply Z.lt_succ_r. rewrite Zlt_Qlt. unfold Z.succ.
    rewrite inject_Z_plus. change (inject_Z 1) with 1. lra. }
  assert (HbW : (py_int b <= Zpos n)%Z) by (rewrite Zle_Qle; lra).
  pose proof (Pos2Z.is_pos n) as Hn.
  split; [lia |].
  assert (Hmax : inject_Z (Z.max 0 (py_int a - 20)) <= inject_Z (py_int a)
                 /\ inject_Z (py_int a) - 20 <= inject_Z (Z.max 0 (py_int a - 20))).
  { split; [rewrite <- Zle_Qle; lia |].
    setoid_replace (inject_Z (py_int a) - 20) with (inject_Z (py_int a - 20))
      by (unfold Z.sub; rewrite inject_Z_plus, inject_Z_opp; reflexivity).
    rewrite <- Zle_Qle. lia. }
  assert (Hmin : inject_Z (Z.min (Zpos n) (py_int b + 20)) <= inject_Z (py_int b) + 20
                 /\ (inject_Z (Z.min (Zpos n) (py_int b + 20)) == inject_Z (Zpos n)
                     \/ inject_Z (Z.min (Zpos n) (py_int b + 20))
                        == inject_Z (py_int b) + 20)).
  { setoid_replace (inject_Z (py_int b) + 20) with (inject_Z (py_int b + 20))
      by (rewrite inject_Z_plus; reflexivity).
    split; [rewrite <- Zle_Qle; lia |].
    destruct (Z.min_spec (Zpos n) (py_int b + 20)) as [[_ ->] | [_ ->]];
      [left | right]; reflexivity. }
  destruct Hmax as [Hmax1 Hmax2]. destruct Hmin as [Hmin1 [Hmin2 | Hmin2]];
    repeat split; lra.
Qed.


Section MoreNodeFacts.

Variable imencode : View -> list byte.

(** ** Where [last_status] is written *)

Lemma run_frame_keeps_last_status self tk :
  is_locked tk && visible tk = false ->
  last_status (snd (run_frame imencode self tk)) = last_status self
  /\ fl_status (fst (run_frame imencode self tk))
     = (if is_locked tk
        then (if is_NO_FACE (last_status self) then CENTERED else last_status self)
        else NO_FACE).
Proof.
  intro Hquiet.
  destruct (run_frame_decide imencode self tk) as (-> & _ & _ & ->).
  unfold is_locked, visible in *.
  destruct (lock_state tk) eqn:Hl.
  - rewrite (decide_searching self tk Hl). split; reflexivity.
  - destruct (target_face tk) eqn:Hf; [discriminate |].
    rewrite (decide_absent self tk Hl Hf). split; reflexivity.
Qed.

(** X2. Only a LOCKED frame that shows the target writes [last_status]:
    over any frames of the other kinds, SEARCHING ones included, it stays
    what it was, the SEARCHING frames report NO_FACE and every LOCKED
    frame without a region reports the status held since before them. So
    a lock episode that starts without a visible target repeats the last
    status of the episode before it. *)
Theorem last_status_written_only_by_visible_frames self ticks :
  forallb (fun tk => negb (is_locked tk && visible tk)) ticks = true ->
  last_status (snd (run imencode self ticks)) = last_status self
  /\ Forall2 (fun tk log =>
                fl_status log
                = (if is_locked tk
                   then (if is_NO_FACE (last_status self) then CENTERED
                         else last_status self)
                   else NO_FACE))
             ticks (fst (run imencode self ticks)).
Proof.
  revert self. induction ticks as [| tk rest IH]; intros self Hall.
  - split; [reflexivity | constructor].
  - cbn [forallb] in Hall. apply andb_true_iff in Hall as [Htk Hrest].
    apply negb_true_iff in Htk.
    destruct (run_cons imencode self tk rest) as [-> ->].
    destruct (run_frame_keeps_last_status self tk Htk) as [Hkeep Hst].
    destruct (IH (snd (run_frame imencode self tk)) Hrest) as [IH1 IH2].
    rewrite Hkeep in IH1, IH2.
    split; [exact IH1 |]. constructor; assumption.
Qed.

Lemma run_frame_last_status_not_NO_FACE self tk :
  last_status self <> NO_FACE ->
  last_status (snd (run_frame imencode self tk)) <> NO_FACE.
Proof.
  intro Hne.
  destruct (run_frame_decide imencode self tk) as (_ & _ & _ & ->).
  destruct (lock_state tk) eqn:Hl.
  - now rewrite (decide_searching self tk Hl).
  - destruct (target_face tk) as [f |] eqn:Hf.
    + rewrite (decide_visible self tk f Hl Hf). cbn. apply deadband_never_NO_FACE.
    + now rewrite (decide_absent self tk Hl Hf).
Qed.

Lemma run_last_status_not_NO_FACE self ticks :
  last_status self <> NO_FACE ->
  last_status (snd (run imencode self ticks)) <> NO_FACE.
Proof.
  revert self. induction ticks as [| tk rest IH]; intros self Hne; [exact Hne |].
  destruct (run_cons imencode self tk rest) as [_ ->].
  apply IH. now apply run_frame_last_status_not_NO_FACE.
Qed.

Lemma quiet_frames_keep_last_status self ticks :
  forallb (fun tk => negb (is_locked tk && visible tk)) ticks = true ->
  last_status (snd (run imencode self ticks)) = last_status self.
Proof.
  revert self. induction ticks as [| tk rest IH]; intros self Hall; [reflexivity |].
  cbn [forallb] in Hall. apply andb_true_iff in Hall as [Htk Hrest].
  apply negb_true_iff in Htk.
  destruct (run_cons imencode self tk rest) as [_ ->].
  rewrite (IH _ Hrest). now destruct (run_frame_keeps_last_status self tk Htk).
Qed.

(** X3. A node started by [__init__] never has NO_FACE in [last_status],
    whatever frames it has processed; so a LOCKED frame without a region
    reports [last_status] itself, and the test for NO_FACE in that branch
    never succeeds. Before any frame has shown the target that status is
    CENTERED. *)
Theorem last_status_never_NO_FACE name ticks tk :
  lock_state tk = LOCKED ->
  target_face tk = None ->
  last_status (snd (run imencode (init name) ticks)) <> NO_FACE
  /\ fl_status (fst (run_frame imencode (snd (run imencode (init name) ticks)) tk))
     = last_status (snd (run imencode (init name) ticks))
  /\ (forallb (fun t => negb (is_locked t && visible t)) ticks = true ->
      fl_status (fst (run_frame imencode (snd (run imencode (init name) ticks)) tk))
      = CENTERED).
Proof.
  intros Hl Hf.
  assert (Hne : last_status (snd (run imencode (init name) ticks)) <> NO_FACE)
    by (apply run_last_status_not_NO_FACE; discriminate).
  destruct (absent_frame_holds imencode (snd (run imencode (init name) ticks))
              tk Hl Hf) as [Hst _].
  assert (Hsame : fl_status
                    (fst (run_frame imencode (snd (run imencode (init name) ticks)) tk))
                  = last_status (snd (run imencode (init name) ticks))).
  { rewrite Hst. destruct (last_status _); try reflexivity. now elim Hne. }
  split; [exact Hne |]. split; [exact Hsame |].
  intro Hquiet. rewrite Hsame.
  now rewrite (quiet_frames_keep_last_status (init name) ticks Hquiet).
Qed.

(** ** The rate of movement messages *)

Lemma inject_nat_succ k :
  inject_Z (Z.of_nat (S k)) == inject_Z (Z.of_nat k) + 1.
Proof.
  rewrite Nat2Z.inj_succ. unfold Z.succ. now rewrite inject_Z_plus.
Qed.

(** After a publish not before [lo], frames that all come before
    [lo + (k + 1) / 10] publish at most [k] times. *)
Lemma movements_after_publish k :
  forall self lo ticks,
    lo <= last_publish_time self ->
    Forall (fun tk => current_time tk < lo + (inject_Z (Z.of_nat k) + 1) * (1 # 10)) ticks ->
    (count_some fl_movement (fst (run imencode self ticks)) <= k)%nat.
Proof.
  induction k as [| k IHk]; intros self lo ticks Hlo Hall.
  - rewrite no_movement_before_due; [lia |].
    eapply Forall_impl; [| exact Hall]. cbn beta. intros tk Htk.
    change (inject_Z (Z.of_nat 0)) with 0 in Htk. lra.
  - revert self Hlo. induction ticks as [| tk rest IH]; intros self Hlo; [cbn; lia |].
    inversion Hall as [| ? ? Htk Hrest]; subst.
    destruct (run_cons imencode self tk rest) as [-> _].
    rewrite count_some_cons, run_frame_movement.
    destruct (movement_due self (current_time tk)) eqn:Hd.
    + assert (Hk : (count_some fl_movement
                      (fst (run imencode (snd (run_frame imencode self tk)) rest)) <= k)%nat).
      { apply (IHk _ (lo + (1 # 10))).
        - rewrite run_frame_last_publish_time, Hd.
          apply movement_due_iff in Hd. lra.
        - eapply Forall_impl; [| exact Hrest]. cbn beta. intros a Ha.
          pose proof (inject_nat_succ k) as Hs. lra. }
      lia.
    + cbn [Nat.add].
      assert (Hk : (count_some fl_movement
                      (fst (run imencode (snd (run_frame imencode self tk)) rest))
                    <= S k)%nat); [| lia].
      apply IH; [exact Hrest |].
      now rewrite run_frame_last_publish_time, Hd.
Qed.

(** X4. From any state, frames whose clock readings all fall in a window
    shorter than [k] tenths of a second publish at most [k] movement
    messages: the rate of movement messages never exceeds 10 Hz, however
    fast the camera is. *)
Theorem movement_rate_cap self lo k ticks :
  Forall (fun tk => lo <= current_time tk
                    /\ current_time tk < lo + inject_Z (Z.of_nat k) * (1 # 10)) ticks ->
  (count_some fl_movement (fst (run imencode self ticks)) <= k)%nat.
Proof.
  revert self. induction ticks as [| tk rest IH]; intros self Hall; [cbn; lia |].
  inversion Hall as [| ? ? [Hlo Hhi] Hrest]; subst.
  destruct k as [| k].
  { exfalso. change (inject_Z (Z.of_nat 0)) with 0 in Hhi. lra. }
  destruct (run_cons imencode self tk rest) as [-> _].
  rewrite count_some_cons, run_frame_movement.
  destruct (movement_due self (current_time tk)) eqn:Hd.
  - assert (Hk : (count_some fl_movement
                    (fst (run imencode (snd (run_frame imencode self tk)) rest)) <= k)%nat).
    { apply (movements_after_publish k _ lo).
      - now rewrite run_frame_last_publish_time, Hd.
      - eapply Forall_impl; [| exact Hrest]. cbn beta. intros a [_ Ha].
        pose proof (inject_nat_succ k) as Hs. lra. }
    lia.
  - cbn [Nat.add]. apply IH. exact Hrest.
Qed.

(** ** When nothing is throttled *)

Lemma snapshot_attached_when_admitted self tk crop :
  fl_crop (fst (run_frame imencode self tk)) = Some crop ->
  movement_due self (current_time tk) = true ->
  exists p,
    fl_movement (fst (run_frame imencode self tk)) = Some p
    /\ dict_get (py "face_image") (payload p)
       = Some (JStr (b64encode (imencode crop))).
Proof.
  intros Hcrop Hdue.
  pose proof (run_frame_movement imencode self tk) as Hm. rewrite Hdue in Hm.
  eexists. split; [exact Hm |].
  rewrite (movement_image_is_frame_crop imencode self tk _ Hm), Hcrop. reflexivity.
Qed.

(** ** The frames on which a call raises *)

Lemma Exc_int_finite x :
  PrimFloat.is_finite x = true -> Exc.int x = Exc.Returns (py_int x).
Proof.
  unfold PrimFloat.is_finite, Exc.int. intro Hfin.
  apply negb_true_iff, orb_false_iff in Hfin as [-> ->]. reflexivity.
Qed.

Lemma Exc_int_not_finite x :
  PrimFloat.is_finite x = false ->
  exists e, Exc.int x = Exc.Raises e /\ e <> Exc.cv2_error.
Proof.
  unfold PrimFloat.is_finite, Exc.int. intro Hfin. apply negb_false_iff in Hfin.
  destruct (PrimFloat.is_nan x); [eexists; split; [reflexivity | discriminate] |].
  cbn [orb] in Hfin. rewrite Hfin. eexists; split; [reflexivity | discriminate].
Qed.

(** The four casts succeed on a finite box, and the crop is then
    [face_crop_of]; on any other box one of them raises. *)
Lemma Exc_face_crop fr f :
  if finite_box f then Exc.face_crop fr f = Exc.Returns (face_crop_of fr f)
  else exists e, Exc.face_crop fr f = Exc.Raises e /\ e <> Exc.cv2_error.
Proof.
  unfold finite_box, Exc.face_crop.
  destruct (PrimFloat.is_finite (x1 f)) eqn:E1; cbn [andb];
    [rewrite (Exc_int_finite _ E1)
    | destruct (Exc_int_not_finite _ E1) as (e & -> & He); now exists e].
  destruct (PrimFloat.is_finite (y1 f)) eqn:E2; cbn [andb Exc.bind];
    [rewrite (Exc_int_finite _ E2)
    | destruct (Exc_int_not_finite _ E2) as (e & -> & He); now exists e].
  destruct (PrimFloat.is_finite (x2 f)) eqn:E3; cbn [andb Exc.bind];
    [rewrite (Exc_int_finite _ E3)
    | destruct (Exc_int_not_finite _ E3) as (e & -> & He); now exists e].
  destruct (PrimFloat.is_finite (y2 f)) eqn:E4; cbn [andb Exc.bind];
    [rewrite (Exc_int_finite _ E4)
    | destruct (Exc_int_not_finite _ E4) as (e & -> & He); now exists e].
  reflexivity.
Qed.

Lemma decide_crop self tk :
  snd (fst (decide self tk))
  = option_map (face_crop_of (frame tk)) (cropped_face self tk).
Proof.
  unfold decide, cropped_face.
  destruct (lock_state tk); [reflexivity |].
  destruct (target_face tk) as [f |]; destruct (snapshot_sent self); reflexivity.
Qed.

Lemma Exc_decide_cases self tk :
  match cropped_face self tk with
  | Some f =>
      if finite_box f then Exc.decide self tk = Exc.Returns (decide self tk)
      else exists e, Exc.decide self tk = Exc.Raises e /\ e <> Exc.cv2_error
  | None => Exc.decide self tk = Exc.Returns (decide self tk)
  end.
Proof.
  unfold cropped_face, Exc.decide, decide.
  destruct (lock_state tk); [reflexivity |].
  destruct (snapshot_sent self) eqn:Hsent; cbn [negb].
  - destruct (target_face tk) as [f |]; reflexivity.
  - destruct (target_face tk) as [f |]; [| reflexivity].
    pose proof (Exc_face_crop (frame tk) f) as Hcrop.
    destruct (finite_box f).
    + rewrite Hcrop. reflexivity.
    + destruct Hcrop as (e & -> & He). now exists e.
Qed.

Lemma Exc_publish_movement self status confidence target locked img now :
  Exc.publish_movement imencode self status confidence target locked img now
  = match img with
    | Some v =>
        if view_empty v then Exc.Raises Exc.cv2_error
        else Exc.Returns (publish_movement imencode self status confidence
                            target locked (Some v) now)
    | None =>
        Exc.Returns (publish_movement imencode self status confidence
                       target locked None now)
    end.
Proof.
  unfold Exc.publish_movement, Exc.imencode_jpg, publish_movement.
  destruct img as [v |]; [destruct (view_empty v) |]; reflexivity.
Qed.

Lemma Exc_run_frame_after_decide self tk :
  Exc.decide self tk = Exc.Returns (decide self tk) ->
  Exc.run_frame imencode self tk
  = match snd (fst (decide self tk)) with
    | Some v =>
        if movement_due self (current_time tk) && view_empty v
        then Exc.Raises Exc.cv2_error
        else Exc.Returns (run_frame imencode self tk)
    | None => Exc.Returns (run_frame imencode self tk)
    end.
Proof.
  intro Hd. unfold Exc.run_frame, run_frame. rewrite Hd. cbn [Exc.bind].
  rewrite <- (movement_due_decide self tk (current_time tk)).
  destruct (decide self tk) as [[st cr] s1]. cbn [fst snd].
  rewrite Exc_publish_movement.
  destruct (movement_due s1 (current_time tk)); cbn [andb Exc.bind].
  - destruct cr as [v |]; [destruct (view_empty v) |]; cbn [Exc.bind];
      try reflexivity;
      match goal with
      | |- context [heartbeat_due ?s ?t] => destruct (heartbeat_due s t)
      end; reflexivity.
  - destruct cr as [v |];
      match goal with
      | |- context [heartbeat_due ?s ?t] => destruct (heartbeat_due s t)
      end; reflexivity.
Qed.

(** One iteration raises exactly on a frame that takes a snapshot and
    whose box is not finite, or whose crop is empty while the movement
    timer admits the frame; on every other frame it does what [run_frame]
    does. *)
Lemma Exc_run_frame_cases self tk :
  match cropped_face self tk with
  | Some f =>
      if finite_box f then
        if movement_due self (current_time tk) && view_empty (face_crop_of (frame tk) f)
        then Exc.run_frame imencode self tk = Exc.Raises Exc.cv2_error
        else Exc.run_frame imencode self tk = Exc.Returns (run_frame imencode self tk)
      else exists e, Exc.run_frame imencode self tk = Exc.Raises e /\ e <> Exc.cv2_error
  | None => Exc.run_frame imencode self tk = Exc.Returns (run_frame imencode self tk)
  end.
Proof.
  pose proof (Exc_decide_cases self tk) as Hd.
  pose proof (decide_crop self tk) as Hc.
  destruct (cropped_face self tk) as [f |]; cbn [option_map] in Hc.
  - destruct (finite_box f).
    + rewrite (Exc_run_frame_after_decide self tk Hd), Hc.
      destruct (movement_due self (current_time tk) && view_empty (face_crop_of (frame tk) f));
        reflexivity.
    + destruct Hd as (e & Hd & He). exists e. split; [| exact He].
      unfold Exc.run_frame. now rewrite Hd.
  - now rewrite (Exc_run_frame_after_decide self tk Hd), Hc.
Qed.

Lemma cropped_face_inv self tk f :
  cropped_face self tk = Some f <->
  lock_state tk = LOCKED /\ target_face tk = Some f /\ snapshot_sent self = false.
Proof.
  unfold cropped_face.
  destruct (lock_state tk), (snapshot_sent self); split;
    try discriminate; try tauto;
    try (intros (E & _); discriminate E);
    try (intros (_ & _ & E); discriminate E).
Qed.

Lemma Exc_run_frame_croppable self tk :
  croppable tk = true ->
  Exc.run_frame imencode self tk = Exc.Returns (run_frame imencode self tk).
Proof.
  intro Hok. pose proof (Exc_run_frame_cases self tk) as Hcases.
  destruct (cropped_face self tk) as [f |] eqn:Hcf; [| exact Hcases].
  apply cropped_face_inv in Hcf as (Hl & Hf & _).
  unfold croppable in Hok. rewrite Hl, Hf in Hok.
  unfold encodable in Hok. apply andb_true_iff in Hok as [Hfin Hpix].
  apply negb_true_iff in Hpix. rewrite Hfin, Hpix, andb_false_r in Hcases.
  exact Hcases.
Qed.

(** Over frames that are all croppable the loop raises nowhere and is the
    loop [run]. *)
Lemma Exc_run_croppable self ticks :
  forallb croppable ticks = true ->
  Exc.run imencode self ticks
  = (fst (run imencode self ticks), Exc.Returns (snd (run imencode self ticks))).
Proof.
  revert self. induction ticks as [| tk rest IH]; intros self Hok; [reflexivity |].
  cbn [forallb] in Hok. apply andb_true_iff in Hok as [Htk Hrest].
  cbn [Exc.run]. rewrite (Exc_run_frame_croppable self tk Htk).
  destruct (run_cons imencode self tk rest) as [-> ->].
  destruct (run_frame imencode self tk) as [log s1]. cbn [fst snd].
  now rewrite (IH s1 Hrest).
Qed.

(** A finite box inside the frame is encodable. *)
Lemma box_inside_encodable fr f :
  finite_box f = true ->
  0 <= x1 f -> x1 f <= x2 f -> x2 f <= inject_Z (Zpos (W fr)) ->
  0 <= y1 f -> y1 f <= y2 f -> y2 f <= inject_Z (Zpos (H fr)) ->
  encodable fr f = true.
Proof.
  intros Hfin Hx1 Hx12 Hx2 Hy1 Hy12 Hy2.
  unfold encodable. rewrite Hfin. cbn [andb]. apply negb_true_iff.
  destruct (crop_side _ _ (W fr) Hx1 Hx12 Hx2) as (Hc & _).
  destruct (crop_side _ _ (H fr) Hy1 Hy12 Hy2) as (Hr & _).
  unfold view_empty, view_rows, view_cols, slice_length, slice_index, face_crop_of, pad.
  cbn [base r0 r1 c0 c1].
  apply orb_false_iff.
  split; apply Z.eqb_neq;
    repeat match goal with
           | |- context [(?a <? 0)%Z] => destruct (Z.ltb_spec a 0)
           end; lia.
Qed.

(** When every frame comes at least 0.1 s after the frame before it,
    every frame of [run] publishes a movement message and every crop that
    is made is sent with the message of its frame. *)
Lemma slow_frames_publish_all self ticks :
  slow_from (last_publish_time self) ticks ->
  Forall (fun l =>
            fl_movement l <> None
            /\ forall crop, fl_crop l = Some crop ->
                 exists p, fl_movement l = Some p
                           /\ dict_get (py "face_image") (payload p)
                              = Some (JStr (b64encode (imencode crop))))
         (fst (run imencode self ticks)).
Proof.
  revert self. induction ticks as [| tk rest IH]; intros self Hslow.
  - constructor.
  - destruct Hslow as [Hfirst Hrest].
    apply movement_due_iff in Hfirst.
    destruct (run_cons imencode self tk rest) as [-> _].
    constructor.
    + split.
      * rewrite run_frame_movement, Hfirst. discriminate.
      * intros crop Hcrop. now apply snapshot_attached_when_admitted.
    + apply IH. now rewrite run_frame_last_publish_time, Hfirst.
Qed.

(** X5. When every frame comes at least 0.1 s after the frame before it
    (a camera of 10 frames a second or fewer), the first one at least
    0.1 s after the last publish, and the face box of every LOCKED frame
    is encodable (finite, with a crop that has pixels, as every finite box
    inside the frame is), the loop raises nowhere, every frame publishes a
    movement message and every crop that is made is sent with the message
    of its frame: no snapshot is lost. *)
Theorem slow_frames_are_all_published self ticks :
  slow_from (last_publish_time self) ticks ->
  forallb croppable ticks = true ->
  exists logs self',
    Exc.run imencode self ticks = (logs, Exc.Returns self')
    /\ List.length logs = List.length ticks
    /\ Forall (fun l =>
                 fl_movement l <> None
                 /\ forall crop, fl_crop l = Some crop ->
                      exists p, fl_movement l = Some p
                                /\ dict_get (py "face_image") (payload p)
                                   = Some (JStr (b64encode (imencode crop))))
              logs.
Proof.
  intros Hslow Hok.
  exists (fst (run imencode self ticks)), (snd (run imencode self ticks)).
  split; [now apply Exc_run_croppable |].
  split; [apply run_length |].
  now apply slow_frames_publish_all.
Qed.

(** A frame of [run] publishes a movement message with an image exactly
    when it is LOCKED, shows the target, no snapshot was made yet in the
    episode and the movement timer lets it through. *)
Lemma image_published_iff self tk :
  (exists p v, fl_movement (fst (run_frame imencode self tk)) = Some p
               /\ dict_get (py "face_image") (payload p) = Some v)
  <-> (lock_state tk = LOCKED
       /\ target_face tk <> None
       /\ snapshot_sent self = false
       /\ 1 # 10 <= current_time tk - last_publish_time self).
Proof.
  split.
  - intros (p & v & Hp & Hv).
    rewrite (movement_image_is_frame_crop imencode self tk p Hp) in Hv.
    assert (Hdue : 1 # 10 <= current_time tk - last_publish_time self).
    { rewrite run_frame_movement in Hp.
      destruct (movement_due self (current_time tk)) eqn:Hd; [| discriminate].
      now apply movement_due_iff. }
    destruct (lock_state tk) eqn:Hl.
    + destruct (searching_frame_no_crop imencode self tk Hl) as [Hnone _].
      rewrite Hnone in Hv. discriminate.
    + destruct (locked_frame_crop imencode self tk Hl) as [Hcrop _].
      rewrite Hcrop in Hv.
      destruct (snapshot_sent self); [discriminate |].
      destruct (target_face tk); [| discriminate].
      repeat split; try assumption. discriminate.
  - intros (Hl & Hf & Hsent & Hdue).
    destruct (target_face tk) as [f |] eqn:Hface; [| now elim Hf].
    destruct (locked_frame_crop imencode self tk Hl) as [Hcrop _].
    rewrite Hsent, Hface in Hcrop. cbn in Hcrop.
    apply movement_due_iff in Hdue.
    destruct (snapshot_attached_when_admitted self tk _ Hcrop Hdue) as (p & Hp & Hv).
    exists p. eexists. split; [exact Hp | exact Hv].
Qed.

(** X6. An iteration completes and publishes a movement message with an
    image exactly when the frame is LOCKED, shows a target whose box is
    encodable, no snapshot was made yet in the episode ([snapshot_sent] is
    false) and the movement timer lets it through. With a finite box
    whose crop is empty (a box outside the frame) the same frame ends the
    loop with the error of [cv2.imencode] instead, before anything is
    published; that is the only way this error arises. *)
Theorem snapshot_published_iff self tk :
  ((exists log self' p v,
       Exc.run_frame imencode self tk = Exc.Returns (log, self')
       /\ fl_movement log = Some p
       /\ dict_get (py "face_image") (payload p) = Some v)
   <-> (lock_state tk = LOCKED
        /\ (exists f, target_face tk = Some f /\ encodable (frame tk) f = true)
        /\ snapshot_sent self = false
        /\ 1 # 10 <= current_time tk - last_publish_time self))
  /\ (Exc.run_frame imencode self tk = Exc.Raises Exc.cv2_error
      <-> (lock_state tk = LOCKED
           /\ (exists f, target_face tk = Some f
                         /\ finite_box f = true
                         /\ view_empty (face_crop_of (frame tk) f) = true)
           /\ snapshot_sent self = false
           /\ 1 # 10 <= current_time tk - last_publish_time self)).
Proof.
  pose proof (Exc_run_frame_cases self tk) as Hcases.
  pose proof (image_published_iff self tk) as Himg.
  rewrite <- movement_due_iff.
  split; split.
  - intros (log & self' & p & v & Hrun & Hp & Hv).
    destruct (cropped_face self tk) as [f |] eqn:Hcf.
    + apply cropped_face_inv in Hcf as (Hl & Hf & Hsent).
      destruct (finite_box f) eqn:Hfin;
        [| destruct Hcases as (e & He & _); congruence].
      destruct (movement_due self (current_time tk) && view_empty (face_crop_of (frame tk) f))
        eqn:Hraise; [congruence |].
      rewrite Hrun in Hcases. injection Hcases as Hlog.
      assert (Hdue : movement_due self (current_time tk) = true).
      { apply movement_due_iff, Himg. exists p, v. rewrite <- Hlog. cbn [fst]. now split. }
      rewrite Hdue in Hraise. cbn [andb] in Hraise.
      split; [exact Hl |]. split; [| now split].
      exists f. split; [exact Hf |]. unfold encodable. now rewrite Hfin, Hraise.
    + rewrite Hrun in Hcases. injection Hcases as Hlog.
      assert (Hold : exists p v, fl_movement (fst (run_frame imencode self tk)) = Some p
                                 /\ dict_get (py "face_image") (payload p) = Some v)
        by (exists p, v; rewrite <- Hlog; cbn [fst]; now split).
      apply Himg in Hold as (Hl & Hf & Hsent & _).
      destruct (target_face tk) as [f |] eqn:Hface; [| now elim Hf].
      assert (Hsome : cropped_face self tk = Some f) by now apply cropped_face_inv.
      congruence.
  - intros (Hl & (f & Hf & Henc) & Hsent & Hdue).
    assert (Hcf : cropped_face self tk = Some f) by now apply cropped_face_inv.
    unfold encodable in Henc. apply andb_true_iff in Henc as [Hfin Hpix].
    apply negb_true_iff in Hpix.
    rewrite Hcf, Hfin, Hpix, andb_false_r in Hcases.
    assert (Hold : exists p v, fl_movement (fst (run_frame imencode self tk)) = Some p
                               /\ dict_get (py "face_image") (payload p) = Some v).
    { apply Himg. repeat split; try assumption.
      - rewrite Hf. discriminate.
      - now apply movement_due_iff. }
    destruct Hold as (p & v & Hp & Hv).
    exists (fst (run_frame imencode self tk)), (snd (run_frame imencode self tk)), p, v.
    rewrite Hcases. now destruct (run_frame imencode self tk).
  - intro Hrun.
    destruct (cropped_face self tk) as [f |] eqn:Hcf; [| congruence].
    apply cropped_face_inv in Hcf as (Hl & Hf & Hsent).
    destruct (finite_box f) eqn:Hfin.
    + destruct (movement_due self (current_time tk)) eqn:Hdue; cbn [andb] in Hcases.
      * destruct (view_empty (face_crop_of (frame tk) f)) eqn:Hpix; [| congruence].
        split; [exact Hl |]. split; [now exists f |]. now split.
      * congruence.
    + destruct Hcases as (e & He & Hne). rewrite Hrun in He.
      injection He as <-. now elim Hne.
  - intros (Hl & (f & Hf & Hfin & Hpix) & Hsent & Hdue).
    assert (Hcf : cropped_face self tk = Some f) by now apply cropped_face_inv.
    now rewrite Hcf, Hfin, Hdue, Hpix in Hcases.
Qed.

(** ** The rate of heartbeats *)

(** After a heartbeat stored not before [lo], frames whose checks read at
    most [lo + 5 (k + 1)] publish at most [k] heartbeats, when the clock
    does not run backwards inside a frame. *)
Lemma heartbeats_after_publish k :
  forall self lo ticks,
    lo <= last_heartbeat self ->
    Forall (fun tk => heartbeat_check tk <= lo + (inject_Z (Z.of_nat k) + 1) * 5
                      /\ heartbeat_check tk <= heartbeat_set tk) ticks ->
    (count_some fl_heartbeat (fst (run imencode self ticks)) <= k)%nat.
Proof.
  induction k as [| k IHk]; intros self lo ticks Hlo Hall.
  - destruct (no_heartbeat_before_due imencode self ticks) as [-> _]; [| lia].
    eapply Forall_impl; [| exact Hall]. cbn beta. intros tk [Htk _].
    change (inject_Z (Z.of_nat 0)) with 0 in Htk. lra.
  - revert self Hlo. induction ticks as [| tk rest IH]; intros self Hlo; [cbn; lia |].
    inversion Hall as [| ? ? [Htk Hmono] Hrest]; subst.
    destruct (run_cons imencode self tk rest) as [-> _].
    destruct (run_frame_heartbeat imencode self tk) as [Hb Hlast].
    rewrite count_some_cons, Hb.
    destruct (heartbeat_due self (heartbeat_check tk)) eqn:Hd.
    + assert (Hk : (count_some fl_heartbeat
                      (fst (run imencode (snd (run_frame imencode self tk)) rest)) <= k)%nat).
      { apply (IHk _ (lo + 5)).
        - rewrite Hlast. apply heartbeat_due_iff in Hd. lra.
        - eapply Forall_impl; [| exact Hrest]. cbn beta. intros a [Ha Hm].
          pose proof (inject_nat_succ k) as Hs. split; [lra | exact Hm]. }
      lia.
    + cbn [Nat.add].
      assert (Hk : (count_some fl_heartbeat
                      (fst (run imencode (snd (run_frame imencode self tk)) rest))
                    <= S k)%nat); [| lia].
      apply IH; [exact Hrest |]. now rewrite Hlast.
Qed.

(** X7. From any state, frames whose heartbeat checks all read within a
    closed window of [5 (k + 1)] seconds publish at most [k + 1]
    heartbeats, provided the clock does not run backwards between the
    check and the reading stored after the publish: loop heartbeats are
    more than 5 s apart. *)
Theorem heartbeat_rate_cap self lo k ticks :
  Forall (fun tk => lo <= heartbeat_check tk
                    /\ heartbeat_check tk <= lo + (inject_Z (Z.of_nat k) + 1) * 5
                    /\ heartbeat_check tk <= heartbeat_set tk) ticks ->
  (count_some fl_heartbeat (fst (run imencode self ticks)) <= S k)%nat.
Proof.
  revert self. induction ticks as [| tk rest IH]; intros self Hall; [cbn; lia |].
  inversion Hall as [| ? ? (Hlo & Hhi & Hmono) Hrest]; subst.
  destruct (run_cons imencode self tk rest) as [-> _].
  destruct (run_frame_heartbeat imencode self tk) as [Hb Hlast].
  rewrite count_some_cons, Hb.
  destruct (heartbeat_due self (heartbeat_check tk)) eqn:Hd.
  - assert (Hk : (count_some fl_heartbeat
                    (fst (run imencode (snd (run_frame imencode self tk)) rest)) <= k)%nat).
    { apply (heartbeats_after_publish k _ lo).
      - rewrite Hlast. lra.
      - eapply Forall_impl; [| exact Hrest]. cbn. tauto. }
    lia.
  - cbn [Nat.add]. apply IH. exact Hrest.
Qed.

(** ** Topics and identity *)

Lemma run_frame_keeps_config self tk :
  target_name (snd (run_frame imencode self tk)) = target_name self
  /\ mqtt_topic (snd (run_frame imencode self tk)) = mqtt_topic self.
Proof.
  destruct (decide_keeps_config self tk) as (_ & _ & Htn & Hmt).
  rewrite <- Htn, <- Hmt. unfold run_frame.
  destruct (decide self tk) as [[st cr] s1]. cbn [fst snd].
  destruct (movement_due s1 (current_time tk));
    match goal with
    | |- context [heartbeat_due ?s ?t] => destruct (heartbeat_due s t)
    end; split; reflexivity.
Qed.

Lemma published_by_configured_node self ticks :
  mqtt_topic self = TOPIC_MOVEMENT ->
  Forall (fun l =>
            (forall p, fl_movement l = Some p ->
               topic p = py "vision/dragonfly/movement"
               /\ dict_get (py "target") (payload p) = Some (JStr (target_name self))
               /\ dict_get (py "confidence") (payload p) = Some (JFloat one_point_zero))
            /\ (forall p, fl_heartbeat l = Some p ->
               topic p = py "vision/dragonfly/heartbeat"
               /\ dict_get (py "node") (payload p) = Some (JStr (py "pc_vision"))
               /\ dict_get (py "status") (payload p) = Some (JStr (py "ONLINE"))))
         (fst (run imencode self ticks)).
Proof.
  revert self. induction ticks as [| tk rest IH]; intros self Htopic; [constructor |].
  destruct (run_cons imencode self tk rest) as [-> _].
  destruct (run_frame_keeps_config self tk) as [Htn Hmt].
  constructor.
  - split.
    + intros p Hp. rewrite run_frame_movement in Hp.
      destruct (movement_due self (current_time tk)); [| discriminate].
      injection Hp as <-.
      destruct (decide_keeps_config self tk) as (_ & _ & _ & Hmt').
      split; [cbn [publish_movement topic]; now rewrite Hmt', Htopic |].
      destruct (snd (fst (decide self tk))); split; reflexivity.
    + intros p Hp.
      destruct (run_frame_heartbeat imencode self tk) as [Hb _]. rewrite Hb in Hp.
      destruct (heartbeat_due self (heartbeat_check tk)); [| discriminate].
      injection Hp as <-. repeat split.
  - rewrite <- Htn. apply IH. now rewrite Hmt.
Qed.

(** X8. Every movement message a node started by [__init__] publishes,
    after any frames, goes to the topic [vision/dragonfly/movement], names
    the target the node was started with and carries the confidence 1.0;
    every heartbeat of the loop goes to [vision/dragonfly/heartbeat] with
    node [pc_vision] and status [ONLINE]: the loop never changes the topic
    or the target. *)
Theorem published_topics_and_identity name ticks :
  Forall (fun l =>
            (forall p, fl_movement l = Some p ->
               topic p = py "vision/dragonfly/movement"
               /\ dict_get (py "target") (payload p) = Some (JStr name)
               /\ dict_get (py "confidence") (payload p) = Some (JFloat one_point_zero))
            /\ (forall p, fl_heartbeat l = Some p ->
               topic p = py "vision/dragonfly/heartbeat"
               /\ dict_get (py "node") (payload p) = Some (JStr (py "pc_vision"))
               /\ dict_get (py "status") (payload p) = Some (JStr (py "ONLINE"))))
         (fst (run imencode (init name) ticks)).
Proof.
  exact (published_by_configured_node (init name) ticks eq_refl).
Qed.

(** ** The exits of the loop *)

Lemma run_one self tk :
  run imencode self [tk]
    = ([fst (run_frame imencode self tk)], snd (run_frame imencode self tk)).
Proof.
  cbn [run]. now destruct (run_frame imencode self tk).
Qed.

Lemma run_loop_processed self reads :
  run_loop imencode self reads = run imencode self (processed reads).
Proof.
  revert self. induction reads as [| [| tk key] rest IH]; intro self;
    [reflexivity | reflexivity |].
  cbn [run_loop processed].
  destruct (quit_pressed key).
  - rewrite run_one. now destruct (run_frame imencode self tk).
  - cbn [run]. destruct (run_frame imencode self tk) as [log s1].
    now rewrite IH.
Qed.

Lemma processed_reads_of frames tail :
  Forall (fun tkk => quit_pressed (snd tkk) = false) frames ->
  processed (reads_of frames ++ tail) = map fst frames ++ processed tail.
Proof.
  induction 1 as [| [tk key] frames Hkey _ IH]; [reflexivity |].
  cbn [reads_of map app processed fst snd] in *. rewrite Hkey.
  fold (reads_of frames). now rewrite IH.
Qed.

(** X9. The loop processes the frames in order until the first failed read
    or the first frame after which the quit key is down: the frame on which
    the key is pressed is still processed (its messages are published),
    nothing after it is, and nothing after a failed read is. *)
Theorem loop_exits self frames :
  Forall (fun tkk => quit_pressed (snd tkk) = false) frames ->
  run_loop imencode self (reads_of frames) = run imencode self (map fst frames)
  /\ (forall later,
       run_loop imencode self (reads_of frames ++ ReadFailed :: later)
       = run imencode self (map fst frames))
  /\ (forall tk key later,
       quit_pressed key = true ->
       run_loop imencode self (reads_of frames ++ ReadOk tk key :: later)
       = run imencode self (map fst frames ++ [tk])).
Proof.
  intro Hcalm. repeat split.
  - rewrite run_loop_processed.
    rewrite <- (List.app_nil_r (reads_of frames)).
    rewrite (processed_reads_of frames [] Hcalm). cbn [processed].
    now rewrite List.app_nil_r.
  - intro later.
    rewrite run_loop_processed, (processed_reads_of frames _ Hcalm).
    cbn [processed]. now rewrite List.app_nil_r.
  - intros tk key later Hquit.
    rewrite run_loop_processed, (processed_reads_of frames _ Hcalm).
    cbn [processed]. now rewrite Hquit.
Qed.

End MoreNodeFacts.

(** X10. The quit test looks at the low byte of the key code only: it
    succeeds exactly when the code is 113 modulo 256, so a code with
    modifier bits above the low byte still quits, and the answer -1 of
    [cv2.waitKey] when no key is down does not. *)
Theorem quit_pressed_iff_low_byte_is_q key :
  (quit_pressed key = true <-> (key mod 256 = 113)%Z)
  /\ (forall n, quit_pressed (113 + 256 * n) = true)
  /\ quit_pressed (-1) = false.
Proof.
  assert (Hiff : forall k, quit_pressed k = true <-> (k mod 256 = 113)%Z).
  { intro k. unfold quit_pressed, ord_q.
    change 255%Z with (Z.ones 8). rewrite Z.land_ones by lia.
    change (2 ^ 8)%Z with 256%Z. apply Z.eqb_eq. }
  split; [apply Hiff |]. split; [| reflexivity].
  intro n. apply Hiff.
  rewrite Z.mul_comm, Z.mod_add by lia. reflexivity.
Qed.

(** ** Messages without an image, and heartbeats, on the wire *)

Lemma float_value_as_read neg n f :
  float_value (mk_pyfloat neg n (frac_digits f)) == float_value (mk_pyfloat neg n f).
Proof.
  destruct f; try reflexivity.
  unfold float_value, frac_digits. cbn [f_neg f_int f_frac Decimal.nb_digits].
  destruct neg; unfold Qeq; cbn; lia.
Qed.

(** X11. A movement message without an image has no [face_image] key at
    all (not a null one), before and after the wire: its payload parses to
    a dictionary that lacks the key and holds the status, the locked flag
    and the target it was built from, the target being null when none was
    given. The status and the target hold no high-surrogate code point. *)
Theorem movement_without_image_round_trip
    (imencode : View -> list byte) self status confidence target locked now :
  no_high_surrogates status ->
  (forall t, target = Some t -> no_high_surrogates t) ->
  dict_get (py "face_image")
    (payload (publish_movement imencode self status confidence target locked None now))
    = None
  /\ exists d,
      json_loads (wire (publish_movement imencode self status confidence
                          target locked None now)) = Some d
      /\ dict_get (py "face_image") d = None
      /\ dict_get (py "status") d = Some (JStr status)
      /\ dict_get (py "locked") d = Some (JBool locked)
      /\ dict_get (py "target") d
         = Some (match target with Some t => JStr t | None => JNull end)
      /\ List.length d = 5%nat.
Proof.
  intros Hs Ht. split; [reflexivity |].
  eexists. split.
  - unfold wire. apply json_loads_dumps. unfold dict_ok.
    cbn [publish_movement payload].
    repeat (constructor;
            [split; [apply py_ascii_no_high_surrogates | cbn [snd text_ok]] |]);
      try exact I; try assumption; [| constructor].
    destruct target as [t |]; cbn [opt_str text_ok]; [now apply Ht | exact I].
  - destruct target; repeat split; reflexivity.
Qed.

(** X12. The payload of a heartbeat parses to a dictionary with node
    [pc_vision], status [ONLINE] and a timestamp that stands for the same
    number as the one it was built from, whatever that time is. *)
Theorem heartbeat_round_trip now :
  exists d t,
    json_loads (wire (publish_heartbeat now)) = Some d
    /\ dict_get (py "node") d = Some (JStr (py "pc_vision"))
    /\ dict_get (py "status") d = Some (JStr (py "ONLINE"))
    /\ dict_get (py "timestamp") d = Some (JFloat t)
    /\ float_value t == float_value now
    /\ List.length d = 3%nat.
Proof.
  eexists. exists (mk_pyfloat (f_neg now) (f_int now) (frac_digits (f_frac now))).
  split.
  - unfold wire. apply json_loads_dumps. unfold dict_ok.
    cbn [publish_heartbeat payload].
    repeat (constructor;
            [split; [apply py_ascii_no_high_surrogates | cbn [snd text_ok]] |]);
      try exact I; try apply py_ascii_no_high_surrogates. constructor.
  - repeat split; try reflexivity.
    destruct now as [neg n f]. apply float_value_as_read.
Qed.

(** ** Key points from a Haar box *)

Lemma py_int_between (lo hi : Z) (q : Q) :
  (0 <= lo)%Z -> inject_Z lo <= q -> q <= inject_Z hi ->
  (lo <= py_int q <= hi)%Z.
Proof.
  intros Hlo Hq1 Hq2.
  assert (H0 : 0 <= q).
  { apply Qle_trans with (inject_Z lo); [| exact Hq1].
    change 0 with (inject_Z 0). now rewrite <- Zle_Qle. }
  destruct (py_int_nonneg q H0) as (_ & Hle & Hlt).
  split.
  - apply Z.lt_succ_r. rewrite Zlt_Qlt. unfold Z.succ.
    rewrite inject_Z_plus. change (inject_Z 1) with 1. lra.
  - rewrite Zle_Qle. lra.
Qed.

Lemma order_rows_in_order i j (kps : list Landmarks.Point) (a b : Landmarks.Point) :
  nth_error kps i = Some a -> nth_error kps j = Some b ->
  fst a <= fst b ->
  Landmarks.order_rows i j kps = Some kps.
Proof.
  intros Ha Hb Hab. unfold Landmarks.order_rows. rewrite Ha, Hb.
  apply Qlt_bool_false_iff in Hab. now rewrite Hab.
Qed.

(** X13. For a Haar box of non-negative width and height the five
    approximate key points lie inside the box, the left eye is not right of
    the right eye and the left mouth corner not right of the right one, so
    the ordering step leaves them as they are and the frame's key points,
    when FaceMesh is not available, are these five points of the first
    box; the eyes lie above the nose and the nose above the mouth when the
    height is positive; and the circles drawn for them have their centres
    inside the box. *)
Theorem haar_key_points_inside_box x y w h :
  (0 <= w)%Z -> (0 <= h)%Z ->
  Forall (fun p => inject_Z x <= fst p /\ fst p <= inject_Z (x + w)
                   /\ inject_Z y <= snd p /\ snd p <= inject_Z (y + h))
         (Landmarks._approx_5pt_from_haar_box x y w h)
  /\ (exists le re nose ml mr,
        Landmarks._approx_5pt_from_haar_box x y w h = [le; re; nose; ml; mr]
        /\ fst le <= fst re /\ fst ml <= fst mr
        /\ ((0 < h)%Z -> snd le < snd nose /\ snd re < snd nose
                         /\ snd nose < snd ml /\ snd nose < snd mr))
  /\ Landmarks.enforce_left_right (Landmarks._approx_5pt_from_haar_box x y w h)
     = Some (Landmarks._approx_5pt_from_haar_box x y w h)
  /\ (forall more W H,
        Landmarks.frame_keypoints None ((x, y, w, h) :: more) W H
        = Landmarks.Kps (Some (Landmarks._approx_5pt_from_haar_box x y w h)))
  /\ ((0 <= x)%Z -> (0 <= y)%Z ->
      Forall (fun c => (x <= fst c <= x + w)%Z /\ (y <= snd c <= y + h)%Z)
             (Landmarks.circle_centres (Landmarks._approx_5pt_from_haar_box x y w h))).
Proof.
  intros Hw Hh.
  assert (Qw : 0 <= inject_Z w) by (change 0 with (inject_Z 0); now rewrite <- Zle_Qle).
  assert (Qh : 0 <= inject_Z h) by (change 0 with (inject_Z 0); now rewrite <- Zle_Qle).
  assert (Hinside :
    Forall (fun p => inject_Z x <= fst p /\ fst p <= inject_Z (x + w)
                     /\ inject_Z y <= snd p /\ snd p <= inject_Z (y + h))
           (Landmarks._approx_5pt_from_haar_box x y w h)).
  { unfold Landmarks._approx_5pt_from_haar_box.
    repeat constructor; cbn [fst snd]; rewrite ?inject_Z_plus; lra. }
  assert (Hrows : fst (inject_Z x + (32 # 100) * inject_Z w, inject_Z y + (40 # 100) * inject_Z h)
                  <= fst (inject_Z x + (68 # 100) * inject_Z w, inject_Z y + (40 # 100) * inject_Z h)
                  /\ fst (inject_Z x + (38 # 100) * inject_Z w, inject_Z y + (74 # 100) * inject_Z h)
                     <= fst (inject_Z x + (62 # 100) * inject_Z w, inject_Z y + (74 # 100) * inject_Z h))
    by (cbn [fst]; split; lra).
  destruct Hrows as [Heyes Hmouth].
  assert (Hkeep : Landmarks.enforce_left_right (Landmarks._approx_5pt_from_haar_box x y w h)
                  = Some (Landmarks._approx_5pt_from_haar_box x y w h)).
  { unfold Landmarks.enforce_left_right, Landmarks._approx_5pt_from_haar_box.
    cbv zeta.
    match goal with
    | |- context [Landmarks.order_rows 0 1 ?pts] =>
        rewrite (order_rows_in_order 0 1 pts _ _ eq_refl eq_refl Heyes);
        exact (order_rows_in_order 3 4 pts _ _ eq_refl eq_refl Hmouth)
    end. }
  split; [exact Hinside |]. split; [| split; [exact Hkeep | split]].
  - do 5 eexists. split; [reflexivity |].
    split; [exact Heyes |]. split; [exact Hmouth |].
    intro Hpos. assert (Qpos : 0 < inject_Z h)
      by (change 0 with (inject_Z 0); now rewrite <- Zlt_Qlt).
    cbn [snd]. repeat split; lra.
  - intros more W H. unfold Landmarks.frame_keypoints. now rewrite Hkeep.
  - intros Hx Hy. unfold Landmarks.circle_centres.
    apply Forall_map. eapply Forall_impl; [| exact Hinside].
    cbn beta. intros p (Hx1 & Hx2 & Hy1 & Hy2). cbn [fst snd].
    split; now apply py_int_between.
Qed.

(** ** The ordering of the key points *)

Lemma enforce_left_right_five_rows (kps : list Landmarks.Point) :
  List.length kps = 5%nat ->
  exists a b c d e,
    Landmarks.enforce_left_right kps = Some [a; b; c; d; e]
    /\ Permutation kps [a; b; c; d; e]
    /\ Permutation (firstn 2 kps) [a; b]
    /\ Permutation (skipn 3 kps) [d; e]
    /\ nth_error kps 2 = Some c
    /\ fst a <= fst b /\ fst d <= fst e
    /\ Landmarks.enforce_left_right [a; b; c; d; e] = Some [a; b; c; d; e].
Proof.
  intro Hlen.
  destruct kps as [| p0 [| p1 [| p2 [| p3 [| p4 [| p5 rest]]]]]]; try discriminate Hlen.
  unfold Landmarks.enforce_left_right, Landmarks.order_rows.
  cbn [nth_error Landmarks.set_row firstn skipn].
  assert (Hdone : forall (a b c d e : Landmarks.Point),
    fst a <= fst b -> fst d <= fst e ->
    match
      match nth_error [a; b; c; d; e] 0, nth_error [a; b; c; d; e] 1 with
      | Some u, Some v =>
          if Qlt_bool (fst v) (fst u)
          then Some (Landmarks.set_row 1 u (Landmarks.set_row 0 v [a; b; c; d; e]))
          else Some [a; b; c; d; e]
      | _, _ => None
      end
    with
    | Some kps' =>
        match nth_error kps' 3, nth_error kps' 4 with
        | Some u, Some v =>
            if Qlt_bool (fst v) (fst u)
            then Some (Landmarks.set_row 4 u (Landmarks.set_row 3 v kps'))
            else Some kps'
        | _, _ => None
        end
    | None => None
    end = Some [a; b; c; d; e]).
  { intros a b c d e Hab Hde. cbn [nth_error].
    apply Qlt_bool_false_iff in Hab. apply Qlt_bool_false_iff in Hde.
    rewrite Hab. cbn [nth_error]. now rewrite Hde. }
  destruct (Qlt_bool (fst p1) (fst p0)) eqn:E01;
    cbn [nth_error Landmarks.set_row];
    destruct (Qlt_bool (fst p4) (fst p3)) eqn:E34;
    cbn [nth_error Landmarks.set_row];
    do 5 eexists; (split; [reflexivity |]);
    try (apply Qlt_bool_iff in E01); try (apply Qlt_bool_false_iff in E01);
    try (apply Qlt_bool_iff in E34); try (apply Qlt_bool_false_iff in E34).
  + split; [apply perm_trans with (p1 :: p0 :: p2 :: p3 :: p4 :: nil);
              [apply perm_swap | do 3 apply perm_skip; apply perm_swap] |].
    split; [apply perm_swap |]. split; [apply perm_swap |].
    split; [reflexivity |]. split; [lra |]. split; [lra |].
    apply Hdone; lra.
  + split; [apply perm_swap |].
    split; [apply perm_swap |]. split; [apply Permutation_refl |].
    split; [reflexivity |]. split; [lra |]. split; [lra |].
    apply Hdone; lra.
  + split; [do 3 apply perm_skip; apply perm_swap |].
    split; [apply Permutation_refl |]. split; [apply perm_swap |].
    split; [reflexivity |]. split; [lra |]. split; [lra |].
    apply Hdone; lra.
  + split; [apply Permutation_refl |].
    split; [apply Permutation_refl |]. split; [apply Permutation_refl |].
    split; [reflexivity |]. split; [lra |]. split; [lra |].
    apply Hdone; lra.
Qed.

(** X14. On an array of five key points the ordering step succeeds and
    gives a rearrangement of the same five points in which row 0 is not
    right of row 1 and row 3 not right of row 4; the nose (row 2) stays in
    place, each pair keeps its two points, and applying the step again
    changes nothing. With fewer than five rows it fails on a missing
    row. *)
Theorem enforce_left_right_orders (kps : list Landmarks.Point) :
  (List.length kps = 5%nat ->
   exists a b c d e,
     Landmarks.enforce_left_right kps = Some [a; b; c; d; e]
     /\ Permutation kps [a; b; c; d; e]
     /\ Permutation (firstn 2 kps) [a; b]
     /\ Permutation (skipn 3 kps) [d; e]
     /\ nth_error kps 2 = Some c
     /\ fst a <= fst b /\ fst d <= fst e
     /\ Landmarks.enforce_left_right [a; b; c; d; e] = Some [a; b; c; d; e])
  /\ ((List.length kps < 5)%nat -> Landmarks.enforce_left_right kps = None).
Proof.
  split; [apply enforce_left_right_five_rows |].
  - intro Hlen.
    unfold Landmarks.enforce_left_right, Landmarks.order_rows.
    destruct kps as [| p0 [| p1 [| p2 [| p3 [| p4 rest]]]]];
      cbn [nth_error]; try reflexivity;
      try (destruct (Qlt_bool (fst p1) (fst p0)); reflexivity).
    cbn [List.length] in Hlen. lia.
Qed.

(** ** Key points from FaceMesh *)

Lemma mesh_points_five (lm : list Landmarks.Landmark) W H :
  (291 < List.length lm)%nat ->
  exists p33 p263 p1 p61 p291,
    nth_error lm 33 = Some p33 /\ nth_error lm 263 = Some p263
    /\ nth_error lm 1 = Some p1 /\ nth_error lm 61 = Some p61
    /\ nth_error lm 291 = Some p291
    /\ Landmarks.mesh_points lm W H Landmarks.idxs
       = Some (map (fun p => (Landmarks.lm_x p * inject_Z (Zpos W),
                              Landmarks.lm_y p * inject_Z (Zpos H)))
                   [p33; p263; p1; p61; p291]).
Proof.
  intro Hlen.
  assert (Hget : forall i, (i <= 291)%nat -> exists p, nth_error lm i = Some p).
  { intros i Hi. destruct (nth_error lm i) eqn:E; [now eexists |].
    apply nth_error_None in E. lia. }
  destruct (Hget 33%nat) as [p33 E33]; [lia |].
  destruct (Hget 263%nat) as [p263 E263]; [lia |].
  destruct (Hget 1%nat) as [p1 E1]; [lia |].
  destruct (Hget 61%nat) as [p61 E61]; [lia |].
  destruct (Hget 291%nat) as [p291 E291]; [lia |].
  exists p33, p263, p1, p61, p291. repeat (split; [assumption |]).
  unfold Landmarks.idxs, Landmarks.IDX_LEFT_EYE, Landmarks.IDX_RIGHT_EYE,
    Landmarks.IDX_NOSE_TIP, Landmarks.IDX_MOUTH_LEFT, Landmarks.IDX_MOUTH_RIGHT.
  unfold Landmarks.mesh_points. now rewrite E33, E263, E1, E61, E291.
Qed.

Lemma mesh_points_too_short (lm : list Landmarks.Landmark) W H :
  (List.length lm <= 291)%nat ->
  Landmarks.mesh_points lm W H Landmarks.idxs = None.
Proof.
  intro Hlen.
  assert (E291 : nth_error lm 291 = None) by now apply nth_error_None.
  unfold Landmarks.idxs, Landmarks.IDX_LEFT_EYE, Landmarks.IDX_RIGHT_EYE,
    Landmarks.IDX_NOSE_TIP, Landmarks.IDX_MOUTH_LEFT, Landmarks.IDX_MOUTH_RIGHT.
  unfold Landmarks.mesh_points. rewrite E291.
  destruct (nth_error lm 33); [| reflexivity].
  destruct (nth_error lm 263); [| reflexivity].
  destruct (nth_error lm 1); [| reflexivity].
  destruct (nth_error lm 61); reflexivity.
Qed.

(** X15. When FaceMesh is available the Haar boxes play no part in the key
    points: with no mesh face there are no key points even if Haar found
    faces; with mesh faces only the first is used; a landmark list of at
    most 291 entries ends in an [IndexError]; and a longer one gives the
    landmarks 33, 263, 1, 61 and 291 scaled by the frame's width and
    height, left and right put in order, all inside the frame when the
    landmarks are normalised. *)
Theorem mesh_key_points :
  (forall faces W H, Landmarks.frame_keypoints (Some []) faces W H = Landmarks.Kps None)
  /\ (forall lm others faces W H,
       Landmarks.frame_keypoints (Some (lm :: others)) faces W H
       = Landmarks.frame_keypoints (Some [lm]) [] W H)
  /\ (forall lm others faces W H,
       (List.length lm <= 291)%nat ->
       Landmarks.frame_keypoints (Some (lm :: others)) faces W H
       = Landmarks.Raised_IndexError)
  /\ (forall lm others faces W H,
       (291 < List.length lm)%nat ->
       exists p33 p263 p1 p61 p291 kps,
         nth_error lm 33 = Some p33 /\ nth_error lm 263 = Some p263
         /\ nth_error lm 1 = Some p1 /\ nth_error lm 61 = Some p61
         /\ nth_error lm 291 = Some p291
         /\ Landmarks.frame_keypoints (Some (lm :: others)) faces W H
            = Landmarks.Kps (Some kps)
         /\ Landmarks.enforce_left_right
              (map (fun p => (Landmarks.lm_x p * inject_Z (Zpos W),
                              Landmarks.lm_y p * inject_Z (Zpos H)))
                   [p33; p263; p1; p61; p291]) = Some kps
         /\ (Forall (fun p => 0 <= Landmarks.lm_x p /\ Landmarks.lm_x p <= 1
                              /\ 0 <= Landmarks.lm_y p /\ Landmarks.lm_y p <= 1) lm ->
             Forall (fun q => 0 <= fst q /\ fst q <= inject_Z (Zpos W)
                              /\ 0 <= snd q /\ snd q <= inject_Z (Zpos H)) kps)).
Proof.
  split; [reflexivity |]. split; [reflexivity |]. split.
  - intros lm others faces W H Hlen. unfold Landmarks.frame_keypoints.
    now rewrite (mesh_points_too_short lm W H Hlen).
  - intros lm others faces W H Hlen.
    destruct (mesh_points_five lm W H Hlen)
      as (p33 & p263 & p1 & p61 & p291 & E33 & E263 & E1 & E61 & E291 & Hpts).
    set (pts := map (fun p => (Landmarks.lm_x p * inject_Z (Zpos W),
                               Landmarks.lm_y p * inject_Z (Zpos H)))
                    [p33; p263; p1; p61; p291]) in *.
    destruct (enforce_left_right_five_rows pts eq_refl)
      as (a & b & c & d & e & Henf & Hperm & _).
    exists p33, p263, p1, p61, p291, [a; b; c; d; e].
    repeat (split; [assumption |]).
    split; [unfold Landmarks.frame_keypoints; now rewrite Hpts, Henf |].
    split; [exact Henf |].
    intro Hnorm.
    assert (Hin : forall i p, nth_error lm i = Some p ->
                  0 <= Landmarks.lm_x p * inject_Z (Zpos W)
                  /\ Landmarks.lm_x p * inject_Z (Zpos W) <= inject_Z (Zpos W)
                  /\ 0 <= Landmarks.lm_y p * inject_Z (Zpos H)
                  /\ Landmarks.lm_y p * inject_Z (Zpos H) <= inject_Z (Zpos H)).
    { intros i p Hp. apply nth_error_In in Hp.
      rewrite Forall_forall in Hnorm. destruct (Hnorm p Hp) as (X0 & X1 & Y0 & Y1).
      assert (QW : 0 < inject_Z (Zpos W)) by reflexivity.
      assert (QH : 0 < inject_Z (Zpos H)) by reflexivity.
      repeat split; nra. }
    eapply Permutation_Forall; [exact Hperm |].
    unfold pts. cbn [map].
    repeat (constructor; [cbn [fst snd]; eauto |]). constructor.
Qed.

(** ** The first frame, and what each timer depends on *)

(** Both timers of a node started by [__init__] stand at 0, so the first
    frame of [run], read at a wall-clock time of more than 5 s, passes
    both gates. *)
Lemma first_frame_passes_both_gates (imencode : View -> list byte) name tk :
  5 < current_time tk -> 5 < heartbeat_check tk ->
  fl_movement (fst (run_frame imencode (init name) tk)) <> None
  /\ fl_heartbeat (fst (run_frame imencode (init name) tk))
     = Some (publish_heartbeat (heartbeat_stamp tk))
  /\ (forall f, lock_state tk = LOCKED -> target_face tk = Some f ->
      exists p,
        fl_movement (fst (run_frame imencode (init name) tk)) = Some p
        /\ dict_get (py "face_image") (payload p)
           = Some (JStr (b64encode (imencode (face_crop_of (frame tk) f))))).
Proof.
  intros Hclock Hbeat.
  assert (Hdue : movement_due (init name) (current_time tk) = true).
  { apply movement_due_iff. cbn [init last_publish_time]. lra. }
  assert (Hhb : heartbeat_due (init name) (heartbeat_check tk) = true).
  { apply heartbeat_due_iff. cbn [init last_heartbeat]. lra. }
  split; [rewrite run_frame_movement, Hdue; discriminate |].
  split.
  - destruct (run_frame_heartbeat imencode (init name) tk) as [-> _].
    now rewrite Hhb.
  - intros f Hl Hf.
    apply snapshot_attached_when_admitted; [| exact Hdue].
    destruct (locked_frame_crop imencode (init name) tk Hl) as [-> _].
    now rewrite Hf.
Qed.

(** X16. Both timers of a node started by [__init__] stand at 0. So its
    first frame, read at a wall-clock time of more than 5 s, completes and
    publishes a movement message and a heartbeat whenever it is croppable,
    and when it is LOCKED and shows the target the message carries the
    snapshot. When it is LOCKED and shows a target whose box is not
    encodable (a box outside the frame, so that the crop is empty), the
    iteration raises instead and publishes nothing, neither the movement
    message nor the heartbeat. *)
Theorem first_frame_publishes (imencode : View -> list byte) name tk :
  5 < current_time tk -> 5 < heartbeat_check tk ->
  (croppable tk = true ->
   exists log self',
     Exc.run_frame imencode (init name) tk = Exc.Returns (log, self')
     /\ fl_movement log <> None
     /\ fl_heartbeat log = Some (publish_heartbeat (heartbeat_stamp tk))
     /\ (forall f, lock_state tk = LOCKED -> target_face tk = Some f ->
         exists p,
           fl_movement log = Some p
           /\ dict_get (py "face_image") (payload p)
              = Some (JStr (b64encode (imencode (face_crop_of (frame tk) f))))))
  /\ (forall f, lock_state tk = LOCKED -> target_face tk = Some f ->
      encodable (frame tk) f = false ->
      (exists e, Exc.run_frame imencode (init name) tk = Exc.Raises e)
      /\ (finite_box f = true ->
          Exc.run_frame imencode (init name) tk = Exc.Raises Exc.cv2_error)).
Proof.
  intros Hclock Hbeat.
  destruct (first_frame_passes_both_gates imencode name tk Hclock Hbeat)
    as (Hmove & Hhb & Hsnap).
  split.
  - intro Hok.
    exists (fst (run_frame imencode (init name) tk)),
           (snd (run_frame imencode (init name) tk)).
    split; [| now repeat split].
    rewrite (Exc_run_frame_croppable imencode (init name) tk Hok).
    now destruct (run_frame imencode (init name) tk).
  - intros f Hl Hf Henc.
    pose proof (Exc_run_frame_cases imencode (init name) tk) as Hcases.
    assert (Hcf : cropped_face (init name) tk = Some f)
      by (apply cropped_face_inv; repeat split; assumption).
    assert (Hdue : movement_due (init name) (current_time tk) = true).
    { apply movement_due_iff. cbn [init last_publish_time]. lra. }
    rewrite Hcf, Hdue in Hcases. cbn [andb] in Hcases.
    unfold encodable in Henc.
    destruct (finite_box f); cbn [andb] in Henc.
    + apply negb_false_iff in Henc. rewrite Henc in Hcases.
      split; [now exists Exc.cv2_error | now intros _].
    + destruct Hcases as (e & He & _).
      split; [now exists e | discriminate].
Qed.



(** * The further properties at concrete inputs *)


Lemma last_status_written_only_by_visible_frames_witness :
  forallb (fun tk => negb (is_locked tk && visible tk))
    [tick_at SEARCHING None 1001 1001; tick_at LOCKED None 1002 1002] = true
  /\ map fl_status
       (fst (run markers_only
               (snd (run_frame markers_only (init (py "andrew"))
                       (tick_at LOCKED (Some (face_at 100)) 1000 1000)))
               [tick_at SEARCHING None 1001 1001; tick_at LOCKED None 1002 1002]))
     = [NO_FACE; MOVE_LEFT].
Proof.
  split; [reflexivity |].
  destruct (last_status_written_only_by_visible_frames markers_only
              (snd (run_frame markers_only (init (py "andrew"))
                      (tick_at LOCKED (Some (face_at 100)) 1000 1000)))
              [tick_at SEARCHING None 1001 1001; tick_at LOCKED None 1002 1002]
              eq_refl) as [_ Hlogs].
  remember (fst (run markers_only
                   (snd (run_frame markers_only (init (py "andrew"))
                           (tick_at LOCKED (Some (face_at 100)) 1000 1000)))
                   [tick_at SEARCHING None 1001 1001; tick_at LOCKED None 1002 1002]))
    as logs eqn:Elogs.
  clear Elogs.
  inversion Hlogs as [| t1 l1 ts1 ls1 St1 Hrest1]; subst.
  inversion Hrest1 as [| t2 l2 ts2 ls2 St2 Hrest2]; subst.
  inversion Hrest2; subst. cbn [map]. rewrite St1, St2. reflexivity.
Defined.

Lemma last_status_never_NO_FACE_witness :
  lock_state (tick_at LOCKED None 1001 1001) = LOCKED
  /\ target_face (tick_at LOCKED None 1001 1001) = None
  /\ fl_status
       (fst (run_frame markers_only
               (snd (run markers_only (init (py "andrew"))
                       [tick_at SEARCHING None 1000 1000]))
               (tick_at LOCKED None 1001 1001))) = CENTERED.
Proof.
  split; [reflexivity |]. split; [reflexivity |].
  exact (proj2 (proj2 (last_status_never_NO_FACE markers_only (py "andrew")
                         [tick_at SEARCHING None 1000 1000]
                         (tick_at LOCKED None 1001 1001) eq_refl eq_refl))
           eq_refl).
Defined.

Lemma movement_rate_cap_witness :
  Forall (fun tk => 1000 <= current_time tk
                    /\ current_time tk < 1000 + inject_Z (Z.of_nat 3) * (1 # 10))
         [tick_at LOCKED None 1000 1000; tick_at LOCKED None (10001 # 10) 1000;
          tick_at LOCKED None (100015 # 100) 1000; tick_at LOCKED None (10002 # 10) 1000;
          tick_at LOCKED None (100029 # 100) 1000]
  /\ (count_some fl_movement
        (fst (run markers_only (init (py "andrew"))
                [tick_at LOCKED None 1000 1000; tick_at LOCKED None (10001 # 10) 1000;
                 tick_at LOCKED None (100015 # 100) 1000;
                 tick_at LOCKED None (10002 # 10) 1000;
                 tick_at LOCKED None (100029 # 100) 1000])) <= 3)%nat.
Proof.
  assert (Hwin : Forall (fun tk => 1000 <= current_time tk
                                   /\ current_time tk
                                      < 1000 + inject_Z (Z.of_nat 3) * (1 # 10))
                   [tick_at LOCKED None 1000 1000; tick_at LOCKED None (10001 # 10) 1000;
                    tick_at LOCKED None (100015 # 100) 1000;
                    tick_at LOCKED None (10002 # 10) 1000;
                    tick_at LOCKED None (100029 # 100) 1000]).
  { repeat (constructor; [split; [vm_compute; discriminate | reflexivity] |]).
    constructor. }
  split; [exact Hwin |].
  exact (movement_rate_cap markers_only (init (py "andrew")) 1000 3 _ Hwin).
Defined.

Lemma slow_frames_are_all_published_witness :
  slow_from (last_publish_time (init (py "andrew")))
    [tick_at LOCKED (Some (face_at 100)) 1000 1000;
     tick_at LOCKED (Some (face_at 320)) (10002 # 10) 1000]
  /\ forallb croppable
       [tick_at LOCKED (Some (face_at 100)) 1000 1000;
        tick_at LOCKED (Some (face_at 320)) (10002 # 10) 1000] = true
  /\ exists logs self',
      Exc.run markers_only (init (py "andrew"))
        [tick_at LOCKED (Some (face_at 100)) 1000 1000;
         tick_at LOCKED (Some (face_at 320)) (10002 # 10) 1000]
      = (logs, Exc.Returns self')
      /\ List.length logs = 2%nat.
Proof.
  assert (Hslow : slow_from (last_publish_time (init (py "andrew")))
                    [tick_at LOCKED (Some (face_at 100)) 1000 1000;
                     tick_at LOCKED (Some (face_at 320)) (10002 # 10) 1000]).
  { cbn [slow_from]. repeat split; vm_compute; discriminate. }
  split; [exact Hslow |]. split; [reflexivity |].
  destruct (slow_frames_are_all_published markers_only (init (py "andrew")) _
              Hslow eq_refl) as (logs & self' & Hrun & Hlen & _).
  exists logs, self'. split; [exact Hrun | exact Hlen].
Defined.

Lemma snapshot_published_iff_witness :
  (exists log self' p v,
      Exc.run_frame markers_only (init (py "andrew"))
        (tick_at LOCKED (Some (face_at 100)) 1000 1000) = Exc.Returns (log, self')
      /\ fl_movement log = Some p
      /\ dict_get (py "face_image") (payload p) = Some v)
  /\ Exc.run_frame markers_only (init (py "andrew"))
       (tick_at LOCKED (Some (face_at 730)) 1000 1000) = Exc.Raises Exc.cv2_error.
Proof.
  assert (Hdue : 1 # 10 <= 1000 - last_publish_time (init (py "andrew")))
    by (vm_compute; discriminate).
  split.
  - apply (proj2 (proj1 (snapshot_published_iff markers_only (init (py "andrew"))
                           (tick_at LOCKED (Some (face_at 100)) 1000 1000)))).
    split; [reflexivity |]. split; [exists (face_at 100); split; reflexivity |].
    split; [reflexivity | exact Hdue].
  - apply (proj2 (proj2 (snapshot_published_iff markers_only (init (py "andrew"))
                           (tick_at LOCKED (Some (face_at 730)) 1000 1000)))).
    split; [reflexivity |].
    split; [exists (face_at 730); repeat split; reflexivity |].
    split; [reflexivity | exact Hdue].
Defined.

Lemma heartbeat_rate_cap_witness :
  Forall (fun tk => 1000 <= heartbeat_check tk
                    /\ heartbeat_check tk <= 1000 + (inject_Z (Z.of_nat 0) + 1) * 5
                    /\ heartbeat_check tk <= heartbeat_set tk)
         [tick_at SEARCHING None 1000 1000; tick_at SEARCHING None 1003 1003;
          tick_at SEARCHING None 1005 1005]
  /\ (count_some fl_heartbeat
        (fst (run markers_only (init (py "andrew"))
                [tick_at SEARCHING None 1000 1000; tick_at SEARCHING None 1003 1003;
                 tick_at SEARCHING None 1005 1005])) <= 1)%nat.
Proof.
  assert (Hwin : Forall (fun tk => 1000 <= heartbeat_check tk
                                   /\ heartbeat_check tk
                                      <= 1000 + (inject_Z (Z.of_nat 0) + 1) * 5
                                   /\ heartbeat_check tk <= heartbeat_set tk)
                   [tick_at SEARCHING None 1000 1000; tick_at SEARCHING None 1003 1003;
                    tick_at SEARCHING None 1005 1005]).
  { repeat (constructor; [repeat split; vm_compute; discriminate |]). constructor. }
  split; [exact Hwin |].
  exact (heartbeat_rate_cap markers_only (init (py "andrew")) 1000 0 _ Hwin).
Defined.

Lemma loop_exits_witness :
  Forall (fun tkk => quit_pressed (snd tkk) = false)
         [(tick_at SEARCHING None 1000 1000, (-1)%Z);
          (tick_at LOCKED None 1001 1001, 81%Z)]
  /\ quit_pressed 1048689 = true
  /\ run_loop markers_only (init (py "andrew"))
       (reads_of [(tick_at SEARCHING None 1000 1000, (-1)%Z);
                  (tick_at LOCKED None 1001 1001, 81%Z)]
          ++ ReadOk (tick_at LOCKED None 1002 1002) 1048689
          :: [ReadOk (tick_at LOCKED None 1003 1003) (-1)])
     = run markers_only (init (py "andrew"))
         (map fst [(tick_at SEARCHING None 1000 1000, (-1)%Z);
                   (tick_at LOCKED None 1001 1001, 81%Z)]
            ++ [tick_at LOCKED None 1002 1002]).
Proof.
  assert (Hcalm : Forall (fun tkk => quit_pressed (snd tkk) = false)
                    [(tick_at SEARCHING None 1000 1000, (-1)%Z);
                     (tick_at LOCKED None 1001 1001, 81%Z)])
    by (repeat constructor).
  split; [exact Hcalm |]. split; [reflexivity |].
  exact (proj2 (proj2 (loop_exits markers_only (init (py "andrew")) _ Hcalm))
           (tick_at LOCKED None 1002 1002) 1048689%Z
           [ReadOk (tick_at LOCKED None 1003 1003) (-1)] eq_refl).
Defined.

Lemma movement_without_image_round_trip_witness :
  no_high_surrogates (py "NO_FACE")
  /\ (forall t, @None pystr = Some t -> no_high_surrogates t)
  /\ exists d,
      json_loads (wire (publish_movement markers_only (init (py "andrew"))
                          (py "NO_FACE") one_point_zero None false None
                          (stamp_of 1000))) = Some d
      /\ dict_get (py "face_image") d = None
      /\ dict_get (py "target") d = Some JNull.
Proof.
  split; [apply py_ascii_no_high_surrogates |].
  split; [discriminate |].
  destruct (proj2 (movement_without_image_round_trip markers_only
                     (init (py "andrew")) (py "NO_FACE") one_point_zero None false
                     (stamp_of 1000) (py_ascii_no_high_surrogates "NO_FACE")
                     (fun t (E : @None pystr = Some t) =>
                        match E in (_ = o)
                              return match o with
                                     | Some _ => no_high_surrogates t
                                     | None => True
                                     end
                        with eq_refl => I end)))
    as (d & Hd & Himg & _ & _ & Htarget & _).
  exists d. repeat split; assumption.
Defined.

Lemma haar_key_points_inside_box_witness :
  (0 <= 120)%Z /\ (0 <= 160)%Z
  /\ Landmarks.enforce_left_right (Landmarks._approx_5pt_from_haar_box 200 100 120 160)
     = Some (Landmarks._approx_5pt_from_haar_box 200 100 120 160).
Proof.
  assert (Hw : (0 <= 120)%Z) by lia. assert (Hh : (0 <= 160)%Z) by lia.
  split; [exact Hw |]. split; [exact Hh |].
  exact (proj1 (proj2 (proj2 (haar_key_points_inside_box 200 100 120 160 Hw Hh)))).
Defined.

Lemma enforce_left_right_orders_witness :
  List.length [(5, 1); (3, 1); (4, 2); (1, 3); (2, 3)] = 5%nat
  /\ exists a b c d e,
      Landmarks.enforce_left_right [(5, 1); (3, 1); (4, 2); (1, 3); (2, 3)]
      = Some [a; b; c; d; e]
      /\ fst a <= fst b /\ fst d <= fst e.
Proof.
  split; [reflexivity |].
  destruct (proj1 (enforce_left_right_orders [(5, 1); (3, 1); (4, 2); (1, 3); (2, 3)])
              eq_refl)
    as (a & b & c & d & e & Henf & _ & _ & _ & _ & Hab & Hde & _).
  exists a, b, c, d, e. repeat split; assumption.
Defined.

Lemma mesh_key_points_witness :
  (291 < List.length (repeat {| Landmarks.lm_x := 1 # 2; Landmarks.lm_y := 1 # 4 |} 300))%nat
  /\ (List.length (repeat {| Landmarks.lm_x := 1 # 2; Landmarks.lm_y := 1 # 4 |} 100)
      <= 291)%nat
  /\ Landmarks.frame_keypoints
       (Some [repeat {| Landmarks.lm_x := 1 # 2; Landmarks.lm_y := 1 # 4 |} 100])
       [(10, 10, 80, 80)%Z] 640 480
     = Landmarks.Raised_IndexError
  /\ exists kps,
      Landmarks.frame_keypoints
        (Some [repeat {| Landmarks.lm_x := 1 # 2; Landmarks.lm_y := 1 # 4 |} 300])
        [(10, 10, 80, 80)%Z] 640 480
      = Landmarks.Kps (Some kps).
Proof.
  assert (Hlong : (291 < List.length
                           (repeat {| Landmarks.lm_x := 1 # 2; Landmarks.lm_y := 1 # 4 |}
                              300))%nat)
    by (rewrite repeat_length; lia).
  assert (Hshort : (List.length
                      (repeat {| Landmarks.lm_x := 1 # 2; Landmarks.lm_y := 1 # 4 |} 100)
                    <= 291)%nat)
    by (rewrite repeat_length; lia).
  split; [exact Hlong |]. split; [exact Hshort |].
  split.
  - exact (proj1 (proj2 (proj2 mesh_key_points)) _ [] [(10, 10, 80, 80)%Z] 640%positive
             480%positive Hshort).
  - destruct (proj2 (proj2 (proj2 mesh_key_points)) _ [] [(10, 10, 80, 80)%Z]
                640%positive 480%positive Hlong)
      as (p33 & p263 & p1 & p61 & p291 & kps & _ & _ & _ & _ & _ & Hk & _).
    exists kps. exact Hk.
Defined.

Lemma first_frame_publishes_witness :
  5 < current_time (tick_at LOCKED (Some (face_at 100)) 1000 1000)
  /\ 5 < heartbeat_check (tick_at LOCKED (Some (face_at 100)) 1000 1000)
  /\ croppable (tick_at LOCKED (Some (face_at 100)) 1000 1000) = true
  /\ (exists log self',
        Exc.run_frame markers_only (init (py "andrew"))
          (tick_at LOCKED (Some (face_at 100)) 1000 1000) = Exc.Returns (log, self')
        /\ fl_heartbeat log = Some (publish_heartbeat (stamp_of 1000)))
  /\ encodable blank_frame (face_at 730) = false
  /\ Exc.run_frame markers_only (init (py "andrew"))
       (tick_at LOCKED (Some (face_at 730)) 1000 1000) = Exc.Raises Exc.cv2_error.
Proof.
  split; [reflexivity |]. split; [reflexivity |]. split; [reflexivity |].
  split; [| split; [reflexivity |]].
  - destruct (proj1 (first_frame_publishes markers_only (py "andrew")
                       (tick_at LOCKED (Some (face_at 100)) 1000 1000)
                       eq_refl eq_refl) eq_refl)
      as (log & self' & Hrun & _ & Hbeat & _).
    exists log, self'. split; [exact Hrun | exact Hbeat].
  - exact (proj2 (proj2 (first_frame_publishes markers_only (py "andrew")
                           (tick_at LOCKED (Some (face_at 730)) 1000 1000)
                           eq_refl eq_refl)
                    (face_at 730) eq_refl eq_refl eq_refl)
             eq_refl).
Defined.

